(** * MCP-CAN-Boot flash application: the bootloader dialogue of
      [flash-app.js], embedded as explicit state passing.

    The handler [handleCanMsg] and its helpers ([onFlashReady],
    [readForVerify], [readDone], [sendStartApp], [sendSetFlashAddress],
    [exit]) become functions from the object state [FlashApp] to a
    [result]: the new state, the trace of effects ([event]) in the order
    the code performs them, and how the call ended. *)

From Stdlib Require Import ZArith Lia Bool List.
From Stdlib.Strings Require Import Byte.
From Stdlib.Strings Require Ascii String HexString.
From stdpp Require Import base tactics option list numbers.
Import Ascii.AsciiSyntax String.StringSyntax.
Delimit Scope string_scope with string.
Delimit Scope char_scope with char.
Import ListNotations.

Local Open Scope Z_scope.

(** ** Bytes and JavaScript 32-bit integer operators *)

Module Js.

(** The value of a [Buffer] / [Uint8Array] element. *)
Definition u8 (b : byte) : Z := Z.of_N (Byte.to_N b).

(** Storing a number into a [Buffer] keeps its low eight bits. *)
Definition byte_of_Z (z : Z) : byte :=
  match Byte.of_N (Z.to_N (z mod 256)) with
  | Some b => b
  | None => x00
  end.

(** [ToInt32] on an integral number. *)
Definition to_int32 (z : Z) : Z := (z + 2 ^ 31) mod 2 ^ 32 - 2 ^ 31.

(** [a << n], [a >> n], [a & b], [a | b]. *)
Definition shl (a n : Z) : Z := to_int32 (Z.shiftl (to_int32 a) (n mod 32)).
Definition sar (a n : Z) : Z := Z.shiftr (to_int32 a) (n mod 32).
Definition and (a b : Z) : Z := Z.land (to_int32 a) (to_int32 b).
Definition or (a b : Z) : Z := Z.lor (to_int32 a) (to_int32 b).

(** A boolean used as a number. *)
Definition of_bool (b : bool) : Z := if b then 1 else 0.

(** [arr[i]] on an array or typed array: [None] is [undefined]. *)
Definition get {A} (arr : list A) (i : Z) : option A :=
  if i <? 0 then None else arr !! Z.to_nat i.

(** [Buffer.from([...])]. *)
Definition Buffer_from (l : list Z) : list byte := map byte_of_Z l.

End Js.

(** ** Constants of the protocol *)

Definition BOOTLOADER_CMD_VERSION : Z := 0x01.

Definition CAN_DATA_BYTE_MCU_ID_MSB : Z := 0.
Definition CAN_DATA_BYTE_MCU_ID_LSB : Z := 1.
Definition CAN_DATA_BYTE_CMD : Z := 2.
Definition CAN_DATA_BYTE_LEN_AND_ADDR : Z := 3.

Definition CAN_ID_MCU_TO_REMOTE_DEFAULT : Z := 0x1FFFFF01.
Definition CAN_ID_REMOTE_TO_MCU_DEFAULT : Z := 0x1FFFFF02.

Definition CAN_PING_INTERVAL_DEFAULT : Z := 75.

Definition CMD_PING : Z := 0.
Definition CMD_BOOTLOADER_START : Z := 2.
Definition CMD_FLASH_INIT : Z := 6.
Definition CMD_FLASH_READY : Z := 4.
Definition CMD_FLASH_SET_ADDRESS : Z := 10.
Definition CMD_FLASH_ADDRESS_ERROR : Z := 11.
Definition CMD_FLASH_DATA : Z := 8.
Definition CMD_FLASH_DATA_ERROR : Z := 13.
Definition CMD_FLASH_DONE : Z := 16.
Definition CMD_FLASH_DONE_VERIFY : Z := 80.
Definition CMD_FLASH_ERASE : Z := 32.
Definition CMD_FLASH_READ : Z := 64.
Definition CMD_FLASH_READ_DATA : Z := 72.
Definition CMD_FLASH_READ_ADDRESS_ERROR : Z := 75.
Definition CMD_START_APP : Z := 128.

Inductive session_state := STATE_INIT | STATE_FLASHING | STATE_READING.

(** ** Data model *)

(** A number that came out of [parseInt]: an integer or [NaN]. *)
Inductive jsnum := NaN | Num (z : Z).

(** The parsed command line, [this.args]. Option [r] is absent
    ([None]), given without a value ([Some NaN], as [parseInt] of the
    empty string), or a number. *)
Module Args.
Record t := mk {
  mcuid : Z;
  e : bool;
  V : bool;
  r : option jsnum;
  F : bool;
  canIdMcu : Z;
  canIdRemote : Z;
  sff : bool;
  ping : option Z;
  verbose : bool
}.
End Args.

(** A received CAN message: only [id] and [data] are read. *)
Record can_msg := mkMsg { msg_id : Z; msg_data : list byte }.

(** The object handed to [this.can.send]. *)
Record frame := mkFrame { id : Z; ext : bool; rtr : bool; data : list byte }.

(** [MemoryMap]: a [Map] from block start address to [Uint8Array], in
    insertion order. *)
Definition MemoryMap := list (Z * list byte).

Fixpoint MemoryMap_get (m : MemoryMap) (addr : Z) : option (list byte) :=
  match m with
  | [] => None
  | (k, block) :: m' => if k =? addr then Some block else MemoryMap_get m' addr
  end.

Definition MemoryMap_keys (m : MemoryMap) : list Z := map fst m.

(** [this.memMap.get(this.memMapCurrentKey)], where the key may be [null]. *)
Definition memMap_get (m : MemoryMap) (key : option Z) : option (list byte) :=
  match key with
  | None => None
  | Some k => MemoryMap_get m k
  end.

(** Fields of [this] fixed by the constructor. *)
Record Config := mkConfig {
  args : Args.t;
  mcuId : Z * Z;
  doRead : bool;
  doVerify : bool;
  doProgress : bool;
  deviceSignature : Z * Z * Z;
  deviceFlashSize : Z;
  memMap : MemoryMap;
  memMapTotalBytes : Z
}.

(** The object [this]: the configuration and the fields the handlers
    assign. [memMapKeys] is the key iterator, as the keys it has yet to
    yield; [readDataArr] holds what was pushed, [None] for [undefined];
    [pingInterval] is the timer handle, present or not. *)
Record FlashApp := mkFlashApp {
  conf : Config;
  state : session_state;
  doErase : bool;
  memMapKeys : list Z;
  memMapCurrentKey : option Z;
  memMapCurrentDataIdx : Z;
  curAddr : Z;
  readDataArr : list (option byte);
  pingInterval : option Z;
  flashStartTs : option Z
}.

Definition set_state (v : session_state) (s : FlashApp) : FlashApp :=
  mkFlashApp (conf s) v (doErase s) (memMapKeys s) (memMapCurrentKey s)
    (memMapCurrentDataIdx s) (curAddr s) (readDataArr s) (pingInterval s)
    (flashStartTs s).
Definition set_doErase (v : bool) (s : FlashApp) : FlashApp :=
  mkFlashApp (conf s) (state s) v (memMapKeys s) (memMapCurrentKey s)
    (memMapCurrentDataIdx s) (curAddr s) (readDataArr s) (pingInterval s)
    (flashStartTs s).
Definition set_memMapKeys (v : list Z) (s : FlashApp) : FlashApp :=
  mkFlashApp (conf s) (state s) (doErase s) v (memMapCurrentKey s)
    (memMapCurrentDataIdx s) (curAddr s) (readDataArr s) (pingInterval s)
    (flashStartTs s).
Definition set_memMapCurrentKey (v : option Z) (s : FlashApp) : FlashApp :=
  mkFlashApp (conf s) (state s) (doErase s) (memMapKeys s) v
    (memMapCurrentDataIdx s) (curAddr s) (readDataArr s) (pingInterval s)
    (flashStartTs s).
Definition set_memMapCurrentDataIdx (v : Z) (s : FlashApp) : FlashApp :=
  mkFlashApp (conf s) (state s) (doErase s) (memMapKeys s) (memMapCurrentKey s)
    v (curAddr s) (readDataArr s) (pingInterval s) (flashStartTs s).
Definition set_curAddr (v : Z) (s : FlashApp) : FlashApp :=
  mkFlashApp (conf s) (state s) (doErase s) (memMapKeys s) (memMapCurrentKey s)
    (memMapCurrentDataIdx s) v (readDataArr s) (pingInterval s) (flashStartTs s).
Definition set_readDataArr (v : list (option byte)) (s : FlashApp) : FlashApp :=
  mkFlashApp (conf s) (state s) (doErase s) (memMapKeys s) (memMapCurrentKey s)
    (memMapCurrentDataIdx s) (curAddr s) v (pingInterval s) (flashStartTs s).
Definition set_pingInterval (v : option Z) (s : FlashApp) : FlashApp :=
  mkFlashApp (conf s) (state s) (doErase s) (memMapKeys s) (memMapCurrentKey s)
    (memMapCurrentDataIdx s) (curAddr s) (readDataArr s) v (flashStartTs s).
Definition set_flashStartTs (v : option Z) (s : FlashApp) : FlashApp :=
  mkFlashApp (conf s) (state s) (doErase s) (memMapKeys s) (memMapCurrentKey s)
    (memMapCurrentDataIdx s) (curAddr s) (readDataArr s) (pingInterval s) v.

(** What [console.log] / [console.warn] print, by message; the numbers
    are the ones interpolated into the text. *)
Inductive console_msg :=
| SignatureMismatch
| SignatureExpected (e0 e1 e2 g0 g1 g2 : Z)
| VersionForced (got : Z)
| VersionError (got : Z)
| EnteringFlashMode
| PingStopped
| QueryingBootloaderSize
| ErasingFlash
| BeginFlashing
| BootloaderSize (blSize : Z)
| ReadSizeExceeds (r progSize : Z)
| UnexpectedAddressErrorInInit
| UnexpectedMessage (cmd : Z)
| FlashDataError
| CanBusIssues
| FlashAddressError
| HexFileHint
| FlashDoneIn (ms : jsnum)
| McuStartingApp
| StartReadingToVerify
| UnexpectedReadAddress
| WillAbort
| GotFlashDataFor (addr : Z)
| VerifyFailedAt (addr : Z)
| TryingToStartAnyway
| ReadFailedDuringVerify
| FlashAndVerifyDoneIn (ms : jsnum)
| ReadingDoneIn (ms : jsnum)
| StartingTheApp
| SettingFlashAddress (addr : Z)
| AllDataTransmitted
| SendingFlashData (addr : Z).

(** The effects of a handler call, in program order: a frame given to
    [can.send], a console line, a progress bar call, the Intel HEX
    output of [readDone] (the bytes of its single block at address 0),
    and [can.stop]. *)
Inductive event :=
| Send (f : frame)
| Console (m : console_msg)
| ProgressStart (total startValue : Z)
| ProgressIncrement (incr : Z)
| ProgressStop
| HexOutput (block0 : list byte)
| CanStop.

(** How a call ended: it returned, it called [process.exit], or it
    threw (indexing [undefined]). *)
Inductive outcome := Returned | Exited (code : Z) | Threw.

Record result := mkResult {
  r_app : FlashApp;
  r_events : list event;
  r_outcome : outcome
}.

(** The frames among the events, in order. *)
Definition sent (evs : list event) : list frame :=
  omap (fun ev => match ev with Send f => Some f | _ => None end) evs.

(** The command byte of a frame. *)
Definition frame_cmd (f : frame) : option Z := Js.u8 <$> Js.get (data f) CAN_DATA_BYTE_CMD.

(** ** The helpers of [FlashApp] *)

(** The message object every [can.send] builds: the remote-to-MCU id,
    [ext: !this.args.sff], [rtr: false] and the given buffer. *)
Definition to_mcu (s : FlashApp) (buf : list byte) : frame :=
  mkFrame (Args.canIdRemote (args (conf s)))
          (negb (Args.sff (args (conf s)))) false buf.

(** [Buffer.from([this.mcuId[0], this.mcuId[1], cmd, 0x00, p4, p5, p6, p7])]. *)
Definition command_buffer (s : FlashApp) (cmd : Z) (p : list Z) : list byte :=
  Js.Buffer_from ([fst (mcuId (conf s)); snd (mcuId (conf s)); cmd; 0] ++ p).

(** [(addr >> 24) & 0xFF, (addr >> 16) & 0xFF, (addr >> 8) & 0xFF, addr & 0xFF]. *)
Definition addr_bytes (addr : Z) : list Z :=
  [ Js.and (Js.sar addr 24) 0xFF; Js.and (Js.sar addr 16) 0xFF;
    Js.and (Js.sar addr 8) 0xFF; Js.and addr 0xFF ].

Definition progressStart (s : FlashApp) (total startValue : Z) : list event :=
  if doProgress (conf s) then [ProgressStart total startValue] else [].

Definition progressIncrement (s : FlashApp) (incr : Z) : list event :=
  if doProgress (conf s) then [ProgressIncrement incr] else [].

Definition progressStop (s : FlashApp) : list event :=
  if doProgress (conf s) then [ProgressStop] else [].

(** [Date.now() - this.flashStartTs]. *)
Definition elapsed (now : Z) (s : FlashApp) : jsnum :=
  match flashStartTs s with
  | Some t => Num (now - t)
  | None => NaN
  end.

Definition sendStartApp (s : FlashApp) : list event :=
  [ Console StartingTheApp;
    Send (to_mcu s (command_buffer s CMD_START_APP [0; 0; 0; 0])) ].

Definition sendSetFlashAddress (s : FlashApp) (addr : Z) : list event :=
  (if Args.verbose (args (conf s)) then [Console (SettingFlashAddress addr)] else [])
  ++ [ Send (to_mcu s (command_buffer s CMD_FLASH_SET_ADDRESS (addr_bytes addr))) ].

(** [Uint8Array.from(this.readDataArr)]: [undefined] becomes 0. *)
Definition Uint8Array_from (arr : list (option byte)) : list byte :=
  map (fun o => match o with Some b => b | None => x00 end) arr.

Definition readDone (now : Z) (s : FlashApp) : list event :=
  progressStop s
  ++ [ HexOutput (Uint8Array_from (readDataArr s));
       Console (ReadingDoneIn (elapsed now s)) ]
  ++ sendStartApp s.

(** The test that opens [readForVerify] and [onFlashReady]:
    [!this.memMap.get(key) || this.memMap.get(key)[idx] === undefined]. *)
Definition block_exhausted (s : FlashApp) : bool :=
  match memMap_get (memMap (conf s)) (memMapCurrentKey s) with
  | None => true
  | Some block =>
      match Js.get block (memMapCurrentDataIdx s) with
      | None => true
      | Some _ => false
      end
  end.

(** "apply new current address and set data index to 0", after
    [this.memMapKeys.next()] yielded [key] and left [rest]. *)
Definition enter_block (key : Z) (rest : list Z) (s : FlashApp) : FlashApp :=
  set_curAddr key
    (set_memMapCurrentDataIdx 0
       (set_memMapCurrentKey (Some key) (set_memMapKeys rest s))).

Definition readForVerify (now : Z) (s : FlashApp) : FlashApp * list event :=
  let request (s : FlashApp) :=
    [ Send (to_mcu s (command_buffer s CMD_FLASH_READ (addr_bytes (curAddr s)))) ] in
  if block_exhausted s then
    match memMapKeys s with
    | [] =>
        (s, progressStop s
            ++ [Console (FlashAndVerifyDoneIn (elapsed now s))]
            ++ sendStartApp s)
    | key :: rest =>
        let s' := enter_block key rest s in
        (s', request s')
    end
  else (s, request s).

(** The loop of [onFlashReady] that copies up to four image bytes into
    the buffer: [for (let i = 0; i < 4; i++)], [n] iterations left. *)
Fixpoint pack_loop (n : nat) (i : Z) (block : list byte) (idx : Z)
    (data : list byte) (dataBytes : Z) : list byte * Z :=
  match n with
  | O => (data, dataBytes)
  | S n' =>
      match Js.get block (idx + i) with
      | None => (data, dataBytes)
      | Some b =>
          pack_loop n' (i + 1) block idx
            (<[Z.to_nat (4 + i) := b]> data) (dataBytes + 1)
      end
  end.

(** The events [pre] happened, then the call [r]. *)
Definition after (pre : list event) (r : result) : result :=
  mkResult (r_app r) (pre ++ r_events r) (r_outcome r).

(** [onFlashReady] from "if (this.curAddr !== curAddrRemote)" on. *)
Definition flash_next (curAddrRemote : Z) (s : FlashApp) : result :=
  if negb (curAddr s =? curAddrRemote) then
    mkResult s
      ([Console (SettingFlashAddress (curAddr s))]
       ++ sendSetFlashAddress s (curAddr s))
      Returned
  else
    match memMap_get (memMap (conf s)) (memMapCurrentKey s) with
    | None => mkResult s [] Threw
    | Some block =>
        let data0 := command_buffer s CMD_FLASH_DATA [0; 0; 0; 0] in
        let '(data1, dataBytes) :=
          pack_loop 4 0 block (memMapCurrentDataIdx s) data0 0 in
        let data2 :=
          <[Z.to_nat CAN_DATA_BYTE_LEN_AND_ADDR :=
              Js.byte_of_Z (Js.or (Js.shl dataBytes 5) (Js.and (curAddr s) 31))]>
            data1 in
        mkResult s
          ((if Args.verbose (args (conf s))
            then [Console (SendingFlashData (curAddr s))] else [])
           ++ [Send (to_mcu s data2)])
          Returned
    end.

(** [curAddrRemote] of [onFlashReady]:
    [msgData[7] + (msgData[6] << 8) + (msgData[5] << 16) + (msgData[4] << 24)]. *)
Definition remote_address (d4 d5 d6 d7 : byte) : Z :=
  Js.u8 d7 + Js.shl (Js.u8 d6) 8 + Js.shl (Js.u8 d5) 16 + Js.shl (Js.u8 d4) 24.

(** [onFlashReady(msgData)]; of [msgData] it reads bytes 4 to 7. *)
Definition onFlashReady (d4 d5 d6 d7 : byte) (s : FlashApp) : result :=
  let curAddrRemote := remote_address d4 d5 d6 d7 in
  if block_exhausted s then
    match memMapKeys s with
    | [] =>
        let pre := progressStop s ++ [Console AllDataTransmitted] in
        if doVerify (conf s) then
          let s' := set_state STATE_READING s in
          mkResult s'
            (pre ++ [Send (to_mcu s' (command_buffer s' CMD_FLASH_DONE_VERIFY [0; 0; 0; 0]))])
            Returned
        else
          mkResult s
            (pre ++ [Send (to_mcu s (command_buffer s CMD_FLASH_DONE [0; 0; 0; 0]))])
            Returned
    | key :: rest =>
        after
          match memMapCurrentKey s with
          | None => progressStart s (memMapTotalBytes (conf s)) 0
          | Some _ => []
          end
          (flash_next curAddrRemote (enter_block key rest s))
    end
  else flash_next curAddrRemote s.

(** [exit(code)]: stop the channel and leave the process. *)
Definition exit (code : Z) (s : FlashApp) : result :=
  mkResult s [CanStop] (Exited code).

(** ** [handleCanMsg] *)

(** How the verify loop ended: ran to [i = byteCount], hit a byte that
    differs, or indexed [undefined] (no current block). *)
Inductive loop_end := LoopDone | LoopMismatch | LoopThrew.

(** [block[idx] !== msg.data[4+i]] for a defined [block[idx]]. *)
Definition differs (b : byte) (d : option byte) : bool :=
  match d with
  | Some d => negb (Js.u8 b =? Js.u8 d)
  | None => true
  end.

(** The verify loop, [for (let i = 0; i < byteCount; i++)], with [n]
    iterations left. *)
Fixpoint verify_loop (n : nat) (i : Z) (msgData : list byte) (s : FlashApp)
    : FlashApp * loop_end :=
  match n with
  | O => (s, LoopDone)
  | S n' =>
      match memMap_get (memMap (conf s)) (memMapCurrentKey s) with
      | None => (s, LoopThrew)
      | Some block =>
          let next (s : FlashApp) :=
            verify_loop n' (i + 1) msgData
              (set_memMapCurrentDataIdx (memMapCurrentDataIdx s + 1)
                 (set_curAddr (curAddr s + 1) s)) in
          match Js.get block (memMapCurrentDataIdx s) with
          | Some b =>
              if differs b (Js.get msgData (4 + i)) then (s, LoopMismatch)
              else next s
          | None => next s
          end
      end
  end.

(** The caching loop of the whole-flash read. *)
Fixpoint read_loop (n : nat) (i : Z) (msgData : list byte) (s : FlashApp) : FlashApp :=
  match n with
  | O => s
  | S n' =>
      read_loop n' (i + 1) msgData
        (set_curAddr (curAddr s + 1)
           (set_readDataArr (readDataArr s ++ [Js.get msgData (4 + i)]) s))
  end.

(** [this.args.r > 0 && this.curAddr > this.args.r]. *)
Definition reached_max (s : FlashApp) : bool :=
  match Args.r (args (conf s)) with
  | Some (Num r) => (0 <? r) && (r <? curAddr s)
  | _ => false
  end.

Definition unexpected (s : FlashApp) (cmd : Z) : result :=
  mkResult s [Console (UnexpectedMessage cmd)] Returned.

Definition handle_init (now : Z) (d4 d5 d6 d7 : byte) (cmd : Z) (s : FlashApp) : result :=
  if cmd =? CMD_BOOTLOADER_START then
    let '(s0, s1, s2) := deviceSignature (conf s) in
    if negb (Js.u8 d4 =? s0) || negb (Js.u8 d5 =? s1) || negb (Js.u8 d6 =? s2) then
      mkResult s
        [ Console SignatureMismatch;
          Console (SignatureExpected s0 s1 s2 (Js.u8 d4) (Js.u8 d5) (Js.u8 d6)) ]
        Returned
    else if negb (Js.u8 d7 =? BOOTLOADER_CMD_VERSION) && negb (Args.F (args (conf s))) then
      mkResult s [Console (VersionError (Js.u8 d7))] Returned
    else
      let warn :=
        if negb (Js.u8 d7 =? BOOTLOADER_CMD_VERSION)
        then [Console (VersionForced (Js.u8 d7))] else [] in
      let '(s', stop) :=
        match pingInterval s with
        | Some _ => (set_pingInterval None s, [Console PingStopped])
        | None => (s, [])
        end in
      let s'' := set_flashStartTs (Some now) s' in
      mkResult s''
        (warn ++ [Console EnteringFlashMode] ++ stop
         ++ [Send (to_mcu s'' (command_buffer s'' CMD_FLASH_INIT [s0; s1; s2; 0]))])
        Returned
  else if cmd =? CMD_FLASH_READY then
    if doRead (conf s) then
      mkResult s
        ([Console QueryingBootloaderSize] ++ sendSetFlashAddress s 0xFFFFFFFF)
        Returned
    else if doErase s then
      mkResult (set_doErase false s)
        [ Console ErasingFlash;
          Send (to_mcu s (command_buffer s CMD_FLASH_ERASE [0; 0; 0; 0])) ]
        Returned
    else
      after [Console BeginFlashing]
        (onFlashReady d4 d5 d6 d7 (set_state STATE_FLASHING s))
  else if cmd =? CMD_FLASH_ADDRESS_ERROR then
    if doRead (conf s) then
      let flashendBL :=
        Js.or (Js.or (Js.or (Js.shl (Js.u8 d4) 24) (Js.shl (Js.u8 d5) 16))
                     (Js.shl (Js.u8 d6) 8))
              (Js.u8 d7) in
      let progSize := flashendBL + 1 in
      let blSize := deviceFlashSize (conf s) - progSize in
      let '(warn, readSizeBytes) :=
        match Args.r (args (conf s)) with
        | Some (Num r) =>
            if r =? 0 then ([], progSize)
            else if progSize <=? r then ([Console (ReadSizeExceeds r progSize)], progSize)
            else ([], r)
        | _ => ([], progSize)
        end in
      let s' := set_state STATE_READING s in
      mkResult s'
        ([Console (BootloaderSize blSize)] ++ warn
         ++ progressStart s readSizeBytes 0
         ++ [Send (to_mcu s' (command_buffer s' CMD_FLASH_READ [0; 0; 0; 0]))])
        Returned
    else
      mkResult s [Console UnexpectedAddressErrorInInit] Returned
  else unexpected s cmd.

Definition handle_flashing (now : Z) (d3 d4 d5 d6 d7 : byte) (cmd : Z) (s : FlashApp) : result :=
  if cmd =? CMD_FLASH_DATA_ERROR then
    mkResult s [Console FlashDataError; Console CanBusIssues] Returned
  else if cmd =? CMD_FLASH_ADDRESS_ERROR then
    mkResult s [Console FlashAddressError; Console HexFileHint] Returned
  else if cmd =? CMD_FLASH_READY then
    let byteCount := Js.sar (Js.u8 d3) 5 in
    after (progressIncrement s byteCount)
      (onFlashReady d4 d5 d6 d7
         (set_memMapCurrentDataIdx (memMapCurrentDataIdx s + byteCount)
            (set_curAddr (curAddr s + byteCount) s)))
  else if cmd =? CMD_START_APP then
    after [Console (FlashDoneIn (elapsed now s)); Console McuStartingApp] (exit 0 s)
  else unexpected s cmd.

(** The guard of the address check in the [CMD_FLASH_READ_DATA] case,
    [this.curAddr & 0b00011111 !== addrPart], as JavaScript parses it:
    [!==] binds tighter than [&]. *)
Definition read_address_guard (s : FlashApp) (addrPart : Z) : bool :=
  negb (Js.and (curAddr s) (Js.of_bool (negb (31 =? addrPart))) =? 0).

Definition handle_reading (now : Z) (msgData : list byte) (d3 : byte) (cmd : Z)
    (s : FlashApp) : result :=
  if cmd =? CMD_FLASH_DONE_VERIFY then
    let s' :=
      set_memMapCurrentDataIdx 0
        (set_memMapCurrentKey None
           (set_memMapKeys (MemoryMap_keys (memMap (conf s))) s)) in
    let '(s'', evs) := readForVerify now s' in
    mkResult s''
      ([Console StartReadingToVerify]
       ++ progressStart s (memMapTotalBytes (conf s)) 0 ++ evs)
      Returned
  else if cmd =? CMD_FLASH_READ_DATA then
    let byteCount := Js.sar (Js.u8 d3) 5 in
    let addrPart := Js.and (Js.u8 d3) 31 in
    if read_address_guard s addrPart then
      mkResult s
        ([Console UnexpectedReadAddress; Console WillAbort] ++ sendStartApp s)
        Returned
    else
      let pre :=
        (if Args.verbose (args (conf s))
         then [Console (GotFlashDataFor (curAddr s))] else [])
        ++ progressIncrement s byteCount in
      if doVerify (conf s) then
        match verify_loop (Z.to_nat byteCount) 0 msgData s with
        | (s', LoopMismatch) =>
            mkResult s'
              (pre ++ [Console (VerifyFailedAt (curAddr s')); Console TryingToStartAnyway]
                   ++ sendStartApp s')
              Returned
        | (s', LoopThrew) => mkResult s' pre Threw
        | (s', LoopDone) =>
            let '(s'', evs) := readForVerify now s' in
            mkResult s'' (pre ++ evs) Returned
        end
      else
        let s' := read_loop (Z.to_nat byteCount) 0 msgData s in
        if reached_max s' then
          mkResult s' (pre ++ readDone now s') Returned
        else
          mkResult s'
            (pre ++ [Send (to_mcu s' (command_buffer s' CMD_FLASH_READ
                                        (addr_bytes (curAddr s'))))])
            Returned
  else if cmd =? CMD_FLASH_READ_ADDRESS_ERROR then
    if doVerify (conf s) then
      mkResult s ([Console ReadFailedDuringVerify] ++ sendStartApp s) Returned
    else
      mkResult s (readDone now s) Returned
  else if cmd =? CMD_START_APP then
    after [Console McuStartingApp] (exit 0 s)
  else unexpected s cmd.

(** [handleCanMsg(msg)], called at clock reading [now]. The three
    guards come first: eight data bytes, the MCU-to-remote id, the MCU
    id in bytes 0 and 1. *)
Definition handleCanMsg (now : Z) (msg : can_msg) (s : FlashApp) : result :=
  match msg_data msg with
  | [d0; d1; d2; d3; d4; d5; d6; d7] =>
      if negb (msg_id msg =? Args.canIdMcu (args (conf s))) then mkResult s [] Returned
      else
        let mcuid := Js.u8 d1 + Js.shl (Js.u8 d0) 8 in
        if negb (mcuid =? Args.mcuid (args (conf s))) then mkResult s [] Returned
        else
          let cmd := Js.u8 d2 in
          match state s with
          | STATE_INIT => handle_init now d4 d5 d6 d7 cmd s
          | STATE_FLASHING => handle_flashing now d3 d4 d5 d6 d7 cmd s
          | STATE_READING => handle_reading now (msg_data msg) d3 cmd s
          end
  | _ => mkResult s [] Returned
  end.

(** ** The timer, the constructor and whole sessions *)

(** The callback of [setInterval]; it runs only while the timer has not
    been cleared. *)
Definition ping_tick (s : FlashApp) : result :=
  match pingInterval s with
  | Some _ =>
      mkResult s
        [Send (to_mcu s (Js.Buffer_from
                 [fst (mcuId (conf s)); snd (mcuId (conf s)); CMD_PING; 0; 0; 0; 0; 0]))]
        Returned
  | None => mkResult s [] Returned
  end.

(** What the event loop delivers: a CAN message at a clock reading, or
    a tick of the ping timer. *)
Inductive input := Recv (now : Z) (msg : can_msg) | Tick.

Definition step (i : input) (s : FlashApp) : result :=
  match i with
  | Recv now msg => handleCanMsg now msg s
  | Tick => ping_tick s
  end.

(** A session: the inputs are handled in order until the process exits
    or an exception escapes a handler. *)
Fixpoint run (inputs : list input) (s : FlashApp) : result :=
  match inputs with
  | [] => mkResult s [] Returned
  | i :: rest =>
      let r := step i s in
      match r_outcome r with
      | Returned => after (r_events r) (run rest (r_app r))
      | _ => r
      end
  end.

(** The fields the constructor sets, from the parsed arguments, the
    device entry and the memory map (empty when reading). *)
Definition new_FlashApp (a : Args.t) (signature : Z * Z * Z) (flashSize : Z)
    (image : MemoryMap) : FlashApp :=
  let rd := match Args.r a with Some _ => true | None => false end in
  let mm := if rd then [] else image in
  mkFlashApp
    (mkConfig a
       (Js.and (Js.sar (Args.mcuid a) 8) 0xFF, Js.and (Args.mcuid a) 0xFF)
       rd
       (if rd then false else negb (Args.V a))
       (negb (Args.verbose a))
       signature flashSize mm
       (fold_left (fun total block => total + Z.of_nat (length block)) (map snd mm) 0))
    STATE_INIT
    (Args.e a)
    (MemoryMap_keys mm)
    None 0 0 []
    (match Args.ping a with
     | Some ms => if ms =? 0 then None else Some ms
     | None => None
     end)
    None.

(** * Notions used by the properties *)

(** ** Big-endian addresses *)

(** The unsigned big-endian value of four payload bytes. *)
Definition be32 (d4 d5 d6 d7 : byte) : Z :=
  Js.u8 d4 * 2 ^ 24 + Js.u8 d5 * 2 ^ 16 + Js.u8 d6 * 2 ^ 8 + Js.u8 d7.

(** The four big-endian bytes of the low 32 bits of an address. *)
Definition be32_bytes (addr : Z) : list Z :=
  [ (addr / 2 ^ 24) mod 256; (addr / 2 ^ 16) mod 256;
    (addr / 2 ^ 8) mod 256; addr mod 256 ].

(** The top byte read as a signed number. *)
Definition signed_byte (d : byte) : Z :=
  if Js.u8 d <? 128 then Js.u8 d else Js.u8 d - 256.

(** ** Frames and chunks *)

(** The image bytes a write chunk carries: up to four bytes of the
    block from the cursor on. *)
Definition chunk_at (block : list byte) (idx : Z) : list byte :=
  if idx <? 0 then [] else take 4 (drop (Z.to_nat idx) block).

(** The commands of the frames built with a constant command byte. *)
Definition control_commands : list Z :=
  [ CMD_FLASH_INIT; CMD_FLASH_SET_ADDRESS; CMD_FLASH_ERASE; CMD_FLASH_READ;
    CMD_FLASH_DONE; CMD_FLASH_DONE_VERIFY; CMD_START_APP ].

Definition control_frame (f : frame) : Prop :=
  exists c, frame_cmd f = Some c /\ In c control_commands.

(** Every frame among the events is a control frame: none is a
    [FLASH_DATA] frame, none a [PING]. *)
Definition quiet (evs : list event) : Prop := Forall control_frame (sent evs).

(** The data frame [f] carries, after the MCU id and the command, the
    fragment byte [(n << 5) | (curAddr & 0x1F)], the [n] image bytes at
    the cursor of [s] and zeros, [n] at most 4. *)
Definition data_frame_packed (s : FlashApp) (f : frame) : Prop :=
  exists block,
    memMap_get (memMap (conf s)) (memMapCurrentKey s) = Some block
    /\ let chunk := chunk_at block (memMapCurrentDataIdx s) in
       let n := length chunk in
       (n <= 4)%nat
       /\ Js.get (map Js.u8 (data f)) CAN_DATA_BYTE_LEN_AND_ADDR
          = Some (Z.lor (Z.shiftl (Z.of_nat n) 5) (Z.land (curAddr s) 31))
       /\ map Js.u8 (drop 4 (data f)) = map Js.u8 chunk ++ repeat 0 (4 - n).

(** Every frame of a call is a control frame or a [FLASH_DATA] frame
    packed from the state the call leaves. *)
Definition packed_ok (r : result) : Prop :=
  forall f, In f (sent (r_events r)) ->
    control_frame f
    \/ (frame_cmd f = Some CMD_FLASH_DATA /\ data_frame_packed (r_app r) f).

Create HintDb frames.

(** The address of the next image byte when [onFlashReady] is entered:
    the cursor, or the start of the next block when the current block
    has no byte left; [None] when the image is exhausted. *)
Definition next_chunk_address (s : FlashApp) : option Z :=
  if block_exhausted s then hd_error (memMapKeys s) else Some (curAddr s).

(** ** Read buffer *)

(** What the caching loop pushes for a count [n] from a payload whose
    bytes 4..7 are [d4 .. d7]: the delivered bytes, then [undefined]
    for every index past the payload. *)
Definition pushed (d4 d5 d6 d7 : byte) (n : nat) : list (option byte) :=
  map Some (take n [d4; d5; d6; d7]) ++ repeat None (n - 4).

(** What holds of the object throughout a read-mode session with
    configuration [c]: the configuration stays, the state is never
    Flashing, and the read buffer has one entry per address read. *)
Definition read_inv (c : Config) (s : FlashApp) : Prop :=
  conf s = c
  /\ state s <> STATE_FLASHING
  /\ Z.of_nat (length (readDataArr s)) = curAddr s.

(** The blocks [readDone] wrote out, in order. *)
Definition hex_outputs (evs : list event) : list (list byte) :=
  omap (fun ev => match ev with HexOutput b => Some b | _ => None end) evs.

(** ** Verify failures *)

(** No event reports a verify failure. *)
Definition calm (evs : list event) : Prop :=
  forall a, ~ In (Console (VerifyFailedAt a)) evs.

(** The addresses at which verify failures were reported, in order. *)
Definition verify_failures (evs : list event) : list Z :=
  omap (fun ev => match ev with Console (VerifyFailedAt a) => Some a | _ => None end) evs.


(** ** Sample sessions *)

Module Sample.

(** [-p m328p -m 0x0042], default CAN ids, ping every 75 ms. *)
Definition flash_args : Args.t :=
  Args.mk 0x42 false false None false
    CAN_ID_MCU_TO_REMOTE_DEFAULT CAN_ID_REMOTE_TO_MCU_DEFAULT false (Some 75) false.

Definition m328p : Z * Z * Z := (0x1E, 0x95, 0x0F).

Definition image : MemoryMap := [(0, Js.Buffer_from [0xAA; 0xBB; 0xCC; 0xDD])].

Definition flash_app : FlashApp := new_FlashApp flash_args m328p (32 * 1024) image.

(** The same with [-r 10]: read mode with a maximum address. *)
Definition read_args : Args.t :=
  Args.mk 0x42 false false (Some (Num 10)) false
    CAN_ID_MCU_TO_REMOTE_DEFAULT CAN_ID_REMOTE_TO_MCU_DEFAULT false None false.

Definition read_app : FlashApp := new_FlashApp read_args m328p (32 * 1024) [].

(** An image of two blocks, and the session once the first
    [FLASH_READY] has been answered with the first data frame. *)
Definition jump_image : MemoryMap :=
  [ (0x0000, Js.Buffer_from [0x01; 0x02; 0x03; 0x04]);
    (0x0100, Js.Buffer_from [0x05]) ].

Definition jump_app : FlashApp := new_FlashApp flash_args m328p (32 * 1024) jump_image.

Definition jump_flashing : FlashApp :=
  r_app (handleCanMsg 0
           (mkMsg CAN_ID_MCU_TO_REMOTE_DEFAULT
              (Js.Buffer_from [0x00; 0x42; 0x04; 0x00; 0x00; 0x00; 0x00; 0x00]))
           jump_app).

(** The read session once the bootloader boundary is known: state
    Reading, current address 0. *)
Definition reading_app : FlashApp :=
  r_app (handleCanMsg 0
           (mkMsg CAN_ID_MCU_TO_REMOTE_DEFAULT
              (Js.Buffer_from [0x00; 0x42; 0x0B; 0x00; 0x00; 0x00; 0x77; 0xFF]))
           read_app).

(** The flash session of [image] at the start of its verify pass:
    the image was written, the MCU answered [FLASH_DONE_VERIFY], and
    the first [FLASH_READ] is out. *)
Definition verifying_app : FlashApp :=
  r_app (run [ Recv 0 (mkMsg CAN_ID_MCU_TO_REMOTE_DEFAULT
                         (Js.Buffer_from [0x00; 0x42; 0x04; 0x00; 0; 0; 0; 0]));
               Recv 0 (mkMsg CAN_ID_MCU_TO_REMOTE_DEFAULT
                         (Js.Buffer_from [0x00; 0x42; 0x04; 0x80; 0; 0; 0; 4]));
               Recv 0 (mkMsg CAN_ID_MCU_TO_REMOTE_DEFAULT
                         (Js.Buffer_from [0x00; 0x42; 0x50; 0x00; 0; 0; 0; 0])) ]
           flash_app).

(** A message from the MCU with id [0x0042]. *)
Definition from_mcu (cmd frag : Z) (p : list Z) : can_msg :=
  mkMsg CAN_ID_MCU_TO_REMOTE_DEFAULT (Js.Buffer_from ([0x00; 0x42; cmd; frag] ++ p)).

End Sample.

(** * Further notions: the frames of a handler call *)

(** The frame [f] is addressed as the session [s] addresses its frames:
    the remote-to-MCU id, the frame format of the arguments, no remote
    transmission request, eight data bytes, the MCU id in bytes 0..1. *)
Definition well_formed_frame (s : FlashApp) (f : frame) : Prop :=
  id f = Args.canIdRemote (args (conf s))
  /\ ext f = negb (Args.sff (args (conf s)))
  /\ rtr f = false
  /\ length (data f) = 8%nat
  /\ map Js.u8 (take 2 (data f))
     = [fst (mcuId (conf s)) mod 256; snd (mcuId (conf s)) mod 256].

(** The write step [onFlashReady] runs from Flashing, or from Init when
    neither reading nor erasing is pending. *)
Definition from_write_step (s : FlashApp) : Prop :=
  state s = STATE_FLASHING
  \/ (state s = STATE_INIT /\ doRead (conf s) = false /\ doErase s = false).

(** Where a frame with command [c] can come from, for a call that
    started in [s] and left [s']. *)
Definition command_origin (s s' : FlashApp) (c : Z) : Prop :=
  (c = CMD_FLASH_INIT /\ state s = STATE_INIT /\ state s' = STATE_INIT)
  \/ (c = CMD_FLASH_ERASE /\ state s = STATE_INIT /\ state s' = STATE_INIT
      /\ doRead (conf s) = false /\ doErase s = true /\ doErase s' = false)
  \/ (c = CMD_FLASH_SET_ADDRESS
      /\ ((state s = STATE_INIT /\ state s' = STATE_INIT /\ doRead (conf s) = true)
          \/ (from_write_step s /\ state s' = STATE_FLASHING)))
  \/ (c = CMD_FLASH_DATA /\ from_write_step s /\ state s' = STATE_FLASHING)
  \/ (c = CMD_FLASH_DONE /\ from_write_step s /\ state s' = STATE_FLASHING
      /\ doVerify (conf s) = false)
  \/ (c = CMD_FLASH_DONE_VERIFY /\ from_write_step s /\ state s' = STATE_READING
      /\ doVerify (conf s) = true)
  \/ (c = CMD_FLASH_READ /\ state s' = STATE_READING
      /\ ((state s = STATE_INIT /\ doRead (conf s) = true) \/ state s = STATE_READING))
  \/ (c = CMD_START_APP /\ state s = STATE_READING /\ state s' = STATE_READING).

(** The order of the session states: Init, Flashing, Reading. *)
Definition state_rank (st : session_state) : Z :=
  match st with
  | STATE_INIT => 0
  | STATE_FLASHING => 1
  | STATE_READING => 2
  end.

(** What every call of the message handler keeps: the configuration; an
    erase flag that is never raised; a state that never goes back; at
    most one frame, well formed and of a command that fits the
    states. *)
Definition call_facts (s : FlashApp) (r : result) : Prop :=
  conf (r_app r) = conf s
  /\ (doErase (r_app r) = true -> doErase s = true)
  /\ state_rank (state s) <= state_rank (state (r_app r))
  /\ (sent (r_events r) = []
      \/ exists f c,
           sent (r_events r) = [f]
           /\ well_formed_frame s f
           /\ frame_cmd f = Some c
           /\ command_origin s (r_app r) c).

(** The frame has command [c] in byte 2. *)
Definition is_command (c : Z) (f : frame) : bool :=
  match frame_cmd f with
  | Some c' => c' =? c
  | None => false
  end.

(** The commands a state has a case for. *)
Definition handled_commands (st : session_state) : list Z :=
  match st with
  | STATE_INIT => [CMD_BOOTLOADER_START; CMD_FLASH_READY; CMD_FLASH_ADDRESS_ERROR]
  | STATE_FLASHING =>
      [CMD_FLASH_DATA_ERROR; CMD_FLASH_ADDRESS_ERROR; CMD_FLASH_READY; CMD_START_APP]
  | STATE_READING =>
      [CMD_FLASH_DONE_VERIFY; CMD_FLASH_READ_DATA; CMD_FLASH_READ_ADDRESS_ERROR;
       CMD_START_APP]
  end.

(** The image byte at the cursor plus [k], when the block has one, is
    the byte the frame delivers at payload index [4 + i + k]. *)
Definition delivered (block msgData : list byte) (idx i k : Z) : Prop :=
  forall b, Js.get block (idx + k) = Some b -> Js.get msgData (4 + (i + k)) = Some b.

(** * Further notions: a target that acknowledges *)

(** A [FLASH_READY] frame as the target of the session with arguments
    [a] sends it: [count] bytes written, its flash address [remote];
    the fields are encoded as the host encodes them. *)
Definition flash_ready_msg (a : Args.t) (count remote : Z) : can_msg :=
  mkMsg (Args.canIdMcu a)
    (Js.Buffer_from
       ([ Js.and (Js.sar (Args.mcuid a) 8) 0xFF; Js.and (Args.mcuid a) 0xFF;
          CMD_FLASH_READY; Js.or (Js.shl count 5) (Js.and remote 31) ]
        ++ addr_bytes remote)).

(** The acknowledgements of a target that takes every data frame: with
    [remaining] image bytes still to acknowledge from address [addr]
    on, one [FLASH_READY] per chunk of up to four bytes, each reporting
    the size of the chunk and the address after it. [fuel] bounds the
    number of frames. *)
Fixpoint target_acks (fuel : nat) (a : Args.t) (addr : Z) (remaining : nat)
    : list input :=
  match fuel with
  | O => []
  | S fuel' =>
      match remaining with
      | O => []
      | _ =>
          let n := Nat.min 4 remaining in
          Recv 0 (flash_ready_msg a (Z.of_nat n) (addr + Z.of_nat n))
          :: target_acks fuel' a (addr + Z.of_nat n) (remaining - n)
      end
  end.

(** The image bytes of a data frame, as its receiver decodes them: the
    count in bits 7..5 of byte 3, that many bytes from byte 4 on. *)
Definition data_payload (f : frame) : list byte :=
  match Js.get (data f) CAN_DATA_BYTE_LEN_AND_ADDR with
  | Some d3 => take (Z.to_nat (Js.sar (Js.u8 d3) 5)) (drop 4 (data f))
  | None => []
  end.

(** The session is in Flashing inside the only block of its image
    (start [A]), [i] bytes done, with configuration [c]. *)
Definition writing_at (c : Config) (A : Z) (i : nat) (s : FlashApp) : Prop :=
  conf s = c
  /\ state s = STATE_FLASHING
  /\ memMapKeys s = []
  /\ memMapCurrentKey s = Some A
  /\ memMapCurrentDataIdx s = Z.of_nat i
  /\ curAddr s = A + Z.of_nat i.

(** The frame that ends the write pass and the state it leaves: with
    [-V], [FLASH_DONE] in Flashing; else [FLASH_DONE_VERIFY] and
    Reading. *)
Definition closing_command (a : Args.t) : Z :=
  if Args.V a then CMD_FLASH_DONE else CMD_FLASH_DONE_VERIFY.

Definition closing_state (a : Args.t) : session_state :=
  if Args.V a then STATE_FLASHING else STATE_READING.

(** * The device catalog and the number helpers *)

(** A [case] group of a [switch] on a string. *)
Definition is_case (partno : String.string) (labels : list String.string) : bool :=
  existsb (String.eqb partno) labels.

(** [toLowerCase] on one ASCII character. *)
Definition lower (ch : Ascii.ascii) : Ascii.ascii :=
  let n := Ascii.nat_of_ascii ch in
  if (65 <=? n)%nat && (n <=? 90)%nat then Ascii.ascii_of_nat (n + 32) else ch.

(** [s.toLowerCase()] for a string of ASCII characters. *)
Fixpoint toLowerCase (s : String.string) : String.string :=
  match s with
  | String.EmptyString => String.EmptyString
  | String.String ch s' => String.String (lower ch) (toLowerCase s')
  end.

(** The [switch (partno)] of [loadDeviceInfo]; the result is
    [(this.deviceSignature, this.deviceFlashSize)]. *)
Definition device_switch (partno : String.string) : (Z * Z * Z) * Z :=
  if is_case partno ["m32"; "mega32"; "atmega32"]%string then
    ((0x1E, 0x95, 0x02), 32 * 1024)
  else if is_case partno ["m32u4"; "mega32u4"; "atmega32u4"]%string then
    ((0x1E, 0x95, 0x87), 32 * 1024)
  else if is_case partno ["m328"; "mega328"; "atmega328"]%string then
    ((0x1E, 0x95, 0x14), 32 * 1024)
  else if is_case partno ["m328p"; "mega328p"; "atmega328p"]%string then
    ((0x1E, 0x95, 0x0F), 32 * 1024)
  else if is_case partno ["m328pb"; "mega328pb"; "atmega328pb"]%string then
    ((0x1E, 0x95, 0x16), 32 * 1024)
  else if is_case partno ["m64"; "mega64"; "atmega64"]%string then
    ((0x1E, 0x96, 0x02), 64 * 1024)
  else if is_case partno ["m644p"; "mega644p"; "atmega644p"]%string then
    ((0x1E, 0x96, 0x0A), 64 * 1024)
  else if is_case partno ["m128"; "mega128"; "atmega128"]%string then
    ((0x1E, 0x97, 0x02), 128 * 1024)
  else if is_case partno ["m1284p"; "mega1284p"; "atmega1284p"]%string then
    ((0x1E, 0x97, 0x05), 128 * 1024)
  else if is_case partno ["m2560"; "mega2560"; "atmega2560"]%string then
    ((0x1E, 0x98, 0x01), 256 * 1024)
  else
    ((0, 0, 0), 0 * 1024).

(** [loadDeviceInfo(partno)]: [partno = partno.toLowerCase()], then the
    switch. *)
Definition loadDeviceInfo (partno : String.string) : (Z * Z * Z) * Z :=
  let partno := toLowerCase partno in
  device_switch partno.

(** [num.toString(16)] for an integral number. *)
Definition toString16 (num : Z) : String.string :=
  match num with
  | Z0 => "0"%string
  | Zpos p => HexString.Raw.of_pos p ""%string
  | Zneg p => String.String "-"%char (HexString.Raw.of_pos p ""%string)
  end.

(** [toUpperCase] on one ASCII character. *)
Definition upper (ch : Ascii.ascii) : Ascii.ascii :=
  let n := Ascii.nat_of_ascii ch in
  if (97 <=? n)%nat && (n <=? 122)%nat then Ascii.ascii_of_nat (n - 32) else ch.

(** [s.toUpperCase()] for a string of ASCII characters. *)
Fixpoint toUpperCase (s : String.string) : String.string :=
  match s with
  | String.EmptyString => String.EmptyString
  | String.String ch s' => String.String (upper ch) (toUpperCase s')
  end.

(** [hexString(num, minLength)]; [None] is an omitted [minLength]. *)
Definition hexString (num : Z) (minLength : option Z) : String.string :=
  let hex := toString16 num in
  let hex :=
    if Nat.eqb (String.length hex mod 2) 0 then hex
    else String.String "0"%char hex in
  let hex :=
    match minLength with
    | Some m =>
        Nat.iter (Z.to_nat (m - Z.of_nat (String.length hex)))
          (String.String "0"%char) hex
    | None => hex
    end in
  String.append "0x"%string (toUpperCase hex).

(** ** Strings as UTF-16 code units, [parseInt], [parseNumber] *)

(** The code units of a string of ASCII characters. *)
Definition units (s : String.string) : list N :=
  map Ascii.N_of_ascii (String.list_ascii_of_string s).

(** The code units that [parseInt] skips at the start of its input:
    white space and line terminators. *)
Definition is_white_space (u : N) : bool :=
  existsb (N.eqb u)
    [ 0x0009; 0x000A; 0x000B; 0x000C; 0x000D; 0x0020; 0x00A0; 0x1680;
      0x2000; 0x2001; 0x2002; 0x2003; 0x2004; 0x2005; 0x2006; 0x2007;
      0x2008; 0x2009; 0x200A; 0x2028; 0x2029; 0x202F; 0x205F; 0x3000;
      0xFEFF ]%N.

(** The line terminators, which [.] does not match in a regular
    expression. *)
Definition is_line_terminator (u : N) : bool :=
  existsb (N.eqb u) [0x000A; 0x000D; 0x2028; 0x2029]%N.

Fixpoint trim_start (s : list N) : list N :=
  match s with
  | u :: s' => if is_white_space u then trim_start s' else s
  | [] => []
  end.

(** The value of a digit or letter, in either case. *)
Definition digit_value (u : N) : option N :=
  if (48 <=? u)%N && (u <=? 57)%N then Some (u - 48)%N
  else if (97 <=? u)%N && (u <=? 122)%N then Some (u - 87)%N
  else if (65 <=? u)%N && (u <=? 90)%N then Some (u - 55)%N
  else None.

Definition radix_digit (radix u : N) : option N :=
  match digit_value u with
  | Some v => if (v <? radix)%N then Some v else None
  | None => None
  end.

(** The number written by the longest prefix of radix digits, [acc]
    being the value of the [seen] digits before; [None] when there is
    no digit. *)
Fixpoint parse_digits (radix : N) (s : list N) (acc : N) (seen : bool) : option N :=
  match s with
  | u :: s' =>
      match radix_digit radix u with
      | Some v => parse_digits radix s' (v + radix * acc)%N true
      | None => if seen then Some acc else None
      end
  | [] => if seen then Some acc else None
  end.

(** A number as [parseInt] returns it: [NaN], an integer, or a number
    beyond 2^53 in magnitude, where a double no longer holds every
    integer and this model does not follow its value. *)
Inductive number := NotANumber | Int (z : Z) | Imprecise.

(** The sign in front of the digits. *)
Definition strip_sign (s : list N) : Z * list N :=
  match s with
  | 45%N :: s' => (-1, s')
  | 43%N :: s' => (1, s')
  | _ => (1, s)
  end.

(** With radix 16 a leading [0x] or [0X] is removed. *)
Definition strip_prefix (radix : N) (s : list N) : list N :=
  if (radix =? 16)%N then
    match s with
    | 48%N :: 120%N :: s' => s'
    | 48%N :: 88%N :: s' => s'
    | _ => s
    end
  else s.

(** [parseInt(string, radix)] for a radix from 2 to 36; the source
    calls it with 10 and 16. *)
Definition parseInt (string : list N) (radix : N) : number :=
  let '(sign, str) := strip_sign (trim_start string) in
  match parse_digits radix (strip_prefix radix str) 0 false with
  | None => NotANumber
  | Some v => if (v <=? 2 ^ 53)%N then Int (sign * Z.of_N v) else Imprecise
  end.

(** What yargs hands to [coerce]: the string of the command line, or a
    number (a default). *)
Inductive argval := ArgString (s : list N) | ArgNumber (n : number).

(** [val.startsWith('0x')]. *)
Definition startsWith_0x (s : list N) : bool :=
  match s with
  | 48%N :: 120%N :: _ => true
  | _ => false
  end.

Definition parseNumber (val : argval) : number :=
  match val with
  | ArgString s => parseInt s (if startsWith_0x s then 16 else 10)%N
  | ArgNumber n => n
  end.

(** ** The reset message of the constructor *)

(** [s.split('#')], its first element and what follows the first
    separator, if there is one. *)
Fixpoint split_hash (s : list N) : list N * option (list N) :=
  match s with
  | [] => ([], None)
  | u :: s' =>
      if (u =? 35)%N then ([], Some s')
      else let '(first, rest) := split_hash s' in (u :: first, rest)
  end.

(** [dataStr.match(/../g)]: the successive pairs of code units that are
    not line terminators; the empty list stands for [null]. *)
Fixpoint match_pairs (s : list N) : list (list N) :=
  match s with
  | u :: tl =>
      match tl with
      | v :: rest =>
          if negb (is_line_terminator u) && negb (is_line_terminator v)
          then [u; v] :: match_pairs rest
          else match_pairs tl
      | [] => []
      end
  | [] => []
  end.

(** The callback of [map]: the bytes parsed so far, or [None] once a
    pair is not a number and the callback calls [exit(1)]. A pair has
    two code units, so its number is an integer. *)
Fixpoint reset_data (pairs : list (list N)) : option (list Z) :=
  match pairs with
  | [] => Some []
  | d :: pairs' =>
      match parseInt d 16 with
      | NotANumber => None
      | Int n => cons n <$> reset_data pairs'
      | Imprecise => cons 0 <$> reset_data pairs'
      end
  end.

(** How the reset step of the constructor ends: no reset message asked
    for, the message given to [can.send], [exit(code)], or a
    [TypeError] ([null.map]). *)
Inductive reset_outcome :=
| NoReset
| ResetSent (f : frame)
| ResetExit (code : Z)
| ResetTypeError.

(** The body of "send can message to reset the mcu?". When the id is
    used its string has 3 or 8 code units, so it is an integer. *)
Definition send_reset (reset : list N) : reset_outcome :=
  let '(canIdStr, rest) := split_hash reset in
  let dataStr := fst <$> (split_hash <$> rest) in
  let canId := parseInt canIdStr 16 in
  if (negb (length canIdStr =? 3)%nat && negb (length canIdStr =? 8)%nat)
     || match canId with NotANumber => true | _ => false end
  then ResetExit 1
  else
    let id := match canId with Int z => z | _ => 0 end in
    let send (data : list Z) :=
      ResetSent (mkFrame id (3 <? length canIdStr)%nat false (Js.Buffer_from data)) in
    match dataStr with
    | None | Some [] => send []
    | Some dataStr =>
        match match_pairs dataStr with
        | [] => ResetTypeError
        | pairs =>
            match reset_data pairs with
            | None => ResetExit 1
            | Some data => send data
            end
        end
    end.

(** [if (this.args.reset) { ... }]: an absent or empty option sends
    nothing. *)
Definition reset_message (reset : option (list N)) : reset_outcome :=
  match reset with
  | None | Some [] => NoReset
  | Some reset => send_reset reset
  end.

(** A number below [16 ^ width] written with [width] upper-case
    hexadecimal digits, as code units. *)
Definition hex_digit (v : N) : N :=
  if (v <? 10)%N then (48 + v)%N else (55 + v)%N.

Fixpoint hex_fixed (width : nat) (n : N) : list N :=
  match width with
  | O => []
  | S w => hex_fixed w (n / 16)%N ++ [hex_digit (n mod 16)%N]
  end.

(** ** [can-factory.js]: the choice of the PCAN device on Windows *)

(** An entry of [this.can.list()]. *)
Record device := mkDevice {
  device_name : String.string;
  device_id : Z;
  path : String.string
}.

(** The two errors [open] throws itself. *)
Inductive open_error :=
| NoDevicesFound
| DeviceNotFound (name : String.string).

(** [CanInterfaceWindows.open] up to its call of [this.can.open]: the
    device whose path is opened, or the error thrown. An [iface] that is
    undefined or empty is falsy. *)
Definition CanInterfaceWindows_open (iface : option String.string)
    (devices : list device) : open_error + device :=
  match devices with
  | [] => inl NoDevicesFound
  | first :: _ =>
      match iface with
      | None | Some String.EmptyString => inr first
      | Some name =>
          match List.find (fun d => String.eqb (device_name d) name) devices with
          | Some d => inr d
          | None => inl (DeviceNotFound name)
          end
      end
  end.

(** * Properties *)

(** ** Bytes *)

Lemma u8_range b : 0 <= Js.u8 b < 256.
Proof.
  unfold Js.u8. pose proof (Byte.to_N_bounded b). lia.
Qed.

Lemma u8_byte_of_Z z : Js.u8 (Js.byte_of_Z z) = z mod 256.
Proof.
  unfold Js.u8, Js.byte_of_Z.
  pose proof (Z.mod_pos_bound z 256 ltac:(lia)) as Hm.
  destruct (Byte.of_N (Z.to_N (z mod 256))) as [b|] eqn:E.
  - apply Byte.to_of_N in E. rewrite E. lia.
  - apply Byte.of_N_None_iff in E. lia.
Qed.

(** ** Arithmetic of the JavaScript operators *)

Section JsArith.

Lemma to_int32_small z : - 2 ^ 31 <= z < 2 ^ 31 -> Js.to_int32 z = z.
Proof.
  intros H. unfold Js.to_int32. rewrite Z.mod_small; lia.
Qed.

Lemma to_int32_range z : - 2 ^ 31 <= Js.to_int32 z < 2 ^ 31.
Proof.
  unfold Js.to_int32.
  pose proof (Z.mod_pos_bound (z + 2 ^ 31) (2 ^ 32) ltac:(lia)). lia.
Qed.

(** [ToInt32] keeps the residue modulo any power of two up to 2^32. *)
Lemma to_int32_mod z k : 0 <= k <= 32 -> Js.to_int32 z mod 2 ^ k = z mod 2 ^ k.
Proof.
  intros Hk. unfold Js.to_int32.
  assert (Hd : (2 ^ k | 2 ^ 32)).
  { exists (2 ^ (32 - k)). rewrite <- Z.pow_add_r by lia. f_equal. lia. }
  rewrite Zminus_mod, Z.mod_mod_divide, <- Zminus_mod by exact Hd.
  f_equal. lia.
Qed.

Lemma and_low_bits z k :
  0 <= k < 31 -> Js.and z (2 ^ k - 1) = z mod 2 ^ k.
Proof.
  intros Hk. unfold Js.and.
  assert (0 < 2 ^ k <= 2 ^ 30).
  { split; [apply Z.pow_pos_nonneg; lia|apply Z.pow_le_mono_r; lia]. }
  rewrite (to_int32_small (2 ^ k - 1)) by lia.
  replace (2 ^ k - 1) with (Z.ones k) by (rewrite Z.ones_equiv; lia).
  rewrite Z.land_ones by lia.
  apply to_int32_mod. lia.
Qed.

Lemma and_31 z : Js.and z 31 = z mod 32.
Proof. apply (and_low_bits z 5). lia. Qed.

Lemma and_255 z : Js.and z 255 = z mod 256.
Proof. apply (and_low_bits z 8). lia. Qed.

Lemma sar_small z n :
  - 2 ^ 31 <= z < 2 ^ 31 -> 0 <= n < 32 -> Js.sar z n = z / 2 ^ n.
Proof.
  intros Hz Hn. unfold Js.sar.
  rewrite to_int32_small, Z.mod_small, Z.shiftr_div_pow2 by lia. reflexivity.
Qed.

Lemma shl_small z n :
  0 <= n < 32 -> - 2 ^ 31 <= z * 2 ^ n < 2 ^ 31 -> Js.shl z n = z * 2 ^ n.
Proof.
  intros Hn Hz. unfold Js.shl.
  assert (1 <= 2 ^ n) by (apply (Z.pow_le_mono_r 2 0 n); lia).
  rewrite (to_int32_small z) by nia.
  rewrite Z.mod_small, Z.shiftl_mul_pow2 by lia.
  apply to_int32_small. lia.
Qed.

(** The count and the address part of a fragment byte. *)
Lemma byteCount_eq b : Js.sar (Js.u8 b) 5 = Js.u8 b / 32.
Proof.
  pose proof (u8_range b). rewrite sar_small by lia. reflexivity.
Qed.

Lemma byteCount_range b : 0 <= Js.sar (Js.u8 b) 5 <= 7.
Proof.
  rewrite byteCount_eq. pose proof (u8_range b).
  split; [apply Z.div_pos; lia|].
  apply Z.lt_succ_r. apply Z.div_lt_upper_bound; lia.
Qed.

(** The MCU id of a message, as the handler computes it. *)
Lemma mcuid_eq d0 d1 : Js.u8 d1 + Js.shl (Js.u8 d0) 8 = 256 * Js.u8 d0 + Js.u8 d1.
Proof.
  pose proof (u8_range d0). rewrite shl_small by lia. lia.
Qed.

End JsArith.

(** ** Big-endian decoding and encoding *)

Section BigEndian.

Lemma lor_disjoint a b n :
  0 <= n -> 0 <= b < 2 ^ n -> Z.lor (a * 2 ^ n) b = a * 2 ^ n + b.
Proof.
  intros Hn Hb.
  rewrite <- (Z.add_lor_land (a * 2 ^ n) b).
  assert (Hz : Z.land (a * 2 ^ n) b = 0).
  { apply Z.bits_inj'. intros i Hi.
    rewrite Z.land_spec, Z.bits_0.
    destruct (Z.lt_ge_cases i n) as [Hlt | Hge].
    - rewrite Z.mul_pow2_bits_low by lia. reflexivity.
    - rewrite <- (Z.mod_small b (2 ^ n)) by lia.
      rewrite Z.mod_pow2_bits_high by lia. apply andb_false_r. }
  rewrite Hz. lia.
Qed.

Lemma to_int32_top d rest :
  0 <= rest < 2 ^ 24 ->
  Js.to_int32 (Js.u8 d * 2 ^ 24 + rest) = signed_byte d * 2 ^ 24 + rest.
Proof.
  intros Hr. pose proof (u8_range d) as Hd. unfold signed_byte.
  destruct (Z.ltb_spec (Js.u8 d) 128).
  - apply to_int32_small. lia.
  - unfold Js.to_int32.
    replace (Js.u8 d * 2 ^ 24 + rest + 2 ^ 31)
      with ((Js.u8 d - 256) * 2 ^ 24 + rest + 2 ^ 31 + 1 * 2 ^ 32) by lia.
    rewrite Z.mod_add by lia. rewrite Z.mod_small by lia. lia.
Qed.

Lemma shl_24 d : Js.shl (Js.u8 d) 24 = signed_byte d * 2 ^ 24.
Proof.
  pose proof (u8_range d). unfold Js.shl.
  rewrite (to_int32_small (Js.u8 d)) by lia.
  rewrite Z.mod_small, Z.shiftl_mul_pow2 by lia.
  pose proof (to_int32_top d 0 ltac:(lia)) as Ht.
  rewrite !Z.add_0_r in Ht. exact Ht.
Qed.

Lemma signed_byte_range d : - 128 <= signed_byte d < 128.
Proof.
  pose proof (u8_range d). unfold signed_byte.
  destruct (Z.ltb_spec (Js.u8 d) 128); lia.
Qed.

(** [(d4 << 24) | (d5 << 16) | (d6 << 8) | d7] is the signed 32-bit
    big-endian number. *)
Lemma or_chain_be32 d4 d5 d6 d7 :
  Js.or (Js.or (Js.or (Js.shl (Js.u8 d4) 24) (Js.shl (Js.u8 d5) 16))
               (Js.shl (Js.u8 d6) 8))
        (Js.u8 d7)
  = Js.to_int32 (be32 d4 d5 d6 d7).
Proof.
  pose proof (u8_range d5). pose proof (u8_range d6). pose proof (u8_range d7).
  pose proof (signed_byte_range d4) as Hs.
  unfold be32.
  replace (Js.u8 d4 * 2 ^ 24 + Js.u8 d5 * 2 ^ 16 + Js.u8 d6 * 2 ^ 8 + Js.u8 d7)
    with (Js.u8 d4 * 2 ^ 24 + (Js.u8 d5 * 2 ^ 16 + Js.u8 d6 * 2 ^ 8 + Js.u8 d7))
    by lia.
  rewrite to_int32_top by lia.
  rewrite shl_24, !shl_small by lia.
  set (h := signed_byte d4) in *.
  unfold Js.or.
  rewrite (to_int32_small (h * 2 ^ 24)), (to_int32_small (Js.u8 d5 * 2 ^ 16)) by lia.
  rewrite lor_disjoint by lia.
  rewrite (to_int32_small (h * 2 ^ 24 + _)), (to_int32_small (Js.u8 d6 * 2 ^ 8)) by lia.
  replace (h * 2 ^ 24 + Js.u8 d5 * 2 ^ 16) with ((h * 2 ^ 8 + Js.u8 d5) * 2 ^ 16) by lia.
  rewrite lor_disjoint by lia.
  rewrite (to_int32_small (_ + _)), (to_int32_small (Js.u8 d7)) by lia.
  replace ((h * 2 ^ 8 + Js.u8 d5) * 2 ^ 16 + Js.u8 d6 * 2 ^ 8)
    with ((h * 2 ^ 16 + Js.u8 d5 * 2 ^ 8 + Js.u8 d6) * 2 ^ 8) by lia.
  rewrite lor_disjoint by lia.
  lia.
Qed.

(** [remote_address] adds instead: the same number. *)
Lemma remote_address_be32 d4 d5 d6 d7 :
  remote_address d4 d5 d6 d7 = Js.to_int32 (be32 d4 d5 d6 d7).
Proof.
  pose proof (u8_range d5). pose proof (u8_range d6). pose proof (u8_range d7).
  unfold remote_address, be32.
  replace (Js.u8 d4 * 2 ^ 24 + Js.u8 d5 * 2 ^ 16 + Js.u8 d6 * 2 ^ 8 + Js.u8 d7)
    with (Js.u8 d4 * 2 ^ 24 + (Js.u8 d5 * 2 ^ 16 + Js.u8 d6 * 2 ^ 8 + Js.u8 d7))
    by lia.
  rewrite to_int32_top by lia.
  rewrite shl_24, !shl_small by lia. lia.
Qed.

(** The address bytes a frame carries are the big-endian bytes of the
    address. *)
Lemma addr_bytes_be32 addr : addr_bytes addr = be32_bytes addr.
Proof.
  assert (Hsh : forall k, 0 <= k <= 24 ->
            Js.and (Js.sar addr k) 255 = (addr / 2 ^ k) mod 256).
  { intros k Hk. rewrite and_255. unfold Js.sar.
    rewrite (Z.mod_small k 32), Z.shiftr_div_pow2 by lia.
    assert (E : forall x, (x / 2 ^ k) mod 256 = (x mod 2 ^ (k + 8)) / 2 ^ k).
    { intros x. rewrite Z.pow_add_r by lia.
      change (2 ^ 8) with 256.
      rewrite Z.rem_mul_r by (try apply Z.pow_pos_nonneg; lia).
      assert (0 < 2 ^ k) by (apply Z.pow_pos_nonneg; lia).
      rewrite Z.mul_comm, Z.div_add by lia.
      rewrite (Z.div_small (x mod 2 ^ k)) by (apply Z.mod_pos_bound; lia).
      reflexivity. }
    rewrite !E. rewrite to_int32_mod by lia. reflexivity. }
  unfold addr_bytes, be32_bytes.
  rewrite !Hsh by lia. rewrite and_255.
  replace (addr / 2 ^ 0) with addr in * by (rewrite Z.div_1_r; reflexivity).
  reflexivity.
Qed.

End BigEndian.

(** ** The filter of [handleCanMsg] *)

(** A message of eight bytes with the session's CAN id and MCU id is
    dispatched on the session state. *)
Lemma handleCanMsg_dispatch now s d0 d1 d2 d3 d4 d5 d6 d7 :
  256 * Js.u8 d0 + Js.u8 d1 = Args.mcuid (args (conf s)) ->
  let msgData := [d0; d1; d2; d3; d4; d5; d6; d7] in
  handleCanMsg now (mkMsg (Args.canIdMcu (args (conf s))) msgData) s
  = match state s with
    | STATE_INIT => handle_init now d4 d5 d6 d7 (Js.u8 d2) s
    | STATE_FLASHING => handle_flashing now d3 d4 d5 d6 d7 (Js.u8 d2) s
    | STATE_READING => handle_reading now msgData d3 (Js.u8 d2) s
    end.
Proof.
  intros Hid. unfold handleCanMsg. cbn [msg_data msg_id].
  rewrite Z.eqb_refl, mcuid_eq, Hid, Z.eqb_refl. reflexivity.
Qed.

(** C5. A frame with another CAN id, with a data length other than 8,
    or whose bytes 0..1 are not the configured MCU id, is dropped in
    every state: the handler returns, the whole object (state, cursors,
    read buffer) is unchanged and nothing is emitted. *)
Theorem filter_drops_frame (now : Z) (msg : can_msg) (s : FlashApp) :
  msg_id msg <> Args.canIdMcu (args (conf s))
  \/ length (msg_data msg) <> 8%nat
  \/ (exists d0 d1,
        msg_data msg !! 0%nat = Some d0 /\ msg_data msg !! 1%nat = Some d1
        /\ 256 * Js.u8 d0 + Js.u8 d1 <> Args.mcuid (args (conf s))) ->
  handleCanMsg now msg s = mkResult s [] Returned.
Proof.
  intros H. unfold handleCanMsg. destruct msg as [mid msgData]. cbn [msg_data msg_id] in *.
  destruct msgData as [|d0 [|d1 [|d2 [|d3 [|d4 [|d5 [|d6 [|d7 [|d8 rest]]]]]]]]];
    try reflexivity.
  destruct (Z.eqb_spec mid (Args.canIdMcu (args (conf s)))) as [Hid | Hid];
    [|reflexivity].
  rewrite mcuid_eq.
  destruct (Z.eqb_spec (256 * Js.u8 d0 + Js.u8 d1) (Args.mcuid (args (conf s))))
    as [Hm | Hm]; [|reflexivity].
  exfalso. destruct H as [H | [H | (x0 & x1 & H0 & H1 & H)]].
  - contradiction.
  - apply H. reflexivity.
  - cbn in H0, H1. injection H0 as <-. injection H1 as <-. contradiction.
Qed.

Lemma filter_drops_frame_witness :
  handleCanMsg 0 (mkMsg 0x123 (Js.Buffer_from [0; 0x42; 2; 0; 0x1E; 0x95; 0x0F; 1]))
    Sample.flash_app
  = mkResult Sample.flash_app [] Returned.
Proof.
  apply filter_drops_frame. left. vm_compute. discriminate.
Defined.

(** ** Emitted buffers *)

Lemma Buffer_from_bytes (l : list Z) :
  map Js.u8 (Js.Buffer_from l) = map (fun z => z mod 256) l.
Proof.
  unfold Js.Buffer_from. rewrite map_map.
  apply map_ext. intros z. apply u8_byte_of_Z.
Qed.

Lemma command_buffer_bytes s cmd (p : list Z) :
  map Js.u8 (command_buffer s cmd p)
  = [fst (mcuId (conf s)) mod 256; snd (mcuId (conf s)) mod 256; cmd mod 256; 0]
    ++ map (fun z => z mod 256) p.
Proof.
  unfold command_buffer. rewrite Buffer_from_bytes. reflexivity.
Qed.

Lemma sent_app (a b : list event) : sent (a ++ b) = sent a ++ sent b.
Proof. unfold sent. apply omap_app. Qed.

Lemma sent_cons_send f (evs : list event) : sent (Send f :: evs) = f :: sent evs.
Proof. reflexivity. Qed.

Lemma sent_progressStart s t v : sent (progressStart s t v) = [].
Proof. unfold progressStart. destruct (doProgress (conf s)); reflexivity. Qed.

Lemma sent_progressIncrement s n : sent (progressIncrement s n) = [].
Proof. unfold progressIncrement. destruct (doProgress (conf s)); reflexivity. Qed.

Lemma sent_progressStop s : sent (progressStop s) = [].
Proof. unfold progressStop. destruct (doProgress (conf s)); reflexivity. Qed.

(** ** Init state *)

(** C8. In Init, a [BOOTLOADER_START] with the expected signature and a
    version byte other than 0x01: without the force flag the handler
    prints the version error, changes nothing and sends nothing; with
    it the handler prints the warning and sends [FLASH_INIT] with the
    signature, still in Init. *)
Theorem version_mismatch_needs_force
    (now : Z) (s : FlashApp) (d0 d1 d2 d3 d4 d5 d6 d7 : byte) :
  state s = STATE_INIT ->
  256 * Js.u8 d0 + Js.u8 d1 = Args.mcuid (args (conf s)) ->
  Js.u8 d2 = CMD_BOOTLOADER_START ->
  deviceSignature (conf s) = (Js.u8 d4, Js.u8 d5, Js.u8 d6) ->
  Js.u8 d7 <> BOOTLOADER_CMD_VERSION ->
  let r := handleCanMsg now
             (mkMsg (Args.canIdMcu (args (conf s))) [d0; d1; d2; d3; d4; d5; d6; d7]) s in
  if Args.F (args (conf s)) then
    state (r_app r) = STATE_INIT
    /\ r_outcome r = Returned
    /\ hd_error (r_events r) = Some (Console (VersionForced (Js.u8 d7)))
    /\ exists f,
         sent (r_events r) = [f]
         /\ id f = Args.canIdRemote (args (conf s))
         /\ map Js.u8 (data f)
            = [ fst (mcuId (conf s)) mod 256; snd (mcuId (conf s)) mod 256;
                CMD_FLASH_INIT; 0; Js.u8 d4; Js.u8 d5; Js.u8 d6; 0 ]
  else
    r = mkResult s [Console (VersionError (Js.u8 d7))] Returned.
Proof.
  intros Hst Hid Hcmd Hsig Hver r. subst r.
  rewrite handleCanMsg_dispatch by exact Hid. rewrite Hst.
  unfold handle_init. rewrite Hcmd, Hsig. cbn [Z.eqb CMD_BOOTLOADER_START Pos.eqb].
  rewrite !Z.eqb_refl. cbn [negb orb].
  destruct (Z.eqb_spec (Js.u8 d7) BOOTLOADER_CMD_VERSION) as [E | _]; [contradiction|].
  cbn [negb andb].
  destruct (Args.F (args (conf s))); cbn [negb].
  - destruct (pingInterval s) as [t|] eqn:Hp; cbn.
    + rewrite Hst. repeat split; try reflexivity.
      eexists. split; [reflexivity|]. split; [reflexivity|].
      cbn. rewrite !u8_byte_of_Z.
      pose proof (u8_range d4). pose proof (u8_range d5). pose proof (u8_range d6).
      rewrite !(Z.mod_small (Js.u8 _)) by lia. reflexivity.
    + rewrite Hst. repeat split; try reflexivity.
      eexists. split; [reflexivity|]. split; [reflexivity|].
      cbn. rewrite !u8_byte_of_Z.
      pose proof (u8_range d4). pose proof (u8_range d5). pose proof (u8_range d6).
      rewrite !(Z.mod_small (Js.u8 _)) by lia. reflexivity.
  - reflexivity.
Qed.

Lemma version_mismatch_needs_force_witness :
  handleCanMsg 0 (Sample.from_mcu 0x02 0 [0x1E; 0x95; 0x0F; 0x02]) Sample.flash_app
  = mkResult Sample.flash_app [Console (VersionError 2)] Returned.
Proof.
  apply (version_mismatch_needs_force 0 Sample.flash_app
           (Js.byte_of_Z 0) (Js.byte_of_Z 0x42) (Js.byte_of_Z 0x02) (Js.byte_of_Z 0)
           (Js.byte_of_Z 0x1E) (Js.byte_of_Z 0x95) (Js.byte_of_Z 0x0F)
           (Js.byte_of_Z 0x02));
    vm_compute; congruence.
Defined.

(** C7. In Init and in read mode, [FLASH_ADDRESS_ERROR] is answered by
    decoding FLASHEND_BL from bytes 4..7 as a 32-bit big-endian integer
    (read as signed, so the unsigned value whenever byte 4 is below
    0x80), printing the bootloader size
    [flash_size - (FLASHEND_BL + 1)], starting the progress bar at the
    program size [FLASHEND_BL + 1] when no maximum address was given,
    moving to Reading and sending one [FLASH_READ] frame whose four
    address bytes are zero. *)
Theorem address_error_starts_reading
    (now : Z) (s : FlashApp) (d0 d1 d2 d3 d4 d5 d6 d7 : byte) :
  state s = STATE_INIT ->
  doRead (conf s) = true ->
  256 * Js.u8 d0 + Js.u8 d1 = Args.mcuid (args (conf s)) ->
  Js.u8 d2 = CMD_FLASH_ADDRESS_ERROR ->
  let r := handleCanMsg now
             (mkMsg (Args.canIdMcu (args (conf s))) [d0; d1; d2; d3; d4; d5; d6; d7]) s in
  let FLASHEND_BL := Js.to_int32 (be32 d4 d5 d6 d7) in
  let program_size := FLASHEND_BL + 1 in
  let bootloader_size := deviceFlashSize (conf s) - program_size in
  (Js.u8 d4 < 128 -> FLASHEND_BL = be32 d4 d5 d6 d7)
  /\ r_app r = set_state STATE_READING s
  /\ r_outcome r = Returned
  /\ hd_error (r_events r) = Some (Console (BootloaderSize bootloader_size))
  /\ (doProgress (conf s) = true ->
      (Args.r (args (conf s)) = None \/ Args.r (args (conf s)) = Some NaN) ->
      In (ProgressStart program_size 0) (r_events r))
  /\ exists f,
       sent (r_events r) = [f]
       /\ id f = Args.canIdRemote (args (conf s))
       /\ map Js.u8 (data f)
          = [ fst (mcuId (conf s)) mod 256; snd (mcuId (conf s)) mod 256;
              CMD_FLASH_READ; 0; 0; 0; 0; 0 ].
Proof.
  intros Hst Hrd Hid Hcmd r FLASHEND_BL program_size bootloader_size.
  subst r. rewrite handleCanMsg_dispatch by exact Hid. rewrite Hst.
  unfold handle_init. rewrite Hcmd, Hrd.
  cbn [Z.eqb CMD_FLASH_ADDRESS_ERROR CMD_BOOTLOADER_START CMD_FLASH_READY Pos.eqb].
  rewrite or_chain_be32. fold FLASHEND_BL. fold program_size. fold bootloader_size.
  split.
  { intros Hlt. unfold FLASHEND_BL, be32.
    pose proof (u8_range d4). pose proof (u8_range d5).
    pose proof (u8_range d6). pose proof (u8_range d7).
    apply to_int32_small. lia. }
  set (choice := match Args.r (args (conf s)) with
                 | Some (Num r0) => _ | _ => _ end).
  assert (Hchoice :
    (Args.r (args (conf s)) = None \/ Args.r (args (conf s)) = Some NaN) ->
    choice = ([], program_size)).
  { intros [E | E]; subst choice; rewrite E; reflexivity. }
  destruct choice as [warn readSizeBytes] eqn:Ech.
  cbn [r_app r_events r_outcome].
  split; [reflexivity|]. split; [reflexivity|]. split; [reflexivity|].
  split.
  - intros Hp Hr. specialize (Hchoice Hr). injection Hchoice as -> ->.
    unfold progressStart. rewrite Hp. cbn. auto.
  - eexists. split.
    + rewrite !sent_app, sent_progressStart.
      assert (Hw : sent warn = []).
      { subst choice. destruct (Args.r (args (conf s))) as [[|r0]|].
        - injection Ech as <- _. reflexivity.
        - destruct (r0 =? 0); [injection Ech as <- _; reflexivity|].
          destruct (program_size <=? r0); injection Ech as <- _; reflexivity.
        - injection Ech as <- _. reflexivity. }
      rewrite Hw. reflexivity.
    + split; [reflexivity|].
      unfold to_mcu. cbn [data]. rewrite command_buffer_bytes. reflexivity.
Qed.

Lemma address_error_starts_reading_witness :
  let r := handleCanMsg 0 (Sample.from_mcu 0x0B 0 [0x00; 0x00; 0x77; 0xFF])
             Sample.read_app in
  state (r_app r) = STATE_READING
  /\ hd_error (r_events r) = Some (Console (BootloaderSize 0x0800))
  /\ map (fun f => map Js.u8 (data f)) (sent (r_events r))
     = [[0x00; 0x42; 0x40; 0; 0; 0; 0; 0]].
Proof.
  pose proof (address_error_starts_reading 0 Sample.read_app
           (Js.byte_of_Z 0) (Js.byte_of_Z 0x42) (Js.byte_of_Z 0x0B) (Js.byte_of_Z 0)
           (Js.byte_of_Z 0x00) (Js.byte_of_Z 0x00) (Js.byte_of_Z 0x77)
           (Js.byte_of_Z 0xFF) eq_refl eq_refl eq_refl eq_refl)
    as (_ & Happ & _ & Hhd & _ & f & Hsent & _ & Hdata).
  cbv zeta. split; [|split].
  - change (Sample.from_mcu 0x0B 0 [0x00; 0x00; 0x77; 0xFF])
      with (mkMsg (Args.canIdMcu (args (conf Sample.read_app)))
              [Js.byte_of_Z 0; Js.byte_of_Z 0x42; Js.byte_of_Z 0x0B; Js.byte_of_Z 0;
               Js.byte_of_Z 0x00; Js.byte_of_Z 0x00; Js.byte_of_Z 0x77;
               Js.byte_of_Z 0xFF]).
    rewrite Happ. reflexivity.
  - exact Hhd.
  - vm_compute. reflexivity.
Defined.

(** ** The write step *)

Section WriteStep.

Lemma get_from_cursor {A} (block : list A) idx i :
  0 <= idx -> 0 <= i ->
  Js.get block (idx + i) = drop (Z.to_nat idx) block !! Z.to_nat i.
Proof.
  intros Hidx Hi. unfold Js.get.
  destruct (Z.ltb_spec (idx + i) 0); [lia|].
  rewrite lookup_drop. f_equal. lia.
Qed.

Lemma get_negative {A} (block : list A) idx : idx < 0 -> Js.get block idx = None.
Proof.
  intros H. unfold Js.get. destruct (Z.ltb_spec idx 0); [reflexivity|lia].
Qed.

(** The packing loop writes the chunk after the four header bytes,
    leaves the rest of the buffer and counts the chunk's bytes. *)
Lemma pack_loop_chunk block idx (b0 b1 b2 b3 b4 b5 b6 b7 : byte) :
  let chunk := chunk_at block idx in
  pack_loop 4 0 block idx [b0; b1; b2; b3; b4; b5; b6; b7] 0
  = ([b0; b1; b2; b3] ++ chunk ++ drop (length chunk) [b4; b5; b6; b7],
     Z.of_nat (length chunk)).
Proof.
  unfold chunk_at. destruct (Z.ltb_spec idx 0) as [Hneg | Hpos].
  - cbn [pack_loop]. rewrite Z.add_0_r, get_negative by lia. reflexivity.
  - cbn [pack_loop].
    rewrite !get_from_cursor by lia.
    destruct (drop (Z.to_nat idx) block) as [|c0 [|c1 [|c2 [|c3 rest]]]];
      reflexivity.
Qed.

Lemma chunk_at_length block idx : (length (chunk_at block idx) <= 4)%nat.
Proof.
  unfold chunk_at. destruct (idx <? 0); [cbn; lia|].
  rewrite length_take. lia.
Qed.

(** The fragment byte of a data frame, for a count of at most 4. *)
Lemma fragment_byte (n : nat) (addr : Z) :
  (n <= 4)%nat ->
  Js.u8 (Js.byte_of_Z (Js.or (Js.shl (Z.of_nat n) 5) (Js.and addr 31)))
  = Z.lor (Z.shiftl (Z.of_nat n) 5) (Z.land addr 31).
Proof.
  intros Hn. rewrite u8_byte_of_Z, and_31.
  pose proof (Z.mod_pos_bound addr 32 ltac:(lia)) as Hm.
  rewrite shl_small by lia.
  unfold Js.or. rewrite !to_int32_small by lia.
  replace 31 with (Z.ones 5) by reflexivity.
  rewrite Z.land_ones, Z.shiftl_mul_pow2 by lia.
  change (2 ^ 5) with 32.
  assert (Hl : Z.lor (Z.of_nat n * 32) (addr mod 32) = Z.of_nat n * 32 + addr mod 32)
    by (apply (lor_disjoint (Z.of_nat n) (addr mod 32) 5); lia).
  rewrite Hl. apply Z.mod_small. lia.
Qed.

End WriteStep.

Section FlashNext.

Variable remote : Z.
Variable s : FlashApp.

Lemma flash_next_set_address :
  curAddr s <> remote ->
  flash_next remote s
  = mkResult s
      ([Console (SettingFlashAddress (curAddr s))]
       ++ sendSetFlashAddress s (curAddr s))
      Returned.
Proof.
  intros Hne. unfold flash_next.
  destruct (Z.eqb_spec (curAddr s) remote); [contradiction|reflexivity].
Qed.

Lemma flash_next_data block :
  curAddr s = remote ->
  memMap_get (memMap (conf s)) (memMapCurrentKey s) = Some block ->
  let chunk := chunk_at block (memMapCurrentDataIdx s) in
  exists buf,
    flash_next remote s
    = mkResult s
        ((if Args.verbose (args (conf s))
          then [Console (SendingFlashData (curAddr s))] else [])
         ++ [Send (to_mcu s buf)])
        Returned
    /\ map Js.u8 buf
       = [ fst (mcuId (conf s)) mod 256; snd (mcuId (conf s)) mod 256;
           CMD_FLASH_DATA;
           Z.lor (Z.shiftl (Z.of_nat (length chunk)) 5) (Z.land (curAddr s) 31) ]
         ++ map Js.u8 chunk ++ repeat 0 (4 - length chunk).
Proof.
  intros Heq Hblock chunk. unfold flash_next.
  rewrite Heq, Z.eqb_refl. cbn [negb]. rewrite <- Heq. rewrite Hblock.
  unfold command_buffer, Js.Buffer_from. cbn [map app].
  rewrite pack_loop_chunk. fold chunk.
  change (Z.to_nat CAN_DATA_BYTE_LEN_AND_ADDR) with 3%nat.
  cbn [app]. cbn [insert list_insert].
  eexists. split; [reflexivity|].
  pose proof (chunk_at_length block (memMapCurrentDataIdx s)) as Hlen.
  fold chunk in Hlen.
  cbn [map]. rewrite fragment_byte by exact Hlen.
  rewrite !u8_byte_of_Z. rewrite map_app.
  change (CMD_FLASH_DATA mod 256) with CMD_FLASH_DATA.
  do 4 f_equal.
  destruct chunk as [|c0 [|c1 [|c2 [|c3 [|c4 rest]]]]];
    cbn in Hlen |- *; try lia; rewrite ?u8_byte_of_Z; reflexivity.
Qed.

Lemma flash_next_app : r_app (flash_next remote s) = s.
Proof.
  unfold flash_next.
  destruct (negb (curAddr s =? remote)); [reflexivity|].
  destruct (memMap_get _ _); [|reflexivity].
  destruct (pack_loop _ _ _ _ _ _). reflexivity.
Qed.

End FlashNext.

(** ** Which frames are [FLASH_DATA] frames *)

Section Frames.

Lemma frame_cmd_command s cmd p :
  frame_cmd (to_mcu s (command_buffer s cmd p)) = Some (cmd mod 256).
Proof.
  unfold frame_cmd, to_mcu, command_buffer, Js.Buffer_from, Js.get.
  cbn [data map app].
  change (CAN_DATA_BYTE_CMD <? 0) with false.
  change (Z.to_nat CAN_DATA_BYTE_CMD) with 2%nat.
  change (Js.u8 <$> Some (Js.byte_of_Z cmd) = Some (cmd mod 256)).
  cbn [fmap option_fmap option_map]. rewrite u8_byte_of_Z. reflexivity.
Qed.

Lemma quiet_nil : quiet [].
Proof. constructor. Qed.

Lemma quiet_app a b : quiet a -> quiet b -> quiet (a ++ b).
Proof. unfold quiet. rewrite sent_app. apply Forall_app_2. Qed.

Lemma quiet_console m evs : quiet evs -> quiet (Console m :: evs).
Proof. trivial. Qed.

Lemma quiet_hex b evs : quiet evs -> quiet (HexOutput b :: evs).
Proof. trivial. Qed.

Lemma frame_cmd_map f :
  frame_cmd f = Js.get (map Js.u8 (data f)) CAN_DATA_BYTE_CMD.
Proof.
  unfold frame_cmd, Js.get. change (CAN_DATA_BYTE_CMD <? 0) with false.
  cbn iota. symmetry. apply list_lookup_fmap.
Qed.

Lemma quiet_command s cmd p evs :
  In (cmd mod 256) control_commands -> quiet evs ->
  quiet (Send (to_mcu s (command_buffer s cmd p)) :: evs).
Proof.
  intros Hc He. unfold quiet. rewrite sent_cons_send. constructor; [|exact He].
  exists (cmd mod 256). split; [apply frame_cmd_command|exact Hc].
Qed.

Lemma quiet_progressStart s t v : quiet (progressStart s t v).
Proof. unfold quiet. rewrite sent_progressStart. constructor. Qed.

Lemma quiet_progressIncrement s n : quiet (progressIncrement s n).
Proof. unfold quiet. rewrite sent_progressIncrement. constructor. Qed.

Lemma quiet_progressStop s : quiet (progressStop s).
Proof. unfold quiet. rewrite sent_progressStop. constructor. Qed.

Hint Resolve quiet_nil quiet_app quiet_console quiet_hex quiet_progressStart
  quiet_progressIncrement quiet_progressStop : frames.

Ltac constant_command :=
  apply quiet_command; [vm_compute; repeat first [left; reflexivity | right]|].

Hint Extern 1 (quiet (Send (to_mcu _ (command_buffer _ _ _)) :: _)) =>
  constant_command : frames.

Lemma quiet_if (b : bool) evs : quiet evs -> quiet (if b then evs else []).
Proof. destruct b; auto with frames. Qed.

Hint Resolve quiet_if : frames.

Lemma quiet_sendStartApp s : quiet (sendStartApp s).
Proof. unfold sendStartApp. auto with frames. Qed.

Lemma quiet_sendSetFlashAddress s addr : quiet (sendSetFlashAddress s addr).
Proof. unfold sendSetFlashAddress. auto 6 with frames. Qed.

Hint Resolve quiet_sendStartApp quiet_sendSetFlashAddress : frames.

Lemma quiet_readDone now s : quiet (readDone now s).
Proof. unfold readDone. auto 8 with frames. Qed.

Lemma quiet_readForVerify now s : quiet (snd (readForVerify now s)).
Proof.
  unfold readForVerify.
  destruct (block_exhausted s); [destruct (memMapKeys s)|]; cbn [snd];
    auto 8 with frames.
Qed.

Hint Resolve quiet_readDone quiet_readForVerify : frames.

Lemma packed_ok_quiet s evs o : quiet evs -> packed_ok (mkResult s evs o).
Proof.
  intros Hq f Hin. left. cbn [r_events] in Hin.
  unfold quiet in Hq. rewrite Forall_forall in Hq.
  apply (Hq f); assumption.
Qed.

Lemma packed_ok_after pre r : quiet pre -> packed_ok r -> packed_ok (after pre r).
Proof.
  intros Hq Hr f Hin. cbn [after r_events] in Hin. rewrite sent_app in Hin.
  apply in_app_or in Hin. destruct Hin as [Hin | Hin].
  - left. unfold quiet in Hq. rewrite Forall_forall in Hq.
    apply (Hq f); assumption.
  - apply Hr; assumption.
Qed.

Lemma packed_ok_flash_next remote s : packed_ok (flash_next remote s).
Proof.
  destruct (Z.eq_dec (curAddr s) remote) as [Heq | Hne].
  - destruct (memMap_get (memMap (conf s)) (memMapCurrentKey s)) as [block|] eqn:Hb.
    + destruct (flash_next_data remote s block Heq Hb) as (buf & -> & Hbuf).
      intros f Hin. right. cbn [r_events r_app] in *.
      rewrite sent_app in Hin.
      assert (Hv : sent (if Args.verbose (args (conf s))
                         then [Console (SendingFlashData (curAddr s))] else []) = [])
        by (destruct (Args.verbose _); reflexivity).
      rewrite Hv in Hin. cbn in Hin. destruct Hin as [<- | []].
      split; [rewrite frame_cmd_map; cbn [data to_mcu]; rewrite Hbuf; reflexivity|].
      exists block. split; [exact Hb|]. cbn zeta.
      split; [apply chunk_at_length|].
      cbn [data to_mcu]. split.
      * rewrite Hbuf. reflexivity.
      * rewrite <- skipn_map, Hbuf. reflexivity.
    + unfold flash_next. rewrite Heq, Z.eqb_refl, <- Heq, Hb. cbn [negb].
      apply packed_ok_quiet. auto with frames.
  - rewrite flash_next_set_address by exact Hne.
    apply packed_ok_quiet. auto 6 with frames.
Qed.

Lemma packed_ok_onFlashReady d4 d5 d6 d7 s : packed_ok (onFlashReady d4 d5 d6 d7 s).
Proof.
  unfold onFlashReady.
  destruct (block_exhausted s); [|apply packed_ok_flash_next].
  destruct (memMapKeys s) as [|key rest].
  - destruct (doVerify (conf s)); apply packed_ok_quiet; auto 8 with frames.
  - apply packed_ok_after; [|apply packed_ok_flash_next].
    destruct (memMapCurrentKey s); auto with frames.
Qed.

Lemma packed_ok_handle_init now d4 d5 d6 d7 cmd s :
  packed_ok (handle_init now d4 d5 d6 d7 cmd s).
Proof.
  unfold handle_init, unexpected.
  destruct (cmd =? CMD_BOOTLOADER_START).
  { destruct (deviceSignature (conf s)) as [[s0 s1] s2].
    destruct (_ || _); [apply packed_ok_quiet; auto with frames|].
    destruct (_ && _); [apply packed_ok_quiet; auto with frames|].
    destruct (pingInterval s); apply packed_ok_quiet.
    all: apply quiet_app; [destruct (negb _); auto with frames|].
    all: auto 8 with frames. }
  destruct (cmd =? CMD_FLASH_READY).
  { destruct (doRead (conf s)); [apply packed_ok_quiet; auto 8 with frames|].
    destruct (doErase s); [apply packed_ok_quiet; auto 8 with frames|].
    apply packed_ok_after; [auto with frames|apply packed_ok_onFlashReady]. }
  destruct (cmd =? CMD_FLASH_ADDRESS_ERROR);
    [|apply packed_ok_quiet; auto with frames].
  destruct (doRead (conf s)); [|apply packed_ok_quiet; auto with frames].
  destruct (Args.r (args (conf s))) as [[|r0]|];
    repeat match goal with
           | |- context [if ?b then (_, _) else _] => destruct b
           end;
    apply packed_ok_quiet; auto 8 with frames.
Qed.

Lemma packed_ok_handle_flashing now d3 d4 d5 d6 d7 cmd s :
  packed_ok (handle_flashing now d3 d4 d5 d6 d7 cmd s).
Proof.
  unfold handle_flashing, unexpected, exit.
  destruct (cmd =? CMD_FLASH_DATA_ERROR); [apply packed_ok_quiet; auto with frames|].
  destruct (cmd =? CMD_FLASH_ADDRESS_ERROR); [apply packed_ok_quiet; auto with frames|].
  destruct (cmd =? CMD_FLASH_READY).
  { apply packed_ok_after; [auto with frames|apply packed_ok_onFlashReady]. }
  destruct (cmd =? CMD_START_APP).
  - apply packed_ok_after; [auto with frames|].
    apply packed_ok_quiet. constructor.
  - apply packed_ok_quiet; auto with frames.
Qed.

Lemma packed_ok_handle_reading now msgData d3 cmd s :
  packed_ok (handle_reading now msgData d3 cmd s).
Proof.
  unfold handle_reading, unexpected, exit.
  destruct (cmd =? CMD_FLASH_DONE_VERIFY).
  { match goal with
    | |- context [readForVerify now ?s'] =>
        pose proof (quiet_readForVerify now s') as Hq;
        destruct (readForVerify now s') as [s'' evs]
    end.
    apply packed_ok_quiet. cbn [snd] in Hq. auto 8 with frames. }
  destruct (cmd =? CMD_FLASH_READ_DATA).
  { destruct (read_address_guard _ _); [apply packed_ok_quiet; auto 8 with frames|].
    destruct (doVerify (conf s)).
    - destruct (verify_loop _ _ _ _) as [s' [| |]].
      + pose proof (quiet_readForVerify now s') as Hq.
        destruct (readForVerify now s') as [s'' evs]. cbn [snd] in Hq.
        apply packed_ok_quiet. auto 8 with frames.
      + apply packed_ok_quiet. auto 10 with frames.
      + apply packed_ok_quiet. auto 8 with frames.
    - destruct (reached_max _); apply packed_ok_quiet; auto 10 with frames. }
  destruct (cmd =? CMD_FLASH_READ_ADDRESS_ERROR).
  { destruct (doVerify (conf s)); apply packed_ok_quiet; auto 8 with frames. }
  destruct (cmd =? CMD_START_APP).
  - apply packed_ok_after; [auto with frames|].
    apply packed_ok_quiet. constructor.
  - apply packed_ok_quiet; auto with frames.
Qed.

Lemma packed_ok_handleCanMsg now msg s : packed_ok (handleCanMsg now msg s).
Proof.
  unfold handleCanMsg.
  destruct (msg_data msg) as [|d0 [|d1 [|d2 [|d3 [|d4 [|d5 [|d6 [|d7 [|d8 rest]]]]]]]]];
    try (apply packed_ok_quiet; constructor).
  destruct (negb _); [apply packed_ok_quiet; constructor|].
  destruct (negb _); [apply packed_ok_quiet; constructor|].
  destruct (state s).
  - apply packed_ok_handle_init.
  - apply packed_ok_handle_flashing.
  - apply packed_ok_handle_reading.
Qed.

End Frames.

(** C4. Whatever the event loop delivers, a [FLASH_DATA] frame the
    handler emits has in byte 3 the value [(n << 5) | (curAddr & 0x1F)],
    where [n], at most 4, is the number of image bytes of the current
    block (from the cursor on) that the frame carries in bytes 4.., the
    rest of the payload being zero. *)
Theorem flash_data_fragment_byte (i : input) (s : FlashApp) (f : frame) :
  In f (sent (r_events (step i s))) ->
  frame_cmd f = Some CMD_FLASH_DATA ->
  let s' := r_app (step i s) in
  exists block,
    memMap_get (memMap (conf s')) (memMapCurrentKey s') = Some block
    /\ let chunk := chunk_at block (memMapCurrentDataIdx s') in
       let n := length chunk in
       (n <= 4)%nat
       /\ Js.get (map Js.u8 (data f)) CAN_DATA_BYTE_LEN_AND_ADDR
          = Some (Z.lor (Z.shiftl (Z.of_nat n) 5) (Z.land (curAddr s') 31))
       /\ map Js.u8 (drop 4 (data f)) = map Js.u8 chunk ++ repeat 0 (4 - n).
Proof.
  intros Hin Hcmd. destruct i as [now msg|].
  - destruct (packed_ok_handleCanMsg now msg s f Hin) as [(c & Hc & Hctl) | [_ Hp]];
      [exfalso|exact Hp].
    rewrite Hcmd in Hc. injection Hc as <-.
    vm_compute in Hctl. intuition discriminate.
  - exfalso. cbn [step] in Hin. unfold ping_tick in Hin.
    destruct (pingInterval s); [|destruct Hin].
    destruct Hin as [<- | []]. rewrite frame_cmd_map in Hcmd.
    cbn [r_events data to_mcu] in Hcmd. rewrite Buffer_from_bytes in Hcmd.
    vm_compute in Hcmd. discriminate.
Qed.

Lemma flash_data_fragment_byte_witness :
  let i := Recv 0 (Sample.from_mcu 0x04 0 [0; 0; 0; 0]) in
  let f := mkFrame CAN_ID_REMOTE_TO_MCU_DEFAULT true false
             (Js.Buffer_from [0x00; 0x42; 0x08; 0x80; 0xAA; 0xBB; 0xCC; 0xDD]) in
  let s' := r_app (step i Sample.flash_app) in
  exists block,
    memMap_get (memMap (conf s')) (memMapCurrentKey s') = Some block
    /\ let chunk := chunk_at block (memMapCurrentDataIdx s') in
       let n := length chunk in
       (n <= 4)%nat
       /\ Js.get (map Js.u8 (data f)) CAN_DATA_BYTE_LEN_AND_ADDR
          = Some (Z.lor (Z.shiftl (Z.of_nat n) 5) (Z.land (curAddr s') 31))
       /\ map Js.u8 (drop 4 (data f)) = map Js.u8 chunk ++ repeat 0 (4 - n).
Proof.
  intros i f.
  apply (flash_data_fragment_byte i Sample.flash_app f).
  - vm_compute. left. reflexivity.
  - vm_compute. reflexivity.
Defined.

(** ** Address resynchronisation *)

Lemma sent_sendSetFlashAddress s addr :
  sent (sendSetFlashAddress s addr)
  = [to_mcu s (command_buffer s CMD_FLASH_SET_ADDRESS (addr_bytes addr))].
Proof.
  unfold sendSetFlashAddress. destruct (Args.verbose (args (conf s))); reflexivity.
Qed.

Lemma onFlashReady_next d4 d5 d6 d7 s a :
  next_chunk_address s = Some a ->
  let r := onFlashReady d4 d5 d6 d7 s in
  curAddr (r_app r) = a
  /\ (a <> remote_address d4 d5 d6 d7 ->
      sent (r_events r)
      = [to_mcu (r_app r)
           (command_buffer (r_app r) CMD_FLASH_SET_ADDRESS (addr_bytes a))]).
Proof.
  unfold next_chunk_address, onFlashReady. intros Hnext.
  destruct (block_exhausted s).
  - destruct (memMapKeys s) as [|key rest]; [discriminate|].
    injection Hnext as <-. cbn zeta. cbn [after r_app r_events].
    rewrite flash_next_app. split; [reflexivity|].
    intros Hne. rewrite flash_next_set_address by exact Hne.
    cbn [r_events]. rewrite !sent_app, sent_sendSetFlashAddress.
    destruct (memMapCurrentKey s); [reflexivity|].
    rewrite sent_progressStart. reflexivity.
  - injection Hnext as <-. cbn zeta. rewrite flash_next_app.
    split; [reflexivity|].
    intros Hne. rewrite flash_next_set_address by exact Hne.
    cbn [r_events]. rewrite sent_app, sent_sendSetFlashAddress. reflexivity.
Qed.

(** C2. In Flashing, on a [FLASH_READY] frame: once the cursors are
    advanced by the frame's byte count, if the next image chunk starts
    at an address [a] other than the remote address in bytes 4..7, the
    handler sends exactly one frame, a [FLASH_SET_ADDRESS] with the
    big-endian bytes of [a], and so no [FLASH_DATA]; a [FLASH_DATA]
    frame is sent only when the two addresses are equal. *)
Theorem set_address_when_remote_differs
    (now : Z) (s : FlashApp) (d0 d1 d2 d3 d4 d5 d6 d7 : byte) (a : Z) :
  state s = STATE_FLASHING ->
  256 * Js.u8 d0 + Js.u8 d1 = Args.mcuid (args (conf s)) ->
  Js.u8 d2 = CMD_FLASH_READY ->
  let byteCount := Js.u8 d3 / 32 in
  next_chunk_address
    (set_memMapCurrentDataIdx (memMapCurrentDataIdx s + byteCount)
       (set_curAddr (curAddr s + byteCount) s)) = Some a ->
  let r := handleCanMsg now
             (mkMsg (Args.canIdMcu (args (conf s))) [d0; d1; d2; d3; d4; d5; d6; d7]) s in
  let remote := remote_address d4 d5 d6 d7 in
  curAddr (r_app r) = a
  /\ (a <> remote ->
      exists f,
        sent (r_events r) = [f]
        /\ frame_cmd f = Some CMD_FLASH_SET_ADDRESS
        /\ map Js.u8 (drop 4 (data f)) = be32_bytes a)
  /\ (forall f, In f (sent (r_events r)) ->
        frame_cmd f = Some CMD_FLASH_DATA -> a = remote).
Proof.
  intros Hst Hid Hcmd byteCount Hnext r remote. subst r.
  rewrite handleCanMsg_dispatch by exact Hid. rewrite Hst.
  unfold handle_flashing. rewrite Hcmd.
  change (CMD_FLASH_READY =? CMD_FLASH_DATA_ERROR) with false.
  change (CMD_FLASH_READY =? CMD_FLASH_ADDRESS_ERROR) with false.
  change (CMD_FLASH_READY =? CMD_FLASH_READY) with true.
  cbn iota. rewrite byteCount_eq. fold byteCount.
  cbn [after r_app r_events]. rewrite sent_app, sent_progressIncrement.
  cbn [app].
  destruct (onFlashReady_next d4 d5 d6 d7 _ a Hnext) as [Hcur Hset].
  cbn zeta in Hcur, Hset. fold remote in Hset.
  assert (Hframe : a <> remote ->
            exists f,
              sent (r_events (onFlashReady d4 d5 d6 d7
                   (set_memMapCurrentDataIdx (memMapCurrentDataIdx s + byteCount)
                      (set_curAddr (curAddr s + byteCount) s)))) = [f]
              /\ frame_cmd f = Some CMD_FLASH_SET_ADDRESS
              /\ map Js.u8 (drop 4 (data f)) = be32_bytes a).
  { intros Hne. eexists. split; [apply Hset; exact Hne|].
    split; [apply frame_cmd_command|].
    unfold to_mcu. cbn [data]. rewrite <- skipn_map, command_buffer_bytes.
    cbn [app drop]. rewrite addr_bytes_be32. unfold be32_bytes. cbn [map].
    rewrite !Z.mod_mod by lia. reflexivity. }
  split; [exact Hcur|]. split; [exact Hframe|].
  intros f Hin Hdata.
  destruct (Z.eq_dec a remote) as [Heq | Hne]; [exact Heq|exfalso].
  destruct (Hframe Hne) as (f' & Hs & Hc & _).
  rewrite Hs in Hin. destruct Hin as [<- | []].
  rewrite Hc in Hdata. discriminate.
Qed.

Lemma set_address_when_remote_differs_witness :
  let s := Sample.jump_flashing in
  let r := handleCanMsg 0
             (mkMsg (Args.canIdMcu (args (conf s)))
                (Js.Buffer_from [0x00; 0x42; 0x04; 0x80; 0x00; 0x00; 0x00; 0x04])) s in
  let remote := remote_address (Js.byte_of_Z 0) (Js.byte_of_Z 0) (Js.byte_of_Z 0)
                  (Js.byte_of_Z 4) in
  curAddr (r_app r) = 0x100
  /\ (0x100 <> remote ->
      exists f,
        sent (r_events r) = [f]
        /\ frame_cmd f = Some CMD_FLASH_SET_ADDRESS
        /\ map Js.u8 (drop 4 (data f)) = be32_bytes 0x100)
  /\ (forall f, In f (sent (r_events r)) ->
        frame_cmd f = Some CMD_FLASH_DATA -> 0x100 = remote).
Proof.
  apply (set_address_when_remote_differs 0 Sample.jump_flashing
           (Js.byte_of_Z 0) (Js.byte_of_Z 0x42) (Js.byte_of_Z 0x04) (Js.byte_of_Z 0x80)
           (Js.byte_of_Z 0) (Js.byte_of_Z 0) (Js.byte_of_Z 0) (Js.byte_of_Z 4) 0x100);
    vm_compute; reflexivity.
Defined.

(** ** Reading state: the byte count of a frame *)

Section ReadLoop.

Lemma read_loop_spec (data : list byte) n : forall i s,
  read_loop n i data s
  = set_curAddr (curAddr s + Z.of_nat n)
      (set_readDataArr
         (readDataArr s
          ++ map (fun k => Js.get data (4 + (i + Z.of_nat k))) (seq 0 n)) s).
Proof.
  induction n as [|n IH]; intros i s.
  - destruct s. unfold set_curAddr, set_readDataArr. cbn.
    rewrite app_nil_r, Z.add_0_r. reflexivity.
  - cbn [read_loop]. rewrite IH. destruct s as [c st er ks ck ix ca arr pi ts].
    unfold set_curAddr, set_readDataArr. cbn [conf state doErase memMapKeys
      memMapCurrentKey memMapCurrentDataIdx curAddr readDataArr pingInterval
      flashStartTs].
    f_equal; [lia|].
    rewrite <- app_assoc. f_equal. cbn [seq map app]. f_equal.
    + do 2 f_equal. lia.
    + rewrite <- seq_shift, map_map. apply map_ext. intros k. do 2 f_equal. lia.
Qed.

Lemma read_loop_cache d0 d1 d2 d3 d4 d5 d6 d7 s (n : nat) :
  (n <= 7)%nat ->
  read_loop n 0 [d0; d1; d2; d3; d4; d5; d6; d7] s
  = set_curAddr (curAddr s + Z.of_nat n)
      (set_readDataArr (readDataArr s ++ pushed d4 d5 d6 d7 n) s).
Proof.
  intros Hn. rewrite read_loop_spec. do 3 f_equal.
  destruct n as [|[|[|[|[|[|[|[|k]]]]]]]]; try lia; vm_compute; reflexivity.
Qed.

End ReadLoop.

(** The address guard fires exactly when the current address is odd and
    the address part of the frame is not 31. *)
Lemma read_address_guard_spec s addrPart :
  read_address_guard s addrPart = Z.odd (curAddr s) && negb (addrPart =? 31).
Proof.
  unfold read_address_guard. rewrite (Z.eqb_sym addrPart 31).
  destruct (31 =? addrPart); cbn [negb Js.of_bool].
  - unfold Js.and. rewrite (to_int32_small 0) by lia.
    rewrite Z.land_0_r, andb_false_r. reflexivity.
  - change 1 with (2 ^ 1 - 1). rewrite (and_low_bits (curAddr s) 1) by lia.
    change (2 ^ 1) with 2. rewrite Zmod_odd, andb_true_r.
    destruct (Z.odd (curAddr s)); reflexivity.
Qed.

Lemma pushed_length d4 d5 d6 d7 n : length (pushed d4 d5 d6 d7 n) = n.
Proof.
  unfold pushed. rewrite length_app, length_map, length_take, repeat_length.
  cbn [length]. lia.
Qed.

(** The whole-flash read of one [FLASH_READ_DATA] frame that passes the
    address guard: the cached bytes and the new address, and then
    either the end of the read or the next request. *)
Lemma handle_reading_cache now s d0 d1 d2 d3 d4 d5 d6 d7 :
  doVerify (conf s) = false ->
  read_address_guard s (Js.u8 d3 mod 32) = false ->
  let n := Z.to_nat (Js.u8 d3 / 32) in
  let s' := set_curAddr (curAddr s + Z.of_nat n)
              (set_readDataArr (readDataArr s ++ pushed d4 d5 d6 d7 n) s) in
  let pre := (if Args.verbose (args (conf s))
              then [Console (GotFlashDataFor (curAddr s))] else [])
             ++ progressIncrement s (Js.u8 d3 / 32) in
  handle_reading now [d0; d1; d2; d3; d4; d5; d6; d7] d3 CMD_FLASH_READ_DATA s
  = if reached_max s' then mkResult s' (pre ++ readDone now s') Returned
    else mkResult s'
           (pre ++ [Send (to_mcu s' (command_buffer s' CMD_FLASH_READ
                                       (addr_bytes (curAddr s'))))])
           Returned.
Proof.
  intros Hver Hguard n s' pre. unfold handle_reading.
  change (CMD_FLASH_READ_DATA =? CMD_FLASH_DONE_VERIFY) with false.
  change (CMD_FLASH_READ_DATA =? CMD_FLASH_READ_DATA) with true.
  cbn iota. rewrite and_31, Hguard, Hver, byteCount_eq.
  fold n. rewrite read_loop_cache.
  - reflexivity.
  - subst n. pose proof (byteCount_range d3) as Hr. rewrite byteCount_eq in Hr. lia.
Qed.

(** C10. The byte count in bits 7..5 of the fragment byte is used as
    it comes, 0 to 7, never compared with 4. In the whole-flash read, a
    [FLASH_READ_DATA] frame that passes the address guard appends
    [byteCount] entries to the read buffer, the delivered bytes 4..7
    first and then [undefined] for every index past the eight-byte
    payload, and the current address advances by the full [byteCount].
    In Flashing, a [FLASH_READY] frame advances both cursors by
    [byteCount] before the write step. *)
Theorem byte_count_not_validated
    (now : Z) (s : FlashApp) (d0 d1 d2 d3 d4 d5 d6 d7 : byte) :
  256 * Js.u8 d0 + Js.u8 d1 = Args.mcuid (args (conf s)) ->
  let byteCount := Js.u8 d3 / 32 in
  let r := handleCanMsg now
             (mkMsg (Args.canIdMcu (args (conf s))) [d0; d1; d2; d3; d4; d5; d6; d7]) s in
  0 <= byteCount <= 7
  /\ (state s = STATE_READING ->
      doVerify (conf s) = false ->
      Js.u8 d2 = CMD_FLASH_READ_DATA ->
      read_address_guard s (Js.u8 d3 mod 32) = false ->
      curAddr (r_app r) = curAddr s + byteCount
      /\ readDataArr (r_app r)
         = readDataArr s
           ++ map Some (take (Z.to_nat byteCount) [d4; d5; d6; d7])
           ++ repeat None (Z.to_nat byteCount - 4))
  /\ (state s = STATE_FLASHING ->
      Js.u8 d2 = CMD_FLASH_READY ->
      r = after (progressIncrement s byteCount)
            (onFlashReady d4 d5 d6 d7
               (set_memMapCurrentDataIdx (memMapCurrentDataIdx s + byteCount)
                  (set_curAddr (curAddr s + byteCount) s)))).
Proof.
  intros Hid byteCount r. subst r.
  pose proof (byteCount_range d3) as Hr. rewrite byteCount_eq in Hr.
  fold byteCount in Hr. split; [exact Hr|].
  rewrite handleCanMsg_dispatch by exact Hid. split.
  - intros Hst Hver Hcmd Hguard. rewrite Hst, Hcmd.
    rewrite handle_reading_cache by assumption. fold byteCount.
    destruct (reached_max _);
      cbn [r_app set_curAddr set_readDataArr curAddr readDataArr];
      (split; [rewrite Z2Nat.id by lia; reflexivity|reflexivity]).
  - intros Hst Hcmd. rewrite Hst. unfold handle_flashing. rewrite Hcmd.
    change (CMD_FLASH_READY =? CMD_FLASH_DATA_ERROR) with false.
    change (CMD_FLASH_READY =? CMD_FLASH_ADDRESS_ERROR) with false.
    change (CMD_FLASH_READY =? CMD_FLASH_READY) with true.
    cbn iota. rewrite byteCount_eq. reflexivity.
Qed.

Lemma byte_count_not_validated_witness :
  let s := Sample.reading_app in
  let r := handleCanMsg 0
             (mkMsg (Args.canIdMcu (args (conf s)))
                (Js.Buffer_from [0x00; 0x42; 0x48; 0xE0; 0x11; 0x22; 0x33; 0x44])) s in
  curAddr (r_app r) = 7
  /\ readDataArr (r_app r)
     = [ Some (Js.byte_of_Z 0x11); Some (Js.byte_of_Z 0x22); Some (Js.byte_of_Z 0x33);
         Some (Js.byte_of_Z 0x44); None; None; None ].
Proof.
  pose proof (byte_count_not_validated 0 Sample.reading_app
           (Js.byte_of_Z 0) (Js.byte_of_Z 0x42) (Js.byte_of_Z 0x48) (Js.byte_of_Z 0xE0)
           (Js.byte_of_Z 0x11) (Js.byte_of_Z 0x22) (Js.byte_of_Z 0x33)
           (Js.byte_of_Z 0x44) eq_refl)
    as (_ & Hread & _).
  exact (Hread eq_refl eq_refl eq_refl eq_refl).
Defined.

(** C1, evaluated. In Reading with current address 0, a
    [FLASH_READ_DATA] frame whose address part is 5 is not rejected: its
    four bytes are cached, the address advances to 4 and the next
    [FLASH_READ] is sent; no [START_APP]. *)
Theorem read_address_check_misses_mismatch :
  let s := Sample.reading_app in
  let r := handleCanMsg 0 (Sample.from_mcu 0x48 0x85 [0x11; 0x22; 0x33; 0x44]) s in
  Z.land (curAddr s) 0x1F <> Z.land 0x85 0x1F
  /\ curAddr (r_app r) = 4
  /\ readDataArr (r_app r)
     = [ Some (Js.byte_of_Z 0x11); Some (Js.byte_of_Z 0x22); Some (Js.byte_of_Z 0x33);
         Some (Js.byte_of_Z 0x44) ]
  /\ map (fun f => map Js.u8 (data f)) (sent (r_events r))
     = [[0x00; 0x42; CMD_FLASH_READ; 0; 0; 0; 0; 4]]
  /\ r_outcome r = Returned.
Proof.
  vm_compute. repeat split; try reflexivity. discriminate.
Qed.

(** ** Whole-flash read sessions *)

Section ReadMode.

Variable c : Config.
Hypothesis c_read : doRead c = true.
Hypothesis c_verify : doVerify c = false.
Hypothesis c_empty : memMap c = [].

Lemma handle_init_read_inv now d4 d5 d6 d7 cmd s :
  read_inv c s -> read_inv c (r_app (handle_init now d4 d5 d6 d7 cmd s)).
Proof.
  intros (Hc & Hst & Hlen). unfold handle_init, unexpected.
  rewrite Hc, c_read.
  destruct (cmd =? CMD_BOOTLOADER_START).
  { destruct (deviceSignature c) as [[s0 s1] s2].
    destruct (_ || _); [now repeat split|].
    destruct (_ && _); [now repeat split|].
    destruct (pingInterval s); now repeat split. }
  destruct (cmd =? CMD_FLASH_READY); [now repeat split|].
  destruct (cmd =? CMD_FLASH_ADDRESS_ERROR); [|now repeat split].
  destruct (match Args.r (args c) with Some (Num _) => _ | _ => _ end).
  now repeat split.
Qed.

Lemma handle_reading_read_inv now d0 d1 d2 d3 d4 d5 d6 d7 cmd s :
  read_inv c s ->
  read_inv c (r_app (handle_reading now [d0; d1; d2; d3; d4; d5; d6; d7] d3 cmd s)).
Proof.
  intros (Hc & Hst & Hlen).
  destruct (Z.eq_dec cmd CMD_FLASH_READ_DATA) as [-> | Hcmd].
  - destruct (read_address_guard s (Js.u8 d3 mod 32)) eqn:Hg.
    + unfold handle_reading.
      change (CMD_FLASH_READ_DATA =? CMD_FLASH_DONE_VERIFY) with false.
      change (CMD_FLASH_READ_DATA =? CMD_FLASH_READ_DATA) with true.
      cbn iota. rewrite and_31, Hg. now repeat split.
    + rewrite handle_reading_cache by (rewrite ?Hc; assumption).
      assert (Hinv : read_inv c
                (set_curAddr (curAddr s + Z.of_nat (Z.to_nat (Js.u8 d3 / 32)))
                   (set_readDataArr
                      (readDataArr s
                       ++ pushed d4 d5 d6 d7 (Z.to_nat (Js.u8 d3 / 32))) s))).
      { repeat split; [exact Hc|exact Hst|].
        cbn [set_curAddr set_readDataArr readDataArr curAddr].
        rewrite length_app, pushed_length. lia. }
      destruct (reached_max _); exact Hinv.
  - unfold handle_reading, unexpected, exit.
    destruct (cmd =? CMD_FLASH_DONE_VERIFY).
    { unfold readForVerify, block_exhausted.
      cbn [conf memMapCurrentKey set_memMapCurrentDataIdx set_memMapCurrentKey
           set_memMapKeys memMap_get memMapKeys].
      rewrite Hc, c_empty. cbn [MemoryMap_keys map]. now repeat split. }
    destruct (Z.eqb_spec cmd CMD_FLASH_READ_DATA); [contradiction|].
    destruct (cmd =? CMD_FLASH_READ_ADDRESS_ERROR).
    { rewrite Hc, c_verify. now repeat split. }
    destruct (cmd =? CMD_START_APP); now repeat split.
Qed.

Lemma step_read_inv i s : read_inv c s -> read_inv c (r_app (step i s)).
Proof.
  intros Hinv. destruct i as [now msg|].
  - cbn [step]. unfold handleCanMsg.
    destruct (msg_data msg)
      as [|d0 [|d1 [|d2 [|d3 [|d4 [|d5 [|d6 [|d7 [|d8 rest]]]]]]]]];
      try exact Hinv.
    destruct (negb _); [exact Hinv|].
    destruct (negb _); [exact Hinv|].
    destruct (state s) eqn:Hst.
    + apply handle_init_read_inv. exact Hinv.
    + destruct Hinv as (_ & Hne & _). contradiction.
    + apply handle_reading_read_inv. exact Hinv.
  - cbn [step]. unfold ping_tick. destruct (pingInterval s); exact Hinv.
Qed.

Lemma run_read_inv inputs : forall s,
  read_inv c s -> read_inv c (r_app (run inputs s)).
Proof.
  induction inputs as [|i rest IH]; intros s Hinv; [exact Hinv|].
  cbn [run]. pose proof (step_read_inv i s Hinv) as Hstep.
  destruct (r_outcome (step i s)); [|exact Hstep|exact Hstep].
  cbn [after r_app]. apply IH. exact Hstep.
Qed.

End ReadMode.

Lemma new_FlashApp_read_inv a signature flashSize image x :
  Args.r a = Some x ->
  let s0 := new_FlashApp a signature flashSize image in
  doRead (conf s0) = true /\ doVerify (conf s0) = false /\ memMap (conf s0) = []
  /\ args (conf s0) = a /\ read_inv (conf s0) s0.
Proof.
  intros Hr. unfold new_FlashApp. rewrite Hr. cbn.
  repeat split. discriminate.
Qed.

(** C6, as the code has it. In a read session with maximum address
    [R > 0], take the [FLASH_READ_DATA] frame (count [n], passing the
    address guard) that arrives while the current address is still at
    most [R]. If it lifts the address above [R], the handler writes out
    one buffer and sends [START_APP]; the buffer has as many bytes as
    the new current address, at least [R + 1] and at most [R + n], with
    [n <= 7]. Otherwise nothing is written out and the next
    [FLASH_READ] is sent. *)
Theorem read_limit_buffer_size
    (a : Args.t) (signature : Z * Z * Z) (flashSize : Z) (image : MemoryMap)
    (inputs : list input) (R now : Z) (d0 d1 d2 d3 d4 d5 d6 d7 : byte) :
  Args.r a = Some (Num R) ->
  0 < R ->
  let s := r_app (run inputs (new_FlashApp a signature flashSize image)) in
  state s = STATE_READING ->
  256 * Js.u8 d0 + Js.u8 d1 = Args.mcuid a ->
  Js.u8 d2 = CMD_FLASH_READ_DATA ->
  read_address_guard s (Js.u8 d3 mod 32) = false ->
  curAddr s <= R ->
  let n := Js.u8 d3 / 32 in
  let r := handleCanMsg now (mkMsg (Args.canIdMcu a) [d0; d1; d2; d3; d4; d5; d6; d7]) s in
  curAddr (r_app r) = curAddr s + n
  /\ 0 <= n <= 7
  /\ if R <? curAddr s + n then
       exists buf f,
         hex_outputs (r_events r) = [buf]
         /\ Z.of_nat (length buf) = curAddr (r_app r)
         /\ R + 1 <= Z.of_nat (length buf) <= R + n
         /\ sent (r_events r) = [f]
         /\ frame_cmd f = Some CMD_START_APP
     else
       exists f,
         hex_outputs (r_events r) = []
         /\ sent (r_events r) = [f]
         /\ frame_cmd f = Some CMD_FLASH_READ.
Proof.
  intros Hr HR s Hst Hid Hcmd Hguard Hcur n r.
  destruct (new_FlashApp_read_inv a signature flashSize image (Num R) Hr)
    as (Hread & Hver & Hempty & Hargs & Hinv0).
  pose proof (run_read_inv _ Hread Hver Hempty inputs _ Hinv0) as (Hconf & _ & Hlen).
  fold s in Hconf, Hlen.
  assert (Ha : args (conf s) = a) by (rewrite Hconf; exact Hargs).
  assert (Hv : doVerify (conf s) = false) by (rewrite Hconf; exact Hver).
  pose proof (byteCount_range d3) as Hn. rewrite byteCount_eq in Hn. fold n in Hn.
  subst r. rewrite <- Ha in Hid |- *.
  rewrite handleCanMsg_dispatch by exact Hid. rewrite Hst, Hcmd.
  rewrite handle_reading_cache by assumption. fold n.
  rewrite Z2Nat.id by lia.
  set (s' := set_curAddr _ _).
  assert (Hmax : reached_max s' = (R <? curAddr s + n)).
  { unfold reached_max. subst s'. cbn [conf set_curAddr set_readDataArr curAddr].
    rewrite Ha, Hr. destruct (Z.ltb_spec 0 R); [reflexivity|lia]. }
  rewrite Hmax. split; [destruct (R <? curAddr s + n); reflexivity|].
  split; [exact Hn|].
  destruct (Z.ltb_spec R (curAddr s + n)) as [Hlt | Hge].
  - exists (Uint8Array_from (readDataArr s')),
           (to_mcu s' (command_buffer s' CMD_START_APP [0; 0; 0; 0])).
    cbn [r_events r_app].
    assert (Hl : Z.of_nat (length (Uint8Array_from (readDataArr s'))) = curAddr s + n).
    { unfold Uint8Array_from. rewrite length_map. subst s'.
      cbn [set_curAddr set_readDataArr readDataArr].
      rewrite length_app, pushed_length. lia. }
    split; [|split; [exact Hl|split; [lia|split]]].
    + unfold readDone, progressStop, progressIncrement.
      destruct (Args.verbose _), (doProgress _); reflexivity.
    + unfold readDone, progressStop, progressIncrement.
      destruct (Args.verbose _), (doProgress _); reflexivity.
    + apply frame_cmd_command.
  - eexists. cbn [r_events]. split; [|split].
    + unfold progressIncrement.
      destruct (Args.verbose _), (doProgress _); reflexivity.
    + unfold progressIncrement.
      destruct (Args.verbose _), (doProgress _); reflexivity.
    + apply frame_cmd_command.
Qed.

Lemma read_limit_buffer_size_witness :
  let s := r_app (run [Recv 0 (Sample.from_mcu 0x0B 0 [0x00; 0x00; 0x77; 0xFF]);
                       Recv 0 (Sample.from_mcu 0x48 0x80 [1; 2; 3; 4]);
                       Recv 0 (Sample.from_mcu 0x48 0x84 [5; 6; 7; 8])]
                 (new_FlashApp Sample.read_args Sample.m328p 32768 [])) in
  let r := handleCanMsg 0
             (mkMsg (Args.canIdMcu Sample.read_args)
                (Js.Buffer_from [0x00; 0x42; 0x48; 0x88; 9; 10; 11; 12])) s in
  exists buf, hex_outputs (r_events r) = [buf] /\ Z.of_nat (length buf) = 12.
Proof.
  pose proof (read_limit_buffer_size Sample.read_args Sample.m328p 32768 []
           [Recv 0 (Sample.from_mcu 0x0B 0 [0x00; 0x00; 0x77; 0xFF]);
            Recv 0 (Sample.from_mcu 0x48 0x80 [1; 2; 3; 4]);
            Recv 0 (Sample.from_mcu 0x48 0x84 [5; 6; 7; 8])]
           10 0
           (Js.byte_of_Z 0) (Js.byte_of_Z 0x42) (Js.byte_of_Z 0x48) (Js.byte_of_Z 0x88)
           (Js.byte_of_Z 9) (Js.byte_of_Z 10) (Js.byte_of_Z 11) (Js.byte_of_Z 12)
           eq_refl ltac:(lia) eq_refl eq_refl eq_refl eq_refl ltac:(vm_compute; discriminate))
    as (Hcur & _ & Hfin).
  cbv zeta in Hcur, Hfin.
  change (10 <? _) with true in Hfin.
  destruct Hfin as (buf & f & Hhex & Hlen & _).
  exists buf. split; [exact Hhex|].
  rewrite Hlen. exact Hcur.
Defined.

(** C6, as stated, fails: with maximum address 10 and three frames of
    four bytes (and no read address error), the buffer written out has
    12 bytes, not 11. *)
Lemma read_limit_buffer_is_not_R_plus_1 :
  let r := run [Recv 0 (Sample.from_mcu 0x0B 0 [0x00; 0x00; 0x77; 0xFF]);
                Recv 0 (Sample.from_mcu 0x48 0x80 [1; 2; 3; 4]);
                Recv 0 (Sample.from_mcu 0x48 0x84 [5; 6; 7; 8]);
                Recv 0 (Sample.from_mcu 0x48 0x88 [9; 10; 11; 12])]
             Sample.read_app in
  Args.r (args (conf Sample.read_app)) = Some (Num 10)
  /\ map (fun buf => Z.of_nat (length buf)) (hex_outputs (r_events r)) = [12]
  /\ ~ (forall buf, In buf (hex_outputs (r_events r)) -> Z.of_nat (length buf) = 10 + 1).
Proof.
  vm_compute. split; [reflexivity|]. split; [reflexivity|].
  intros H. specialize (H _ (or_introl eq_refl)). discriminate.
Qed.

(** ** How a handler call ends *)

Section Outcome.














End Outcome.

(** ** Reporting a verify failure *)

Section VerifyFailure.

Lemma calm_nil : calm [].
Proof. intros a []. Qed.

Lemma calm_app a b : calm a -> calm b -> calm (a ++ b).
Proof.
  intros Ha Hb x Hin. apply in_app_or in Hin.
  destruct Hin; [eapply Ha|eapply Hb]; eassumption.
Qed.

Lemma calm_cons ev evs :
  (forall a, ev <> Console (VerifyFailedAt a)) -> calm evs -> calm (ev :: evs).
Proof.
  intros Hev He x [Hx | Hx]; [eapply Hev|eapply He]; eassumption.
Qed.

Ltac calm :=
  unfold readDone, sendStartApp, sendSetFlashAddress, progressStart,
    progressIncrement, progressStop;
  repeat match goal with
         | |- context [if ?b then _ else _] => destruct b
         end;
  repeat first
    [ apply calm_nil
    | apply calm_app
    | apply calm_cons; [intros ?; discriminate|]
    | assumption ].

Lemma calm_readForVerify now s : calm (snd (readForVerify now s)).
Proof.
  unfold readForVerify.
  destruct (block_exhausted s); [destruct (memMapKeys s)|]; cbn [snd]; calm.
Qed.









End VerifyFailure.



(** The [TypeError] is within reach: with an empty image the write and
    the verify pass are over at once, and a [FLASH_READ_DATA] that
    still arrives finds no block to compare with. No exit code is
    passed to [exit] in that call. *)
Lemma empty_image_read_data_throws :
  let s := new_FlashApp Sample.flash_args Sample.m328p (32 * 1024) [] in
  let r := run [ Recv 0 (Sample.from_mcu 0x02 0 [0x1E; 0x95; 0x0F; 0x01]);
                 Recv 1 (Sample.from_mcu 0x04 0 [0; 0; 0; 0]);
                 Recv 2 (Sample.from_mcu 0x50 0 [0; 0; 0; 0]);
                 Recv 3 (Sample.from_mcu 0x48 0x20 [0xAA; 0; 0; 0]) ] s in
  r_outcome r = Threw
  /\ state (r_app r) = STATE_READING
  /\ verify_failures (r_events r) = [].
Proof. vm_compute. auto. Qed.

(** ** The ping timer *)

Section Pinger.

Lemma read_loop_pingInterval msgData n : forall i s,
  pingInterval (read_loop n i msgData s) = pingInterval s.
Proof.
  induction n as [|n IH]; intros i s; [reflexivity|].
  cbn [read_loop]. rewrite IH. reflexivity.
Qed.

Lemma verify_loop_pingInterval msgData n : forall i s,
  pingInterval (fst (verify_loop n i msgData s)) = pingInterval s.
Proof.
  induction n as [|n IH]; intros i s; [reflexivity|].
  cbn [verify_loop].
  destruct (memMap_get _ _) as [block|]; [|reflexivity].
  destruct (Js.get block _) as [b|].
  - destruct (differs _ _); [reflexivity|]. rewrite IH. reflexivity.
  - rewrite IH. reflexivity.
Qed.

Lemma readForVerify_pingInterval now s :
  pingInterval (fst (readForVerify now s)) = pingInterval s.
Proof.
  unfold readForVerify.
  destruct (block_exhausted s); [destruct (memMapKeys s)|]; reflexivity.
Qed.

Lemma onFlashReady_pingInterval d4 d5 d6 d7 s :
  pingInterval (r_app (onFlashReady d4 d5 d6 d7 s)) = pingInterval s.
Proof.
  unfold onFlashReady.
  destruct (block_exhausted s); [|now rewrite flash_next_app].
  destruct (memMapKeys s); [destruct (doVerify (conf s)); reflexivity|].
  cbn [after r_app]. now rewrite flash_next_app.
Qed.

(** No handler starts the timer: a cleared timer stays cleared. *)
Lemma step_pingInterval i s :
  pingInterval s = None -> pingInterval (r_app (step i s)) = None.
Proof.
  intros Hoff. destruct i as [now msg|]; cbn [step].
  - unfold handleCanMsg.
    destruct (msg_data msg)
      as [|d0 [|d1 [|d2 [|d3 [|d4 [|d5 [|d6 [|d7 [|d8 rest]]]]]]]]];
      try exact Hoff.
    destruct (negb _); [exact Hoff|].
    destruct (negb _); [exact Hoff|].
    destruct (state s).
    + unfold handle_init, unexpected.
      destruct (_ =? CMD_BOOTLOADER_START).
      { destruct (deviceSignature (conf s)) as [[s0 s1] s2].
        destruct (_ || _); [exact Hoff|].
        destruct (_ && _); [exact Hoff|].
        rewrite Hoff. exact Hoff. }
      destruct (_ =? CMD_FLASH_READY).
      { destruct (doRead (conf s)); [exact Hoff|].
        destruct (doErase s); [exact Hoff|].
        cbn [after r_app]. rewrite onFlashReady_pingInterval. exact Hoff. }
      destruct (_ =? CMD_FLASH_ADDRESS_ERROR); [|exact Hoff].
      destruct (doRead (conf s)); [|exact Hoff].
      destruct (match Args.r (args (conf s)) with Some (Num _) => _ | _ => _ end).
      exact Hoff.
    + unfold handle_flashing, unexpected, exit.
      destruct (_ =? CMD_FLASH_DATA_ERROR); [exact Hoff|].
      destruct (_ =? CMD_FLASH_ADDRESS_ERROR); [exact Hoff|].
      destruct (_ =? CMD_FLASH_READY).
      { cbn [after r_app]. rewrite onFlashReady_pingInterval. exact Hoff. }
      destruct (_ =? CMD_START_APP); exact Hoff.
    + unfold handle_reading, unexpected, exit.
      destruct (_ =? CMD_FLASH_DONE_VERIFY).
      { match goal with
        | |- context [readForVerify now ?s'] =>
            pose proof (readForVerify_pingInterval now s') as Hp;
            destruct (readForVerify now s') as [s'' evs]
        end.
        cbn [fst] in Hp. cbn [r_app]. rewrite Hp. exact Hoff. }
      destruct (_ =? CMD_FLASH_READ_DATA).
      { destruct (read_address_guard _ _); [exact Hoff|].
        destruct (doVerify (conf s)).
        - match goal with
          | |- context [verify_loop ?n ?i ?d s] =>
              pose proof (verify_loop_pingInterval d n i s) as Hv;
              destruct (verify_loop n i d s) as [s' [| |]]
          end; cbn [fst] in Hv.
          + pose proof (readForVerify_pingInterval now s') as Hp.
            destruct (readForVerify now s') as [s'' evs].
            cbn [fst] in Hp. cbn [r_app]. congruence.
          + cbn [r_app]. congruence.
          + cbn [r_app]. congruence.
        - destruct (reached_max _); cbn [r_app];
            rewrite read_loop_pingInterval; exact Hoff. }
      destruct (_ =? CMD_FLASH_READ_ADDRESS_ERROR).
      { destruct (doVerify (conf s)); exact Hoff. }
      destruct (_ =? CMD_START_APP); exact Hoff.
  - unfold ping_tick. rewrite Hoff. exact Hoff.
Qed.

(** With the timer cleared, no frame of a session is a [PING]. *)
Lemma run_no_ping inputs : forall s,
  pingInterval s = None ->
  forall f, In f (sent (r_events (run inputs s))) -> frame_cmd f <> Some CMD_PING.
Proof.
  induction inputs as [|i rest IH]; intros s Hoff f Hin; [destruct Hin|].
  cbn [run] in Hin.
  assert (Hstep : forall g, In g (sent (r_events (step i s))) ->
                    frame_cmd g <> Some CMD_PING).
  { intros g Hg. destruct i as [now msg|]; cbn [step] in Hg.
    - destruct (packed_ok_handleCanMsg now msg s g Hg) as [(c & -> & Hc) | [-> _]];
        [|discriminate].
      vm_compute in Hc. unfold CMD_PING.
      intuition (subst; discriminate).
    - unfold ping_tick in Hg. rewrite Hoff in Hg. destruct Hg. }
  destruct (r_outcome (step i s)).
  - cbn [after r_events] in Hin. rewrite sent_app in Hin.
    apply in_app_or in Hin. destruct Hin as [Hin | Hin]; [exact (Hstep f Hin)|].
    apply (IH (r_app (step i s))); [apply step_pingInterval; exact Hoff|exact Hin].
  - exact (Hstep f Hin).
  - exact (Hstep f Hin).
Qed.

End Pinger.

(** C9, as the code has it. The timer is cleared when a
    [BOOTLOADER_START] is accepted in Init (signature as expected,
    version as expected or forced), while the state is still Init; it
    is never started again, so from then on no [PING] frame is sent,
    whatever frames and ticks follow. A change of state does not clear
    it. *)
Theorem ping_stops_at_bootloader_start
    (now : Z) (s : FlashApp) (d0 d1 d2 d3 d4 d5 d6 d7 : byte) (inputs : list input) :
  state s = STATE_INIT ->
  256 * Js.u8 d0 + Js.u8 d1 = Args.mcuid (args (conf s)) ->
  Js.u8 d2 = CMD_BOOTLOADER_START ->
  deviceSignature (conf s) = (Js.u8 d4, Js.u8 d5, Js.u8 d6) ->
  Js.u8 d7 = BOOTLOADER_CMD_VERSION \/ Args.F (args (conf s)) = true ->
  let r := handleCanMsg now
             (mkMsg (Args.canIdMcu (args (conf s))) [d0; d1; d2; d3; d4; d5; d6; d7]) s in
  state (r_app r) = STATE_INIT
  /\ pingInterval (r_app r) = None
  /\ forall f, In f (sent (r_events (run inputs (r_app r)))) ->
       frame_cmd f <> Some CMD_PING.
Proof.
  intros Hst Hid Hcmd Hsig Hver r.
  assert (Hr : state (r_app r) = STATE_INIT /\ pingInterval (r_app r) = None).
  { subst r. rewrite handleCanMsg_dispatch by exact Hid. rewrite Hst.
    unfold handle_init. rewrite Hcmd, Hsig.
    change (CMD_BOOTLOADER_START =? CMD_BOOTLOADER_START) with true. cbn iota.
    rewrite !Z.eqb_refl. cbn [negb orb].
    assert (Hgo : negb (Js.u8 d7 =? BOOTLOADER_CMD_VERSION)
                  && negb (Args.F (args (conf s))) = false).
    { destruct Hver as [-> | ->]; [reflexivity|apply andb_false_r]. }
    rewrite Hgo. destruct (pingInterval s) eqn:Hp; cbn [r_app]; auto. }
  destruct Hr as [Hinit Hoff]. split; [exact Hinit|]. split; [exact Hoff|].
  apply run_no_ping. exact Hoff.
Qed.

Lemma ping_stops_at_bootloader_start_witness :
  let r := handleCanMsg 0
             (mkMsg (Args.canIdMcu (args (conf Sample.flash_app)))
                (Js.Buffer_from [0x00; 0x42; 0x02; 0x00; 0x1E; 0x95; 0x0F; 0x01]))
             Sample.flash_app in
  pingInterval Sample.flash_app = Some 75
  /\ state (r_app r) = STATE_INIT
  /\ pingInterval (r_app r) = None
  /\ forall f, In f (sent (r_events (run [Tick; Tick] (r_app r)))) ->
       frame_cmd f <> Some CMD_PING.
Proof.
  split; [reflexivity|].
  apply (ping_stops_at_bootloader_start 0 Sample.flash_app
           (Js.byte_of_Z 0) (Js.byte_of_Z 0x42) (Js.byte_of_Z 0x02) (Js.byte_of_Z 0)
           (Js.byte_of_Z 0x1E) (Js.byte_of_Z 0x95) (Js.byte_of_Z 0x0F)
           (Js.byte_of_Z 0x01) [Tick; Tick]);
    try (vm_compute; reflexivity).
  left. vm_compute. reflexivity.
Defined.

(** C9, as stated, fails: a [FLASH_READY] in Init moves the session to
    Flashing with the timer still running, and the next tick sends a
    [PING]. *)
Lemma ping_sent_after_leaving_init :
  let r := step (Recv 0 (Sample.from_mcu 0x04 0 [0; 0; 0; 0])) Sample.flash_app in
  state Sample.flash_app = STATE_INIT
  /\ state (r_app r) = STATE_FLASHING
  /\ pingInterval (r_app r) = Some 75
  /\ map (fun f => map Js.u8 (data f)) (sent (r_events (step Tick (r_app r))))
     = [[0x00; 0x42; CMD_PING; 0; 0; 0; 0; 0]].
Proof.
  vm_compute. repeat split; reflexivity.
Qed.

(** * Further properties *)

(** ** One well-formed frame per call *)

Section CallFacts.

Lemma well_formed_command s s' cmd (p : list Z) :
  conf s' = conf s -> length p = 4%nat ->
  well_formed_frame s (to_mcu s' (command_buffer s' cmd p)).
Proof.
  intros Hc Hp. unfold well_formed_frame, to_mcu. cbn [id ext rtr data].
  rewrite Hc. repeat split.
  - unfold command_buffer, Js.Buffer_from. rewrite length_map, length_app, Hp.
    reflexivity.
  - unfold command_buffer, Js.Buffer_from. cbn [app map take].
    rewrite !u8_byte_of_Z, Hc. reflexivity.
Qed.

Lemma read_loop_fields msgData n : forall i s,
  conf (read_loop n i msgData s) = conf s
  /\ state (read_loop n i msgData s) = state s
  /\ doErase (read_loop n i msgData s) = doErase s.
Proof.
  induction n as [|n IH]; intros i s; [repeat split|].
  cbn [read_loop]. destruct (IH (i + 1)
    (set_curAddr (curAddr s + 1)
       (set_readDataArr (readDataArr s ++ [Js.get msgData (4 + i)]) s)))
    as (-> & -> & ->).
  repeat split.
Qed.

Lemma verify_loop_fields msgData n : forall i s,
  conf (fst (verify_loop n i msgData s)) = conf s
  /\ state (fst (verify_loop n i msgData s)) = state s
  /\ doErase (fst (verify_loop n i msgData s)) = doErase s.
Proof.
  induction n as [|n IH]; intros i s; [repeat split|].
  cbn [verify_loop].
  destruct (memMap_get _ _) as [block|]; [|repeat split].
  pose proof (IH (i + 1)
    (set_memMapCurrentDataIdx (memMapCurrentDataIdx s + 1)
       (set_curAddr (curAddr s + 1) s))) as Hn.
  destruct (Js.get block _) as [b|]; [destruct (differs _ _)|];
    try exact Hn; repeat split.
Qed.

Lemma readForVerify_fields now s :
  conf (fst (readForVerify now s)) = conf s
  /\ state (fst (readForVerify now s)) = state s
  /\ doErase (fst (readForVerify now s)) = doErase s.
Proof.
  unfold readForVerify.
  destruct (block_exhausted s); [destruct (memMapKeys s)|]; repeat split.
Qed.

(** [readForVerify] sends one frame: the next read request, or
    [START_APP] once the keys are used up. *)
Lemma readForVerify_sent now s :
  exists cmd p,
    sent (snd (readForVerify now s))
    = [to_mcu (fst (readForVerify now s))
         (command_buffer (fst (readForVerify now s)) cmd p)]
    /\ length p = 4%nat
    /\ (cmd = CMD_FLASH_READ \/ cmd = CMD_START_APP).
Proof.
  unfold readForVerify.
  destruct (block_exhausted s); [destruct (memMapKeys s)|]; cbn [fst snd].
  - exists CMD_START_APP, [0; 0; 0; 0].
    rewrite !sent_app, sent_progressStop. auto.
  - eexists CMD_FLASH_READ, _. split; [reflexivity|]. auto.
  - eexists CMD_FLASH_READ, _. split; [reflexivity|]. auto.
Qed.

Lemma flash_next_facts remote s :
  let r := flash_next remote s in
  sent (r_events r) = []
  \/ exists f c,
       sent (r_events r) = [f]
       /\ well_formed_frame s f
       /\ frame_cmd f = Some c
       /\ (c = CMD_FLASH_SET_ADDRESS \/ c = CMD_FLASH_DATA).
Proof.
  cbn zeta. destruct (Z.eq_dec (curAddr s) remote) as [Heq | Hne].
  - destruct (memMap_get (memMap (conf s)) (memMapCurrentKey s)) as [block|] eqn:Hb.
    + destruct (flash_next_data remote s block Heq Hb) as (buf & -> & Hbuf).
      right. exists (to_mcu s buf), CMD_FLASH_DATA. cbn [r_events].
      assert (Hlen : length buf = 8%nat).
      { rewrite <- (length_map Js.u8), Hbuf, length_app. cbn [length].
        rewrite length_app, length_map, repeat_length.
        pose proof (chunk_at_length block (memMapCurrentDataIdx s)). lia. }
      split; [|split; [|split; [|auto]]].
      * rewrite sent_app. destruct (Args.verbose _); reflexivity.
      * unfold well_formed_frame, to_mcu. cbn [id ext rtr data].
        repeat split; [exact Hlen|].
        rewrite <- firstn_map, Hbuf. reflexivity.
      * rewrite frame_cmd_map. cbn [to_mcu data]. rewrite Hbuf. reflexivity.
    + left. unfold flash_next. rewrite Heq, Z.eqb_refl, <- Heq, Hb. reflexivity.
  - rewrite flash_next_set_address by exact Hne. right.
    eexists _, CMD_FLASH_SET_ADDRESS. cbn [r_events].
    rewrite sent_app, sent_sendSetFlashAddress. cbn [sent omap app].
    split; [reflexivity|]. split; [|split; [apply frame_cmd_command|auto]].
    apply well_formed_command; reflexivity.
Qed.

Lemma onFlashReady_facts d4 d5 d6 d7 s :
  let r := onFlashReady d4 d5 d6 d7 s in
  conf (r_app r) = conf s
  /\ doErase (r_app r) = doErase s
  /\ (sent (r_events r) = [] /\ state (r_app r) = state s
      \/ exists f c,
           sent (r_events r) = [f]
           /\ well_formed_frame s f
           /\ frame_cmd f = Some c
           /\ ((c = CMD_FLASH_SET_ADDRESS /\ state (r_app r) = state s)
               \/ (c = CMD_FLASH_DATA /\ state (r_app r) = state s)
               \/ (c = CMD_FLASH_DONE /\ state (r_app r) = state s
                   /\ doVerify (conf s) = false)
               \/ (c = CMD_FLASH_DONE_VERIFY /\ state (r_app r) = STATE_READING
                   /\ doVerify (conf s) = true))).
Proof.
  cbn zeta. unfold onFlashReady.
  assert (Hnext : forall s1 pre,
            conf s1 = conf s -> doErase s1 = doErase s -> state s1 = state s ->
            sent pre = [] ->
            let r := after pre (flash_next (remote_address d4 d5 d6 d7) s1) in
            conf (r_app r) = conf s
            /\ doErase (r_app r) = doErase s
            /\ (sent (r_events r) = [] /\ state (r_app r) = state s
                \/ exists f c,
                     sent (r_events r) = [f]
                     /\ well_formed_frame s f
                     /\ frame_cmd f = Some c
                     /\ ((c = CMD_FLASH_SET_ADDRESS /\ state (r_app r) = state s)
                         \/ (c = CMD_FLASH_DATA /\ state (r_app r) = state s)
                         \/ (c = CMD_FLASH_DONE /\ state (r_app r) = state s
                             /\ doVerify (conf s) = false)
                         \/ (c = CMD_FLASH_DONE_VERIFY
                             /\ state (r_app r) = STATE_READING
                             /\ doVerify (conf s) = true)))).
  { intros s1 pre Hc He Hs Hpre. cbn zeta. cbn [after r_app r_events].
    rewrite flash_next_app, sent_app, Hpre. cbn [app].
    split; [exact Hc|]. split; [exact He|].
    destruct (flash_next_facts (remote_address d4 d5 d6 d7) s1)
      as [-> | (f & c & -> & Hwf & Hcmd & Hc')]; [left; auto|].
    right. exists f, c. split; [reflexivity|].
    split; [unfold well_formed_frame in *; rewrite <- Hc; exact Hwf|].
    split; [exact Hcmd|]. destruct Hc' as [-> | ->]; auto. }
  destruct (block_exhausted s).
  - destruct (memMapKeys s) as [|key rest].
    + destruct (doVerify (conf s)) eqn:Hv; cbn [r_app r_events];
        (split; [reflexivity|]); (split; [reflexivity|]); right.
      * eexists _, CMD_FLASH_DONE_VERIFY.
        rewrite !sent_app, sent_progressStop. cbn [sent omap app].
        split; [reflexivity|]. split; [apply well_formed_command; reflexivity|].
        split; [apply frame_cmd_command|]. auto 6.
      * eexists _, CMD_FLASH_DONE.
        rewrite !sent_app, sent_progressStop. cbn [sent omap app].
        split; [reflexivity|]. split; [apply well_formed_command; reflexivity|].
        split; [apply frame_cmd_command|]. auto 6.
    + apply Hnext; try reflexivity.
      destruct (memMapCurrentKey s); [reflexivity|apply sent_progressStart].
  - apply (Hnext s []); reflexivity.
Qed.

End CallFacts.

Section CallFactsOfHandlers.

Lemma call_facts_none s s' evs o :
  conf s' = conf s -> (doErase s' = true -> doErase s = true) ->
  state s' = state s -> sent evs = [] ->
  call_facts s (mkResult s' evs o).
Proof.
  intros Hc He Hst Hs. split; [exact Hc|]. split; [exact He|].
  cbn [r_app]. split; [rewrite Hst; lia|]. left. exact Hs.
Qed.

Lemma from_write_step_rank s : from_write_step s -> state_rank (state s) <= 1.
Proof. intros [-> | [-> _]]; cbn; lia. Qed.

Lemma command_origin_rank s s' c :
  command_origin s s' c -> state_rank (state s) <= state_rank (state s').
Proof.
  unfold command_origin.
  intros [(_ & -> & ->) | [(_ & -> & -> & _) | [(_ & [(-> & -> & _) | (Hw & ->)])
    | [(_ & Hw & ->) | [(_ & Hw & -> & _) | [(_ & Hw & -> & _)
    | [(_ & -> & _) | (_ & -> & ->)]]]]]]];
    try apply from_write_step_rank in Hw; cbn in *; try lia.
  destruct (state s); cbn; lia.
Qed.

Lemma call_facts_command s s' s'' evs o cmd (p : list Z) :
  conf s' = conf s -> (doErase s' = true -> doErase s = true) ->
  sent evs = [to_mcu s'' (command_buffer s'' cmd p)] ->
  conf s'' = conf s -> length p = 4%nat ->
  command_origin s s' (cmd mod 256) ->
  call_facts s (mkResult s' evs o).
Proof.
  intros Hc He Hs Hc'' Hp Ho. split; [exact Hc|]. split; [exact He|].
  split; [exact (command_origin_rank _ _ _ Ho)|]. right.
  exists (to_mcu s'' (command_buffer s'' cmd p)), (cmd mod 256). cbn [r_events r_app].
  split; [exact Hs|]. split; [apply well_formed_command; assumption|].
  split; [apply frame_cmd_command|exact Ho].
Qed.

(** The frames of the event lists the handlers build. *)
Ltac sent_of :=
  unfold readDone, sendStartApp, sendSetFlashAddress, progressStart,
    progressIncrement, progressStop;
  repeat match goal with
         | |- context [if ?b then _ else _] => destruct b
         end;
  reflexivity.

Lemma call_facts_write_step s s1 pre d4 d5 d6 d7 :
  conf s1 = conf s -> doErase s1 = doErase s ->
  from_write_step s -> state s1 = STATE_FLASHING -> sent pre = [] ->
  call_facts s (after pre (onFlashReady d4 d5 d6 d7 s1)).
Proof.
  intros Hc He Hw Hs Hpre.
  destruct (onFlashReady_facts d4 d5 d6 d7 s1) as (Hc' & He' & Hf).
  cbn zeta in *. unfold call_facts. cbn [after r_app r_events].
  rewrite sent_app, Hpre. cbn [app].
  split; [congruence|]. split; [congruence|].
  pose proof (from_write_step_rank s Hw) as Hrank.
  split.
  { destruct Hf as [[_ Hs'] | (f & c & _ & _ & _ & Ho)].
    - rewrite Hs', Hs. cbn. lia.
    - destruct Ho as [[_ Hs'] | [[_ Hs'] | [(_ & Hs' & _) | (_ & Hs' & _)]]];
        rewrite Hs', ?Hs; cbn; lia. }
  destruct Hf as [[-> _] | (f & c & -> & Hwf & Hcmd & Ho)]; [left; reflexivity|].
  right. exists f, c. split; [reflexivity|].
  split; [unfold well_formed_frame in *; rewrite <- Hc; exact Hwf|].
  split; [exact Hcmd|]. unfold command_origin. rewrite <- Hc.
  destruct Ho as [[-> Hst] | [[-> Hst] | [(-> & Hst & Hv) | (-> & Hst & Hv)]]].
  - right. right. left. split; [reflexivity|]. right. split; [exact Hw|congruence].
  - do 3 right. left. split; [reflexivity|]. split; [exact Hw|congruence].
  - do 4 right. left. repeat split; [exact Hw|congruence|exact Hv].
  - do 5 right. left. repeat split; [exact Hw|exact Hst|exact Hv].
Qed.

Lemma handle_init_facts now d4 d5 d6 d7 cmd s :
  state s = STATE_INIT -> call_facts s (handle_init now d4 d5 d6 d7 cmd s).
Proof.
  intros Hst. unfold handle_init, unexpected.
  destruct (cmd =? CMD_BOOTLOADER_START).
  { destruct (deviceSignature (conf s)) as [[s0 s1] s2].
    destruct (_ || _); [apply call_facts_none; auto|].
    destruct (_ && _); [apply call_facts_none; auto|].
    destruct (pingInterval s).
    all: eapply (call_facts_command _ _ _ _ _ CMD_FLASH_INIT);
      [reflexivity|auto|destruct (negb _); reflexivity|reflexivity|reflexivity|].
    all: left; repeat split; assumption. }
  destruct (cmd =? CMD_FLASH_READY).
  { destruct (doRead (conf s)) eqn:Hrd.
    - eapply (call_facts_command _ _ _ _ _ CMD_FLASH_SET_ADDRESS);
        [reflexivity|auto|sent_of|reflexivity|reflexivity|].
      right. right. left. split; [reflexivity|]. left. auto.
    - destruct (doErase s) eqn:Her.
      + eapply (call_facts_command _ _ _ _ _ CMD_FLASH_ERASE);
          [reflexivity|auto|reflexivity|reflexivity|reflexivity|].
        right. left. repeat split; assumption.
      + apply call_facts_write_step; try reflexivity.
        right. auto. }
  destruct (cmd =? CMD_FLASH_ADDRESS_ERROR); [|apply call_facts_none; auto].
  destruct (doRead (conf s)) eqn:Hrd; [|apply call_facts_none; auto].
  destruct (Args.r (args (conf s))) as [[|r0]|];
    repeat match goal with
           | |- context [if ?b then (_, _) else _] => destruct b
           end;
    (eapply (call_facts_command _ _ _ _ _ CMD_FLASH_READ);
     [reflexivity|auto|sent_of|reflexivity|reflexivity|]);
    do 6 right; left; repeat split; auto.
Qed.

Lemma handle_flashing_facts now d3 d4 d5 d6 d7 cmd s :
  state s = STATE_FLASHING ->
  call_facts s (handle_flashing now d3 d4 d5 d6 d7 cmd s).
Proof.
  intros Hst. unfold handle_flashing, unexpected, exit.
  destruct (cmd =? CMD_FLASH_DATA_ERROR); [apply call_facts_none; auto|].
  destruct (cmd =? CMD_FLASH_ADDRESS_ERROR); [apply call_facts_none; auto|].
  destruct (cmd =? CMD_FLASH_READY).
  { apply call_facts_write_step; try reflexivity.
    - left. exact Hst.
    - exact Hst.
    - apply sent_progressIncrement. }
  destruct (cmd =? CMD_START_APP); apply call_facts_none; auto.
Qed.

Lemma handle_reading_facts now msgData d3 cmd s :
  state s = STATE_READING ->
  call_facts s (handle_reading now msgData d3 cmd s).
Proof.
  intros Hst. unfold handle_reading, unexpected, exit.
  assert (Hread : forall s' evs pre,
            conf s' = conf s -> state s' = STATE_READING -> doErase s' = doErase s ->
            sent pre = [] ->
            call_facts s
              (mkResult (fst (readForVerify now s'))
                 (pre ++ snd (readForVerify now s')) evs)).
  { intros s' o pre Hc Hs He Hpre.
    destruct (readForVerify_fields now s') as (Hc' & Hs' & He').
    destruct (readForVerify_sent now s') as (c & p & Hsent & Hp & Hcmd).
    eapply (call_facts_command _ _ _ _ _ c p);
      [congruence|congruence|rewrite sent_app, Hpre; exact Hsent|congruence|exact Hp|].
    destruct Hcmd as [-> | ->].
    - do 6 right. left. repeat split; [congruence|auto].
    - do 7 right. repeat split; congruence. }
  destruct (cmd =? CMD_FLASH_DONE_VERIFY).
  { match goal with
    | |- context [readForVerify now ?s'] =>
        specialize (Hread s' Returned
          ([Console StartReadingToVerify]
           ++ progressStart s (memMapTotalBytes (conf s)) 0)
          eq_refl Hst eq_refl);
        destruct (readForVerify now s') as [s'' evs]
    end.
    cbn [fst snd] in Hread. rewrite <- app_assoc in Hread. apply Hread.
    rewrite sent_app, sent_progressStart. reflexivity. }
  destruct (cmd =? CMD_FLASH_READ_DATA).
  { destruct (read_address_guard _ _).
    { eapply (call_facts_command _ _ _ _ _ CMD_START_APP);
        [reflexivity|auto|reflexivity|reflexivity|reflexivity|].
      do 7 right. auto. }
    destruct (doVerify (conf s)).
    - pose proof (verify_loop_fields msgData (Z.to_nat (Js.sar (Js.u8 d3) 5)) 0 s)
        as (Hc & Hs & He).
      destruct (verify_loop _ _ _ _) as [s' [| |]]; cbn [fst] in Hc, Hs, He.
      + specialize (Hread s' Returned
          ((if Args.verbose (args (conf s))
            then [Console (GotFlashDataFor (curAddr s))] else [])
           ++ progressIncrement s (Js.sar (Js.u8 d3) 5))
          Hc ltac:(congruence) He).
        destruct (readForVerify now s') as [s'' evs]. cbn [fst snd] in Hread.
        apply Hread. sent_of.
      + eapply (call_facts_command _ _ _ _ _ CMD_START_APP);
          [exact Hc|congruence|sent_of|exact Hc|reflexivity|].
        do 7 right. repeat split; congruence.
      + apply call_facts_none; [exact Hc|congruence|congruence|sent_of].
    - destruct (read_loop_fields msgData (Z.to_nat (Js.sar (Js.u8 d3) 5)) 0 s)
        as (Hc & Hs & He).
      destruct (reached_max _).
      + eapply (call_facts_command _ _ _ _ _ CMD_START_APP);
          [exact Hc|congruence|sent_of|exact Hc|reflexivity|].
        do 7 right. repeat split; congruence.
      + eapply (call_facts_command _ _ _ _ _ CMD_FLASH_READ);
          [exact Hc|congruence|sent_of|exact Hc|reflexivity|].
        do 6 right. left. repeat split; [congruence|auto]. }
  destruct (cmd =? CMD_FLASH_READ_ADDRESS_ERROR).
  { destruct (doVerify (conf s)).
    all: eapply (call_facts_command _ _ _ _ _ CMD_START_APP);
      [reflexivity|auto|sent_of|reflexivity|reflexivity|].
    all: do 7 right; auto. }
  destruct (cmd =? CMD_START_APP); apply call_facts_none; auto.
Qed.

Lemma handleCanMsg_call_facts now msg s : call_facts s (handleCanMsg now msg s).
Proof.
  unfold handleCanMsg.
  destruct (msg_data msg)
    as [|d0 [|d1 [|d2 [|d3 [|d4 [|d5 [|d6 [|d7 [|d8 rest]]]]]]]]];
    try (apply call_facts_none; auto).
  destruct (negb _); [apply call_facts_none; auto|].
  destruct (negb _); [apply call_facts_none; auto|].
  destruct (state s) eqn:Hst.
  - apply handle_init_facts. exact Hst.
  - apply handle_flashing_facts. exact Hst.
  - apply handle_reading_facts. exact Hst.
Qed.

End CallFactsOfHandlers.

(** ** Sessions *)

Section Sessions.

Lemma ping_tick_frame s f :
  In f (sent (r_events (ping_tick s))) ->
  sent (r_events (ping_tick s)) = [f]
  /\ well_formed_frame s f /\ frame_cmd f = Some CMD_PING
  /\ r_app (ping_tick s) = s.
Proof.
  unfold ping_tick. destruct (pingInterval s); [|intros []].
  intros [<- | []]. split; [reflexivity|]. split; [|split; [|reflexivity]].
  - unfold well_formed_frame, to_mcu. cbn [id ext rtr data].
    repeat split. unfold Js.Buffer_from. cbn [map take].
    rewrite !u8_byte_of_Z. reflexivity.
  - rewrite frame_cmd_map. cbn [to_mcu data]. rewrite Buffer_from_bytes. reflexivity.
Qed.

Lemma ping_tick_app s : r_app (ping_tick s) = s.
Proof. unfold ping_tick. destruct (pingInterval s); reflexivity. Qed.

(** A property of the object kept by every step is kept by a session,
    and what holds of the frames of every step from such an object
    holds of the frames of the session. *)
Lemma run_invariant (P : FlashApp -> Prop) (Q : frame -> Prop) :
  (forall i s, P s -> P (r_app (step i s))) ->
  (forall i s f, P s -> In f (sent (r_events (step i s))) -> Q f) ->
  forall inputs s, P s ->
    P (r_app (run inputs s))
    /\ forall f, In f (sent (r_events (run inputs s))) -> Q f.
Proof.
  intros HP HQ. induction inputs as [|i rest IH]; intros s Hs.
  - split; [exact Hs|intros f []].
  - cbn [run]. pose proof (HP i s Hs) as Hs'.
    destruct (r_outcome (step i s)).
    + destruct (IH _ Hs') as [IHP IHQ]. cbn [after r_app r_events].
      split; [exact IHP|]. intros f Hin. rewrite sent_app in Hin.
      apply in_app_or in Hin. destruct Hin as [Hin | Hin]; eauto.
    + split; [exact Hs'|]. intros f Hin. eauto.
    + split; [exact Hs'|]. intros f Hin. eauto.
Qed.

End Sessions.

(** X1. Whatever the event loop delivers, the handler sends at most one
    frame, and the frame has the remote-to-MCU id and frame format of
    the arguments, no remote transmission request, exactly eight data
    bytes, and the MCU id of the session in bytes 0 and 1. *)
Theorem at_most_one_well_formed_frame (i : input) (s : FlashApp) :
  let frames := sent (r_events (step i s)) in
  (length frames <= 1)%nat
  /\ forall f, In f frames ->
       id f = Args.canIdRemote (args (conf s))
       /\ ext f = negb (Args.sff (args (conf s)))
       /\ rtr f = false
       /\ length (data f) = 8%nat
       /\ map Js.u8 (take 2 (data f))
          = [fst (mcuId (conf s)) mod 256; snd (mcuId (conf s)) mod 256].
Proof.
  cbn zeta. destruct i as [now msg|]; cbn [step].
  - destruct (handleCanMsg_call_facts now msg s)
      as (_ & _ & _ & [-> | (f & c & -> & Hwf & _)]).
    + split; [cbn; lia|intros f []].
    + split; [cbn; lia|]. intros g [<- | []]. exact Hwf.
  - split.
    + unfold ping_tick. destruct (pingInterval s); cbn; lia.
    + intros f Hin. apply ping_tick_frame in Hin. apply Hin.
Qed.

(** X2. A session never goes back: over any inputs the state only
    moves along Init, Flashing, Reading (so a [BOOTLOADER_START] that
    arrives after Init never restarts the dialogue), and the
    configuration (arguments, mode flags, image) is the one the session
    started with. *)
Theorem session_never_goes_back (inputs : list input) (s : FlashApp) :
  conf (r_app (run inputs s)) = conf s
  /\ state_rank (state s) <= state_rank (state (r_app (run inputs s))).
Proof.
  destruct (run_invariant
              (fun s' => conf s' = conf s
                         /\ state_rank (state s) <= state_rank (state s'))
              (fun _ => True)) with (inputs := inputs) (s := s) as [H _];
    [| |split; [reflexivity|lia]|exact H]; [|trivial].
  intros i s' [Hc Hr]. destruct i as [now msg|]; cbn [step].
  - destruct (handleCanMsg_call_facts now msg s') as (Hc' & _ & Hr' & _).
    split; [congruence|lia].
  - rewrite ping_tick_app. auto.
Qed.

(** X3. [FLASH_ERASE] is sent at most once in a session, and not at all
    when the session starts with the erase flag down. *)
Theorem erase_sent_at_most_once (inputs : list input) (s : FlashApp) :
  (length (List.filter (is_command CMD_FLASH_ERASE) (sent (r_events (run inputs s))))
   <= if doErase s then 1 else 0)%nat.
Proof.
  revert s. induction inputs as [|i rest IH]; intros s.
  - cbn. destruct (doErase s); lia.
  - cbn [run].
    assert (Hstep :
      (length (List.filter (is_command CMD_FLASH_ERASE) (sent (r_events (step i s))))
       + (if doErase (r_app (step i s)) then 1 else 0)
       <= if doErase s then 1 else 0)%nat).
    { destruct i as [now msg|]; cbn [step].
      - destruct (handleCanMsg_call_facts now msg s)
          as (_ & He & _ & [-> | (f & c & -> & _ & Hcmd & Ho)]).
        + cbn. destruct (doErase (r_app _)); [rewrite He by reflexivity|];
            destruct (doErase s); lia.
        + cbn [List.filter]. unfold is_command at 1. rewrite Hcmd.
          destruct (Z.eqb_spec c CMD_FLASH_ERASE) as [-> | Hne].
          * unfold command_origin in Ho.
            destruct Ho as [[[=] _] | [(_ & _ & _ & _ & -> & ->) | Ho]];
              [cbn; lia|].
            exfalso.
            repeat (destruct Ho as [[Hx _] | Ho]; [discriminate Hx|]).
            destruct Ho as [Hx _]. discriminate Hx.
          * cbn. destruct (doErase (r_app _)); [rewrite He by reflexivity|];
              destruct (doErase s); lia.
      - rewrite ping_tick_app. unfold ping_tick.
        destruct (pingInterval s); cbn [r_events]; [|cbn; destruct (doErase s); lia].
        rewrite sent_cons_send. cbn [List.filter].
        match goal with
        | |- context [is_command ?c ?f] =>
            assert (E : is_command c f = false)
              by (unfold is_command; rewrite frame_cmd_map; cbn [to_mcu data];
                  rewrite Buffer_from_bytes; reflexivity);
            rewrite E
        end.
        cbn. destruct (doErase s); lia. }
    destruct (r_outcome (step i s)).
    + cbn [after r_events]. rewrite sent_app, filter_app, length_app.
      specialize (IH (r_app (step i s))). lia.
    + destruct (doErase (r_app (step i s))); lia.
    + destruct (doErase (r_app (step i s))); lia.
Qed.

(** X4. Reading does not write: in a session started with option [-r],
    whatever arrives, no [FLASH_DATA], [FLASH_ERASE], [FLASH_DONE] or
    [FLASH_DONE_VERIFY] frame is ever sent, and the state is never
    Flashing. *)
Theorem read_mode_never_writes
    (a : Args.t) (signature : Z * Z * Z) (flashSize : Z) (image : MemoryMap)
    (x : jsnum) (inputs : list input) :
  Args.r a = Some x ->
  let r := run inputs (new_FlashApp a signature flashSize image) in
  state (r_app r) <> STATE_FLASHING
  /\ forall f, In f (sent (r_events r)) ->
       frame_cmd f <> Some CMD_FLASH_DATA
       /\ frame_cmd f <> Some CMD_FLASH_ERASE
       /\ frame_cmd f <> Some CMD_FLASH_DONE
       /\ frame_cmd f <> Some CMD_FLASH_DONE_VERIFY.
Proof.
  intros Hr r.
  destruct (new_FlashApp_read_inv a signature flashSize image x Hr)
    as (Hread & Hver & Hempty & _ & Hinv0).
  set (s0 := new_FlashApp a signature flashSize image) in *.
  destruct (run_invariant (read_inv (conf s0))
              (fun f => frame_cmd f <> Some CMD_FLASH_DATA
                        /\ frame_cmd f <> Some CMD_FLASH_ERASE
                        /\ frame_cmd f <> Some CMD_FLASH_DONE
                        /\ frame_cmd f <> Some CMD_FLASH_DONE_VERIFY))
    with (inputs := inputs) (s := s0) as [(_ & Hst & _) Hq].
  - intros i s. apply step_read_inv; assumption.
  - intros i s f (Hc & Hst & _) Hin. destruct i as [now msg|]; cbn [step] in Hin.
    + destruct (handleCanMsg_call_facts now msg s)
        as (_ & _ & _ & [Hs | (g & c & Hs & _ & Hcmd & Ho)]);
        rewrite Hs in Hin; [destruct Hin|].
      destruct Hin as [<- | []]. rewrite Hcmd.
      assert (Hw : ~ from_write_step s).
      { intros [Hf | (_ & Hrd & _)]; [contradiction|]. rewrite Hc in Hrd. congruence. }
      unfold command_origin in Ho. rewrite Hc in Ho.
      destruct Ho as [(-> & _) | [(-> & _ & _ & Hrd & _) | [(-> & Ho)
        | [(-> & Hw' & _) | [(-> & Hw' & _) | [(-> & Hw' & _)
        | [(-> & _) | (-> & _)]]]]]]];
        try contradiction; try congruence;
        repeat split; discriminate.
    + apply ping_tick_frame in Hin. destruct Hin as (_ & _ & -> & _).
      repeat split; discriminate.
  - exact Hinv0.
  - split; [exact Hst|exact Hq].
Qed.

Lemma read_mode_never_writes_witness :
  let r := run [ Recv 0 (Sample.from_mcu 0x04 0 [0; 0; 0; 0]);
                 Recv 1 (Sample.from_mcu 0x0B 0 [0x00; 0x00; 0x77; 0xFF]) ]
             (new_FlashApp Sample.read_args Sample.m328p 32768 Sample.image) in
  state (r_app r) <> STATE_FLASHING
  /\ forall f, In f (sent (r_events r)) ->
       frame_cmd f <> Some CMD_FLASH_DATA
       /\ frame_cmd f <> Some CMD_FLASH_ERASE
       /\ frame_cmd f <> Some CMD_FLASH_DONE
       /\ frame_cmd f <> Some CMD_FLASH_DONE_VERIFY.
Proof.
  apply (read_mode_never_writes Sample.read_args Sample.m328p 32768 Sample.image
           (Num 10)).
  reflexivity.
Defined.

(** ** Init: accepting the bootloader *)

(** X5. In Init, a [BOOTLOADER_START] frame is answered by [FLASH_INIT]
    exactly when bytes 4..6 are the expected signature and byte 7 is
    the expected version or the force flag is set; the force flag does
    not make up for a wrong signature. A refused frame changes nothing
    (the ping timer keeps running) and sends nothing. *)
Theorem flash_init_iff_accepted
    (now : Z) (s : FlashApp) (d0 d1 d2 d3 d4 d5 d6 d7 : byte) :
  state s = STATE_INIT ->
  256 * Js.u8 d0 + Js.u8 d1 = Args.mcuid (args (conf s)) ->
  Js.u8 d2 = CMD_BOOTLOADER_START ->
  let r := handleCanMsg now
             (mkMsg (Args.canIdMcu (args (conf s))) [d0; d1; d2; d3; d4; d5; d6; d7]) s in
  let accepted :=
    deviceSignature (conf s) = (Js.u8 d4, Js.u8 d5, Js.u8 d6)
    /\ (Js.u8 d7 = BOOTLOADER_CMD_VERSION \/ Args.F (args (conf s)) = true) in
  (accepted ->
   exists f, sent (r_events r) = [f] /\ frame_cmd f = Some CMD_FLASH_INIT
             /\ flashStartTs (r_app r) = Some now)
  /\ (~ accepted -> r_app r = s /\ sent (r_events r) = [] /\ r_outcome r = Returned).
Proof.
  intros Hst Hid Hcmd r accepted. subst r accepted.
  rewrite handleCanMsg_dispatch by exact Hid. rewrite Hst.
  unfold handle_init. rewrite Hcmd.
  change (CMD_BOOTLOADER_START =? CMD_BOOTLOADER_START) with true. cbn iota.
  destruct (deviceSignature (conf s)) as [[s0 s1] s2].
  destruct (Z.eqb_spec (Js.u8 d4) s0) as [E0 | N0];
    [destruct (Z.eqb_spec (Js.u8 d5) s1) as [E1 | N1];
     [destruct (Z.eqb_spec (Js.u8 d6) s2) as [E2 | N2]|]|]; cbn [negb orb].
  2-4: split; [intros [[=] _]; congruence|intros _; repeat split].
  subst s0 s1 s2.
  destruct (Z.eqb_spec (Js.u8 d7) BOOTLOADER_CMD_VERSION) as [Ev | Nv]; cbn [negb andb].
  - split; [intros _|intros H; exfalso; apply H; auto].
    destruct (pingInterval s); eexists; (split; [reflexivity|]);
      (split; [apply frame_cmd_command|reflexivity]).
  - destruct (Args.F (args (conf s))); cbn [negb].
    + split; [intros _|intros H; exfalso; apply H; auto].
      destruct (pingInterval s); eexists; (split; [reflexivity|]);
        (split; [apply frame_cmd_command|reflexivity]).
    + split; [intros [_ [Hv | Hf]]; [contradiction|discriminate]|].
      intros _. repeat split.
Qed.

Lemma flash_init_iff_accepted_witness :
  let r := handleCanMsg 7
             (mkMsg (Args.canIdMcu (args (conf Sample.flash_app)))
                (Js.Buffer_from [0x00; 0x42; 0x02; 0x00; 0x1E; 0x95; 0x0F; 0x01]))
             Sample.flash_app in
  exists f, sent (r_events r) = [f] /\ frame_cmd f = Some CMD_FLASH_INIT
            /\ flashStartTs (r_app r) = Some 7.
Proof.
  apply (flash_init_iff_accepted 7 Sample.flash_app
           (Js.byte_of_Z 0) (Js.byte_of_Z 0x42) (Js.byte_of_Z 0x02) (Js.byte_of_Z 0)
           (Js.byte_of_Z 0x1E) (Js.byte_of_Z 0x95) (Js.byte_of_Z 0x0F)
           (Js.byte_of_Z 0x01) eq_refl eq_refl eq_refl).
  split; [reflexivity|left; reflexivity].
Defined.

(** ** Commands without a case *)

(** X6. A frame whose command has no case in the current state (for
    instance a [BOOTLOADER_START] after Init, or a [FLASH_READY] in
    Reading) only draws the warning: the object is unchanged and
    nothing is sent. *)
Theorem unhandled_command_changes_nothing
    (now : Z) (s : FlashApp) (d0 d1 d2 d3 d4 d5 d6 d7 : byte) :
  256 * Js.u8 d0 + Js.u8 d1 = Args.mcuid (args (conf s)) ->
  ~ In (Js.u8 d2) (handled_commands (state s)) ->
  handleCanMsg now
    (mkMsg (Args.canIdMcu (args (conf s))) [d0; d1; d2; d3; d4; d5; d6; d7]) s
  = mkResult s [Console (UnexpectedMessage (Js.u8 d2))] Returned.
Proof.
  intros Hid Hno. rewrite handleCanMsg_dispatch by exact Hid.
  destruct (state s); cbn [handled_commands In] in Hno.
  - unfold handle_init.
    repeat match goal with
           | |- context [Js.u8 d2 =? ?c] =>
               destruct (Z.eqb_spec (Js.u8 d2) c); [exfalso; apply Hno; auto 6|]
           end.
    reflexivity.
  - unfold handle_flashing.
    repeat match goal with
           | |- context [Js.u8 d2 =? ?c] =>
               destruct (Z.eqb_spec (Js.u8 d2) c); [exfalso; apply Hno; auto 6|]
           end.
    reflexivity.
  - unfold handle_reading.
    repeat match goal with
           | |- context [Js.u8 d2 =? ?c] =>
               destruct (Z.eqb_spec (Js.u8 d2) c); [exfalso; apply Hno; auto 6|]
           end.
    reflexivity.
Qed.

Lemma unhandled_command_changes_nothing_witness :
  handleCanMsg 0
    (mkMsg (Args.canIdMcu (args (conf Sample.jump_flashing)))
       (Js.Buffer_from [0x00; 0x42; 0x02; 0x00; 0x1E; 0x95; 0x0F; 0x01]))
    Sample.jump_flashing
  = mkResult Sample.jump_flashing [Console (UnexpectedMessage 2)] Returned.
Proof.
  apply (unhandled_command_changes_nothing 0 Sample.jump_flashing
           (Js.byte_of_Z 0) (Js.byte_of_Z 0x42) (Js.byte_of_Z 0x02) (Js.byte_of_Z 0)
           (Js.byte_of_Z 0x1E) (Js.byte_of_Z 0x95) (Js.byte_of_Z 0x0F)
           (Js.byte_of_Z 0x01) eq_refl).
  vm_compute. intuition discriminate.
Defined.

(** ** Addresses on the wire *)

Section AddressOnTheWire.

Lemma be32_bytes_value a :
  ((a / 2 ^ 24) mod 256) * 2 ^ 24 + ((a / 2 ^ 16) mod 256) * 2 ^ 16
  + ((a / 2 ^ 8) mod 256) * 2 ^ 8 + a mod 256
  = a mod 2 ^ 32.
Proof.
  change (2 ^ 24) with 16777216. change (2 ^ 16) with 65536.
  change (2 ^ 8) with 256. change (2 ^ 32) with 4294967296.
  Z.div_mod_to_equations. lia.
Qed.

Lemma to_int32_mod32 a : Js.to_int32 (a mod 2 ^ 32) = Js.to_int32 a.
Proof.
  unfold Js.to_int32. rewrite Zplus_mod_idemp_l. reflexivity.
Qed.

Lemma to_int32_fixed a : Js.to_int32 a = a <-> - 2 ^ 31 <= a < 2 ^ 31.
Proof.
  split.
  - intros <-. apply to_int32_range.
  - apply to_int32_small.
Qed.

End AddressOnTheWire.

(** X7. The address bytes the host puts in a frame
    ([sendSetFlashAddress], [FLASH_READ]) and the decoding of the
    remote address in [onFlashReady] round-trip up to 32-bit signed
    wrap-around: decoding the encoded bytes of [a] gives [a] exactly
    when [-2^31 <= a < 2^31]; any other address comes back different
    (an address from 0x80000000 on comes back negative). *)
Theorem address_round_trip (a : Z) :
  let b := fun k => Js.byte_of_Z (nth k (addr_bytes a) 0) in
  let decoded := remote_address (b 0%nat) (b 1%nat) (b 2%nat) (b 3%nat) in
  decoded = Js.to_int32 a
  /\ (decoded = a <-> - 2 ^ 31 <= a < 2 ^ 31).
Proof.
  intros b decoded.
  assert (H : decoded = Js.to_int32 a).
  { subst decoded b. cbv beta.
    rewrite remote_address_be32, addr_bytes_be32. unfold be32, be32_bytes.
    cbn [nth]. rewrite !u8_byte_of_Z, !Z.mod_mod by lia.
    rewrite be32_bytes_value. apply to_int32_mod32. }
  rewrite H. split; [reflexivity|apply to_int32_fixed].
Qed.

(** ** The MCU id *)

(** X9. The filter compares the 16-bit number in bytes 0..1 with the
    MCU id as it was parsed: when that is not in 0..65535 (for instance
    [-m 0x10042]) no frame ever matches, and every frame is dropped in
    every state. *)
Theorem mcuid_out_of_range_hears_nothing (now : Z) (msg : can_msg) (s : FlashApp) :
  ~ (0 <= Args.mcuid (args (conf s)) < 65536) ->
  handleCanMsg now msg s = mkResult s [] Returned.
Proof.
  intros Hout. unfold handleCanMsg.
  destruct (msg_data msg)
    as [|d0 [|d1 [|d2 [|d3 [|d4 [|d5 [|d6 [|d7 [|d8 rest]]]]]]]]]; try reflexivity.
  destruct (negb (msg_id msg =? _)); [reflexivity|].
  rewrite mcuid_eq.
  destruct (Z.eqb_spec (256 * Js.u8 d0 + Js.u8 d1) (Args.mcuid (args (conf s))))
    as [E | _]; [|reflexivity].
  exfalso. apply Hout. rewrite <- E.
  pose proof (u8_range d0). pose proof (u8_range d1). lia.
Qed.

Lemma mcuid_out_of_range_hears_nothing_witness :
  let s := new_FlashApp
             (Args.mk 0x10042 false false None false
                CAN_ID_MCU_TO_REMOTE_DEFAULT CAN_ID_REMOTE_TO_MCU_DEFAULT false None false)
             Sample.m328p 32768 Sample.image in
  handleCanMsg 0 (Sample.from_mcu 0x02 0 [0x1E; 0x95; 0x0F; 0x01]) s
  = mkResult s [] Returned.
Proof.
  apply mcuid_out_of_range_hears_nothing. vm_compute. intros [_ H]. discriminate H.
Defined.

Section NotDropped.

Ltac nonnil :=
  let E := fresh "E" in
  intros E; apply (f_equal (@length event)) in E;
  unfold sendStartApp, sendSetFlashAddress, readDone in E;
  repeat (rewrite length_app in E || cbn [length app] in E); lia.

Lemma after_heard pre r :
  pre <> [] \/ r_events r <> [] \/ r_outcome r = Threw ->
  r_events (after pre r) <> [] \/ r_outcome (after pre r) = Threw.
Proof.
  cbn [after r_events r_outcome]. intros [H | [H | H]]; [left | left | right; exact H].
  - destruct pre; [congruence | discriminate].
  - destruct pre; [exact H | discriminate].
Qed.

Lemma flash_next_heard remote s :
  r_events (flash_next remote s) <> [] \/ r_outcome (flash_next remote s) = Threw.
Proof.
  unfold flash_next. destruct (negb _); [left; cbn [r_events]; nonnil|].
  destruct (memMap_get _ _); [|right; reflexivity].
  destruct (pack_loop _ _ _ _ _ _). left. cbn [r_events]. nonnil.
Qed.

Lemma onFlashReady_heard d4 d5 d6 d7 s :
  r_events (onFlashReady d4 d5 d6 d7 s) <> []
  \/ r_outcome (onFlashReady d4 d5 d6 d7 s) = Threw.
Proof.
  unfold onFlashReady.
  destruct (block_exhausted s); [|apply flash_next_heard].
  destruct (memMapKeys s).
  - destruct (doVerify (conf s)); left; cbn [r_events]; nonnil.
  - apply after_heard. right. apply flash_next_heard.
Qed.

Lemma handle_init_heard now d4 d5 d6 d7 cmd s :
  r_events (handle_init now d4 d5 d6 d7 cmd s) <> []
  \/ r_outcome (handle_init now d4 d5 d6 d7 cmd s) = Threw.
Proof.
  unfold handle_init, unexpected.
  destruct (cmd =? CMD_BOOTLOADER_START).
  { destruct (deviceSignature (conf s)) as [[s0 s1] s2].
    destruct (_ || _); [left; discriminate|].
    destruct (_ && _); [left; discriminate|].
    destruct (pingInterval s); left; cbn [r_events]; nonnil. }
  destruct (cmd =? CMD_FLASH_READY).
  { destruct (doRead (conf s)); [left; discriminate|].
    destruct (doErase s); [left; discriminate|].
    apply after_heard. left. discriminate. }
  destruct (cmd =? CMD_FLASH_ADDRESS_ERROR); [|left; discriminate].
  destruct (doRead (conf s)); [|left; discriminate].
  destruct (match Args.r (args (conf s)) with Some (Num _) => _ | _ => _ end).
  left. cbn [r_events]. nonnil.
Qed.

Lemma handle_flashing_heard now d3 d4 d5 d6 d7 cmd s :
  r_events (handle_flashing now d3 d4 d5 d6 d7 cmd s) <> []
  \/ r_outcome (handle_flashing now d3 d4 d5 d6 d7 cmd s) = Threw.
Proof.
  unfold handle_flashing, unexpected, exit.
  destruct (cmd =? CMD_FLASH_DATA_ERROR); [left; discriminate|].
  destruct (cmd =? CMD_FLASH_ADDRESS_ERROR); [left; discriminate|].
  destruct (cmd =? CMD_FLASH_READY).
  { apply after_heard. right. apply onFlashReady_heard. }
  destruct (cmd =? CMD_START_APP); left; discriminate.
Qed.

Lemma readForVerify_heard now s : snd (readForVerify now s) <> [].
Proof.
  unfold readForVerify. destruct (block_exhausted s); [|discriminate].
  destruct (memMapKeys s); [|discriminate]. cbn [snd]. nonnil.
Qed.

Lemma handle_reading_heard now msgData d3 cmd s :
  r_events (handle_reading now msgData d3 cmd s) <> []
  \/ r_outcome (handle_reading now msgData d3 cmd s) = Threw.
Proof.
  unfold handle_reading, unexpected, exit.
  destruct (cmd =? CMD_FLASH_DONE_VERIFY).
  { destruct (readForVerify _ _). left. discriminate. }
  destruct (cmd =? CMD_FLASH_READ_DATA).
  { destruct (read_address_guard _ _); [left; discriminate|].
    destruct (doVerify (conf s)).
    - destruct (verify_loop _ _ _ _) as [s' [| |]].
      + pose proof (readForVerify_heard now s') as Hr.
        destruct (readForVerify now s') as [s'' evs]. cbn [snd] in Hr.
        left. cbn [r_events]. intros E. apply app_eq_nil in E. tauto.
      + left. cbn [r_events]. nonnil.
      + right. reflexivity.
    - destruct (reached_max _); left; cbn [r_events]; nonnil. }
  destruct (cmd =? CMD_FLASH_READ_ADDRESS_ERROR).
  { destruct (doVerify (conf s)); left; cbn [r_events]; nonnil. }
  destruct (cmd =? CMD_START_APP); left; discriminate.
Qed.

End NotDropped.

(** X10. For an MCU id in 0..65535 the two bytes the constructor
    derives from it, which every frame of the session carries, are the
    bytes the filter accepts: in any state of the session, a frame with
    the MCU-to-remote id that carries them in bytes 0 and 1 is not
    dropped by [handleCanMsg]. It is handed to the switch of the current
    state, and the call is never the silent return of the filter: it
    emits something or ends in the TypeError. *)
Theorem mcuid_bytes_pass_the_filter
    (a : Args.t) (signature : Z * Z * Z) (flashSize : Z) (image : MemoryMap)
    (now : Z) (s : FlashApp) (d2 d3 d4 d5 d6 d7 : byte) :
  0 <= Args.mcuid a < 65536 ->
  conf s = conf (new_FlashApp a signature flashSize image) ->
  let hi := Js.byte_of_Z (fst (mcuId (conf s))) in
  let lo := Js.byte_of_Z (snd (mcuId (conf s))) in
  let msgData := [hi; lo; d2; d3; d4; d5; d6; d7] in
  let r := handleCanMsg now (mkMsg (Args.canIdMcu (args (conf s))) msgData) s in
  r = match state s with
      | STATE_INIT => handle_init now d4 d5 d6 d7 (Js.u8 d2) s
      | STATE_FLASHING => handle_flashing now d3 d4 d5 d6 d7 (Js.u8 d2) s
      | STATE_READING => handle_reading now msgData d3 (Js.u8 d2) s
      end
  /\ (r_events r <> [] \/ r_outcome r = Threw)
  /\ r <> mkResult s [] Returned.
Proof.
  intros Hm Hc hi lo msgData r. subst r msgData.
  assert (Hid : 256 * Js.u8 hi + Js.u8 lo = Args.mcuid (args (conf s))).
  { subst hi lo. rewrite !u8_byte_of_Z, Hc.
    unfold new_FlashApp. cbn [conf mcuId args fst snd].
    rewrite !and_255, !Z.mod_mod by lia.
    rewrite sar_small by lia.
    change (2 ^ 8) with 256. Z.div_mod_to_equations. lia. }
  rewrite (handleCanMsg_dispatch now s hi lo d2 d3 d4 d5 d6 d7 Hid). cbv zeta.
  assert (Hheard :
    let r := match state s with
             | STATE_INIT => handle_init now d4 d5 d6 d7 (Js.u8 d2) s
             | STATE_FLASHING => handle_flashing now d3 d4 d5 d6 d7 (Js.u8 d2) s
             | STATE_READING =>
                 handle_reading now [hi; lo; d2; d3; d4; d5; d6; d7] d3 (Js.u8 d2) s
             end in
    r_events r <> [] \/ r_outcome r = Threw).
  { destruct (state s); cbv zeta;
      [apply handle_init_heard | apply handle_flashing_heard | apply handle_reading_heard]. }
  cbv zeta in Hheard. split; [reflexivity|]. split; [exact Hheard|].
  intros E. rewrite E in Hheard. cbn [r_events r_outcome] in Hheard.
  destruct Hheard as [H | H]; [now apply H | discriminate H].
Qed.

Lemma mcuid_bytes_pass_the_filter_witness :
  let s := Sample.jump_flashing in
  let msgData :=
    [ Js.byte_of_Z (fst (mcuId (conf s))); Js.byte_of_Z (snd (mcuId (conf s)));
      x04; x80; x00; x00; x00; x04 ] in
  let r := handleCanMsg 7 (mkMsg (Args.canIdMcu (args (conf s))) msgData) s in
  r = match state s with
      | STATE_INIT => handle_init 7 x00 x00 x00 x04 (Js.u8 x04) s
      | STATE_FLASHING => handle_flashing 7 x80 x00 x00 x00 x04 (Js.u8 x04) s
      | STATE_READING => handle_reading 7 msgData x80 (Js.u8 x04) s
      end
  /\ (r_events r <> [] \/ r_outcome r = Threw)
  /\ r <> mkResult s [] Returned.
Proof.
  apply (mcuid_bytes_pass_the_filter Sample.flash_args Sample.m328p (32 * 1024)
           Sample.jump_image 7 Sample.jump_flashing x04 x80 x00 x00 x00 x04).
  - vm_compute. split; [discriminate|reflexivity].
  - reflexivity.
Defined.

(** ** The verify pass, frame by frame *)

Section VerifyLoop.

Lemma u8_inj b b' : Js.u8 b = Js.u8 b' -> b = b'.
Proof.
  unfold Js.u8. intros H. apply N2Z.inj in H.
  pose proof (Byte.of_to_N b) as Hb. rewrite H, Byte.of_to_N in Hb. congruence.
Qed.

Lemma differs_false b d : differs b d = false <-> d = Some b.
Proof.
  unfold differs. destruct d as [d|]; [|split; discriminate].
  destruct (Z.eqb_spec (Js.u8 b) (Js.u8 d)) as [E | N]; cbn [negb].
  - apply u8_inj in E. subst. split; reflexivity.
  - split; [discriminate|]. intros [= ->]. contradiction.
Qed.

Lemma verify_failures_calm evs : calm evs -> verify_failures evs = [].
Proof.
  induction evs as [|ev evs IH]; intros Hc; [reflexivity|].
  assert (Hrest : calm evs) by (intros a Hin; apply (Hc a); right; exact Hin).
  specialize (IH Hrest). unfold verify_failures in *. cbn [omap list_omap].
  destruct ev as [f|m| | | | |]; try exact IH.
  destruct m; try exact IH.
  exfalso. apply (Hc addr). left. reflexivity.
Qed.

Lemma verify_failures_app a b :
  verify_failures (a ++ b) = verify_failures a ++ verify_failures b.
Proof. unfold verify_failures. apply omap_app. Qed.

Lemma verify_loop_spec msgData block n : forall i s,
  memMap_get (memMap (conf s)) (memMapCurrentKey s) = Some block ->
  let idx := memMapCurrentDataIdx s in
  let s' := fst (verify_loop n i msgData s) in
  match snd (verify_loop n i msgData s) with
  | LoopDone =>
      curAddr s' = curAddr s + Z.of_nat n
      /\ memMapCurrentDataIdx s' = idx + Z.of_nat n
      /\ memMapCurrentKey s' = memMapCurrentKey s
      /\ forall k, 0 <= k < Z.of_nat n -> delivered block msgData idx i k
  | LoopMismatch =>
      exists k,
        0 <= k < Z.of_nat n
        /\ curAddr s' = curAddr s + k
        /\ ~ delivered block msgData idx i k
        /\ forall j, 0 <= j < k -> delivered block msgData idx i j
  | LoopThrew => False
  end.
Proof.
  induction n as [|n IH]; intros i s Hblock; cbn zeta.
  - cbn [verify_loop fst snd]. rewrite !Z.add_0_r. repeat split. intros k Hk. lia.
  - cbn [verify_loop]. rewrite Hblock.
    set (s1 := set_memMapCurrentDataIdx (memMapCurrentDataIdx s + 1)
                 (set_curAddr (curAddr s + 1) s)).
    specialize (IH (i + 1) s1 Hblock). cbn zeta in IH.
    assert (Hnext :
      delivered block msgData (memMapCurrentDataIdx s) i 0 ->
      match snd (verify_loop n (i + 1) msgData s1) with
      | LoopDone =>
          curAddr (fst (verify_loop n (i + 1) msgData s1))
          = curAddr s + Z.of_nat (S n)
          /\ memMapCurrentDataIdx (fst (verify_loop n (i + 1) msgData s1))
             = memMapCurrentDataIdx s + Z.of_nat (S n)
          /\ memMapCurrentKey (fst (verify_loop n (i + 1) msgData s1))
             = memMapCurrentKey s
          /\ forall k, 0 <= k < Z.of_nat (S n) ->
               delivered block msgData (memMapCurrentDataIdx s) i k
      | LoopMismatch =>
          exists k,
            0 <= k < Z.of_nat (S n)
            /\ curAddr (fst (verify_loop n (i + 1) msgData s1)) = curAddr s + k
            /\ ~ delivered block msgData (memMapCurrentDataIdx s) i k
            /\ forall j, 0 <= j < k ->
                 delivered block msgData (memMapCurrentDataIdx s) i j
      | LoopThrew => False
      end).
    { intros H0.
      assert (Hshift : forall k,
                delivered block msgData (memMapCurrentDataIdx s1) (i + 1) k
                <-> delivered block msgData (memMapCurrentDataIdx s) i (k + 1)).
      { intros k. unfold delivered. subst s1.
        cbn [memMapCurrentDataIdx set_memMapCurrentDataIdx set_curAddr].
        replace (memMapCurrentDataIdx s + 1 + k)
          with (memMapCurrentDataIdx s + (k + 1)) by lia.
        replace (i + 1 + k) with (i + (k + 1)) by lia. reflexivity. }
      destruct (snd (verify_loop n (i + 1) msgData s1)).
      - destruct IH as (Hc & Hi & Hk & Hall). subst s1.
        cbn [curAddr memMapCurrentDataIdx memMapCurrentKey set_memMapCurrentDataIdx
             set_curAddr] in Hc, Hi, Hk.
        split; [lia|]. split; [lia|]. split; [exact Hk|].
        intros k Hk'. destruct (Z.eq_dec k 0) as [-> | Hne]; [exact H0|].
        replace k with (k - 1 + 1) by lia. apply Hshift. apply Hall. lia.
      - destruct IH as (k & Hk & Hc & Hbad & Hpre). exists (k + 1).
        subst s1. cbn [curAddr set_memMapCurrentDataIdx set_curAddr] in Hc.
        split; [lia|]. split; [lia|]. split.
        + intros H. apply Hbad. apply Hshift. exact H.
        + intros j Hj. destruct (Z.eq_dec j 0) as [-> | Hne]; [exact H0|].
          replace j with (j - 1 + 1) by lia. apply Hshift. apply Hpre. lia.
      - exact IH. }
    destruct (Js.get block (memMapCurrentDataIdx s)) as [b|] eqn:Hb.
    + destruct (differs b (Js.get msgData (4 + i))) eqn:Hd.
      * cbn [fst snd]. exists 0. split; [lia|]. split; [lia|]. split; [|intros j Hj; lia].
        intros H. specialize (H b). rewrite !Z.add_0_r in H.
        apply differs_false in H; [|exact Hb]. congruence.
      * apply Hnext. intros b'. rewrite !Z.add_0_r, Hb. intros [= <-].
        apply differs_false. exact Hd.
    + apply Hnext. intros b'. rewrite !Z.add_0_r, Hb. discriminate.
Qed.

End VerifyLoop.

(** X11. In the verify pass, a [FLASH_READ_DATA] frame that passes the
    address guard is compared with the image byte by byte, for the
    count the frame announces and only where the current block has a
    byte. If every such byte is delivered as in the image, no failure
    is reported; otherwise the failure is reported once, at the address
    of the first byte that differs, [START_APP] is sent, and the
    current address stops there. *)
Theorem verify_compares_frame_with_image
    (now : Z) (s : FlashApp) (d0 d1 d2 d3 d4 d5 d6 d7 : byte) (block : list byte) :
  state s = STATE_READING ->
  doVerify (conf s) = true ->
  256 * Js.u8 d0 + Js.u8 d1 = Args.mcuid (args (conf s)) ->
  Js.u8 d2 = CMD_FLASH_READ_DATA ->
  read_address_guard s (Js.u8 d3 mod 32) = false ->
  memMap_get (memMap (conf s)) (memMapCurrentKey s) = Some block ->
  let n := Js.u8 d3 / 32 in
  let msgData := [d0; d1; d2; d3; d4; d5; d6; d7] in
  let same k :=
    forall b, Js.get block (memMapCurrentDataIdx s + k) = Some b ->
              Js.get msgData (4 + k) = Some b in
  let r := handleCanMsg now (mkMsg (Args.canIdMcu (args (conf s))) msgData) s in
  ((forall k, 0 <= k < n -> same k) ->
   verify_failures (r_events r) = [] /\ r_outcome r = Returned)
  /\ (forall k, 0 <= k < n -> ~ same k -> (forall j, 0 <= j < k -> same j) ->
      verify_failures (r_events r) = [curAddr s + k]
      /\ curAddr (r_app r) = curAddr s + k
      /\ exists f, sent (r_events r) = [f] /\ frame_cmd f = Some CMD_START_APP).
Proof.
  intros Hst Hver Hid Hcmd Hguard Hblock n msgData same r. subst r.
  unfold msgData.
  rewrite handleCanMsg_dispatch by exact Hid. rewrite Hst, Hcmd.
  unfold handle_reading.
  change (CMD_FLASH_READ_DATA =? CMD_FLASH_DONE_VERIFY) with false.
  change (CMD_FLASH_READ_DATA =? CMD_FLASH_READ_DATA) with true.
  cbn iota. rewrite and_31, Hguard, Hver, byteCount_eq. fold n. fold msgData.
  pose proof (byteCount_range d3) as Hn. rewrite byteCount_eq in Hn. fold n in Hn.
  pose proof (verify_loop_spec msgData block (Z.to_nat n) 0 s Hblock) as Hspec.
  cbn zeta in Hspec. rewrite Z2Nat.id in Hspec by lia.
  assert (Hsame : forall k, delivered block msgData (memMapCurrentDataIdx s) 0 k
                            <-> same k).
  { intros k. unfold delivered, same. rewrite Z.add_0_l. reflexivity. }
  assert (Hpre : verify_failures
            ((if Args.verbose (args (conf s))
              then [Console (GotFlashDataFor (curAddr s))] else [])
             ++ progressIncrement s n) = []).
  { unfold progressIncrement.
    destruct (Args.verbose _), (doProgress _); reflexivity. }
  destruct (verify_loop (Z.to_nat n) 0 msgData s) as [s' e]. cbn [fst snd] in Hspec.
  destruct e.
  - destruct Hspec as (Hc & _ & _ & Hall). split.
    + intros _. pose proof (calm_readForVerify now s') as Hcalm.
      destruct (readForVerify now s') as [s'' evs]. cbn [snd] in Hcalm.
      cbn [r_events r_outcome]. rewrite verify_failures_app, Hpre.
      split; [apply verify_failures_calm; exact Hcalm|reflexivity].
    + intros k Hk Hbad _. exfalso. apply Hbad. apply Hsame. apply Hall. exact Hk.
  - destruct Hspec as (k' & Hk' & Hc & Hbad' & Hpre'). split.
    + intros Hall. exfalso. apply Hbad'. apply Hsame. apply Hall. exact Hk'.
    + intros k Hk Hbad Hbefore.
      assert (k' = k).
      { destruct (Z.lt_trichotomy k' k) as [Hlt | [E | Hgt]]; [|exact E|].
        - exfalso. apply Hbad'. apply Hsame. apply Hbefore. lia.
        - exfalso. apply Hbad. apply Hsame. apply Hpre'. lia. }
      subst k'. cbn [r_events r_app].
      rewrite verify_failures_app, Hpre, Hc. split; [reflexivity|].
      split; [reflexivity|].
      exists (to_mcu s' (command_buffer s' CMD_START_APP [0; 0; 0; 0])).
      split; [|apply frame_cmd_command].
      unfold sendStartApp, progressIncrement.
      destruct (Args.verbose _), (doProgress _); reflexivity.
  - destruct Hspec.
Qed.

Lemma verify_compares_frame_with_image_witness :
  let s := Sample.verifying_app in
  let r := handleCanMsg 0
             (mkMsg (Args.canIdMcu (args (conf s)))
                (Js.Buffer_from [0x00; 0x42; 0x48; 0x80; 0xAA; 0xBB; 0xCD; 0xDD])) s in
  verify_failures (r_events r) = [curAddr s + 2]
  /\ curAddr (r_app r) = curAddr s + 2
  /\ exists f, sent (r_events r) = [f] /\ frame_cmd f = Some CMD_START_APP.
Proof.
  intros s.
  destruct (verify_compares_frame_with_image 0 s
           (Js.byte_of_Z 0) (Js.byte_of_Z 0x42) (Js.byte_of_Z 0x48) (Js.byte_of_Z 0x80)
           (Js.byte_of_Z 0xAA) (Js.byte_of_Z 0xBB) (Js.byte_of_Z 0xCD)
           (Js.byte_of_Z 0xDD) (Js.Buffer_from [0xAA; 0xBB; 0xCC; 0xDD])
           eq_refl eq_refl eq_refl eq_refl eq_refl eq_refl) as [_ H].
  apply (H 2).
  - vm_compute. split; [discriminate|reflexivity].
  - intros Hs. specialize (Hs (Js.byte_of_Z 0xCC) eq_refl). vm_compute in Hs.
    discriminate Hs.
  - intros j Hj b.
    assert (Hc : j = 0 \/ j = 1) by lia.
    destruct Hc as [-> | ->]; vm_compute; intros [= <-]; reflexivity.
Defined.

(** ** The end of the flash in a whole-flash read *)

(** X12. In a read session, a [FLASH_READ_ADDRESS_ERROR] in Reading is
    the end of the flash: the handler writes out one buffer, which has
    one byte per address read so far (as many bytes as the current
    address, entries pushed as [undefined] becoming 0), sends
    [START_APP], and leaves the object as it was. *)
Theorem read_address_error_writes_what_was_read
    (a : Args.t) (signature : Z * Z * Z) (flashSize : Z) (image : MemoryMap)
    (x : jsnum) (inputs : list input) (now : Z) (d0 d1 d2 d3 d4 d5 d6 d7 : byte) :
  Args.r a = Some x ->
  let s := r_app (run inputs (new_FlashApp a signature flashSize image)) in
  state s = STATE_READING ->
  256 * Js.u8 d0 + Js.u8 d1 = Args.mcuid a ->
  Js.u8 d2 = CMD_FLASH_READ_ADDRESS_ERROR ->
  let r := handleCanMsg now (mkMsg (Args.canIdMcu a) [d0; d1; d2; d3; d4; d5; d6; d7]) s in
  hex_outputs (r_events r) = [Uint8Array_from (readDataArr s)]
  /\ Z.of_nat (length (Uint8Array_from (readDataArr s))) = curAddr s
  /\ r_app r = s
  /\ r_outcome r = Returned
  /\ exists f, sent (r_events r) = [f] /\ frame_cmd f = Some CMD_START_APP.
Proof.
  intros Hr s Hst Hid Hcmd r.
  destruct (new_FlashApp_read_inv a signature flashSize image x Hr)
    as (Hread & Hver & Hempty & Hargs & Hinv0).
  pose proof (run_read_inv _ Hread Hver Hempty inputs _ Hinv0) as (Hconf & _ & Hlen).
  fold s in Hconf, Hlen.
  assert (Ha : args (conf s) = a) by (rewrite Hconf; exact Hargs).
  assert (Hv : doVerify (conf s) = false) by (rewrite Hconf; exact Hver).
  subst r. rewrite <- Ha in Hid |- *.
  rewrite handleCanMsg_dispatch by exact Hid. rewrite Hst, Hcmd.
  unfold handle_reading.
  change (CMD_FLASH_READ_ADDRESS_ERROR =? CMD_FLASH_DONE_VERIFY) with false.
  change (CMD_FLASH_READ_ADDRESS_ERROR =? CMD_FLASH_READ_DATA) with false.
  change (CMD_FLASH_READ_ADDRESS_ERROR =? CMD_FLASH_READ_ADDRESS_ERROR) with true.
  cbn iota. rewrite Hv. cbn [r_app r_events r_outcome].
  split; [|split; [|split; [reflexivity|split; [reflexivity|]]]].
  - unfold readDone, progressStop. destruct (doProgress _); reflexivity.
  - unfold Uint8Array_from. rewrite length_map. exact Hlen.
  - exists (to_mcu s (command_buffer s CMD_START_APP [0; 0; 0; 0])).
    split; [|apply frame_cmd_command].
    unfold readDone, progressStop. destruct (doProgress _); reflexivity.
Qed.

Lemma read_address_error_writes_what_was_read_witness :
  let s := r_app (run [ Recv 0 (Sample.from_mcu 0x0B 0 [0x00; 0x00; 0x77; 0xFF]);
                        Recv 0 (Sample.from_mcu 0x48 0xA0 [1; 2; 3; 4]) ]
                    (new_FlashApp Sample.read_args Sample.m328p 32768 [])) in
  let r := handleCanMsg 0
             (mkMsg (Args.canIdMcu Sample.read_args)
                (Js.Buffer_from [0x00; 0x42; 0x4B; 0; 0; 0; 0; 0])) s in
  hex_outputs (r_events r) = [Js.Buffer_from [1; 2; 3; 4; 0]]
  /\ curAddr s = 5.
Proof.
  intros s.
  destruct (read_address_error_writes_what_was_read Sample.read_args Sample.m328p
              32768 [] (Num 10)
              [ Recv 0 (Sample.from_mcu 0x0B 0 [0x00; 0x00; 0x77; 0xFF]);
                Recv 0 (Sample.from_mcu 0x48 0xA0 [1; 2; 3; 4]) ]
              0
              (Js.byte_of_Z 0) (Js.byte_of_Z 0x42) (Js.byte_of_Z 0x4B) (Js.byte_of_Z 0)
              (Js.byte_of_Z 0) (Js.byte_of_Z 0) (Js.byte_of_Z 0) (Js.byte_of_Z 0)
              eq_refl eq_refl eq_refl eq_refl) as (Hhex & Hlen & _).
  split; [exact Hhex|]. vm_compute. reflexivity.
Defined.

(** ** The write pass against a target that acknowledges *)

Section TargetFrames.

Lemma decode_addr_bytes a :
  remote_address
    (Js.byte_of_Z (nth 0 (addr_bytes a) 0)) (Js.byte_of_Z (nth 1 (addr_bytes a) 0))
    (Js.byte_of_Z (nth 2 (addr_bytes a) 0)) (Js.byte_of_Z (nth 3 (addr_bytes a) 0))
  = Js.to_int32 a.
Proof.
  rewrite remote_address_be32, addr_bytes_be32. unfold be32, be32_bytes.
  cbn [nth]. rewrite !u8_byte_of_Z, !Z.mod_mod by lia.
  rewrite be32_bytes_value. apply to_int32_mod32.
Qed.

Lemma mcuid_bytes m :
  0 <= m < 65536 ->
  256 * Js.u8 (Js.byte_of_Z (Js.and (Js.sar m 8) 255))
  + Js.u8 (Js.byte_of_Z (Js.and m 255)) = m.
Proof.
  intros Hm. rewrite !u8_byte_of_Z, !and_255, !Z.mod_mod by lia.
  rewrite sar_small by lia.
  change (2 ^ 8) with 256. Z.div_mod_to_equations. lia.
Qed.

Lemma fragment_count (n : nat) addr :
  (n <= 4)%nat ->
  Z.lor (Z.shiftl (Z.of_nat n) 5) (Z.land addr 31) / 32 = Z.of_nat n.
Proof.
  intros Hn. replace 31 with (Z.ones 5) by reflexivity.
  rewrite Z.land_ones, Z.shiftl_mul_pow2 by lia.
  assert (Hl : Z.lor (Z.of_nat n * 2 ^ 5) (addr mod 2 ^ 5)
               = Z.of_nat n * 2 ^ 5 + addr mod 2 ^ 5).
  { apply lor_disjoint; [lia|]. apply Z.mod_pos_bound. lia. }
  rewrite Hl. change (2 ^ 5) with 32. Z.div_mod_to_equations. lia.
Qed.

(** What the handler reads in an acknowledgement. *)
Lemma flash_ready_msg_decoded a (n : nat) remote :
  0 <= Args.mcuid a < 65536 -> (n <= 4)%nat -> - 2 ^ 31 <= remote < 2 ^ 31 ->
  exists d0 d1 d2 d3 d4 d5 d6 d7,
    flash_ready_msg a (Z.of_nat n) remote
    = mkMsg (Args.canIdMcu a) [d0; d1; d2; d3; d4; d5; d6; d7]
    /\ 256 * Js.u8 d0 + Js.u8 d1 = Args.mcuid a
    /\ Js.u8 d2 = CMD_FLASH_READY
    /\ Js.u8 d3 / 32 = Z.of_nat n
    /\ remote_address d4 d5 d6 d7 = remote.
Proof.
  intros Hm Hn Hr. unfold flash_ready_msg, Js.Buffer_from.
  cbn [app map addr_bytes]. do 8 eexists. split; [reflexivity|].
  split; [apply mcuid_bytes; exact Hm|].
  split; [rewrite u8_byte_of_Z; reflexivity|].
  split.
  - rewrite fragment_byte by exact Hn. apply fragment_count. exact Hn.
  - pose proof (decode_addr_bytes remote) as Hd. cbn [nth addr_bytes] in Hd.
    rewrite Hd. apply to_int32_small. exact Hr.
Qed.

End TargetFrames.

Section WritePass.

Variable a : Args.t.
Variable signature : Z * Z * Z.
Variable flashSize : Z.
Variable A : Z.
Variable block : list byte.

Hypothesis a_flash : Args.r a = None.
Hypothesis a_mcuid : 0 <= Args.mcuid a < 65536.
Hypothesis A_low : 0 <= A.
Hypothesis A_high : A + Z.of_nat (length block) < 2 ^ 31.

Variable c : Config.
Hypothesis c_is : c = conf (new_FlashApp a signature flashSize [(A, block)]).

Lemma map_u8_inj (l1 l2 : list byte) : map Js.u8 l1 = map Js.u8 l2 -> l1 = l2.
Proof.
  revert l2. induction l1 as [|x l1 IH]; intros [|y l2] H; try discriminate;
    [reflexivity|].
  cbn [map] in H. injection H as Hx Hl. apply u8_inj in Hx. subst.
  f_equal. apply IH. exact Hl.
Qed.

(** The receiver of a data frame decodes the chunk that was packed. *)
Lemma data_payload_packed s buf (chunk : list byte) x0 x1 x2 addr :
  (length chunk <= 4)%nat ->
  map Js.u8 buf
  = [x0; x1; x2; Z.lor (Z.shiftl (Z.of_nat (length chunk)) 5) (Z.land addr 31)]
    ++ map Js.u8 chunk ++ repeat 0 (4 - length chunk) ->
  data_payload (to_mcu s buf) = chunk.
Proof.
  intros Hn Hbuf. destruct buf as [|b0 [|b1 [|b2 [|b3 rest]]]]; try discriminate.
  cbn [map app] in Hbuf. injection Hbuf as _ _ _ H3 Hrest.
  unfold data_payload, to_mcu. cbn [data].
  change (Js.get (b0 :: b1 :: b2 :: b3 :: rest) CAN_DATA_BYTE_LEN_AND_ADDR)
    with (Some b3).
  cbv beta iota. rewrite byteCount_eq, H3, fragment_count by exact Hn. rewrite Nat2Z.id.
  change (drop 4 (b0 :: b1 :: b2 :: b3 :: rest)) with rest. apply map_u8_inj.
  rewrite <- firstn_map, Hrest.
  rewrite <- (length_map Js.u8 chunk) at 1.
  rewrite firstn_app, firstn_all, Nat.sub_diag. cbn [take]. apply app_nil_r.
Qed.

Lemma c_facts :
  args c = a /\ doRead c = false /\ doVerify c = negb (Args.V a)
  /\ memMap c = [(A, block)].
Proof.
  rewrite c_is. unfold new_FlashApp. rewrite a_flash. cbn. repeat split.
Qed.

Lemma get_block (i : nat) : Js.get block (Z.of_nat i) = block !! i.
Proof.
  unfold Js.get. destruct (Z.ltb_spec (Z.of_nat i) 0); [lia|].
  rewrite Nat2Z.id. reflexivity.
Qed.

(** The write step once the cursor stands at [i]: the next chunk, or
    the closing frame at the end of the block. *)
Lemma write_step_at d4 d5 d6 d7 (i : nat) s :
  writing_at c A i s ->
  remote_address d4 d5 d6 d7 = A + Z.of_nat i ->
  let r := onFlashReady d4 d5 d6 d7 s in
  r_outcome r = Returned
  /\ if (i <? length block)%nat then
       r_app r = s
       /\ exists f,
            sent (r_events r) = [f]
            /\ frame_cmd f = Some CMD_FLASH_DATA
            /\ data_payload f = take 4 (drop i block)
     else
       exists last,
         sent (r_events r) = [last]
         /\ frame_cmd last = Some (closing_command a)
         /\ state (r_app r) = closing_state a.
Proof.
  intros (Hc & Hst & Hkeys & Hkey & Hidx & Hcur) Hremote.
  destruct c_facts as (Hargs & Hread & Hver & Hmap).
  assert (Hblock : memMap_get (memMap (conf s)) (memMapCurrentKey s) = Some block).
  { rewrite Hc, Hmap, Hkey. cbn. rewrite Z.eqb_refl. reflexivity. }
  cbn zeta. unfold onFlashReady, block_exhausted.
  rewrite Hblock, Hidx, get_block.
  destruct (Nat.ltb_spec i (length block)) as [Hlt | Hge].
  - destruct (lookup_lt_is_Some_2 block i Hlt) as [b Hb]. rewrite Hb.
    assert (Heq : curAddr s = remote_address d4 d5 d6 d7) by congruence.
    destruct (flash_next_data _ s block Heq Hblock) as (buf & -> & Hbuf).
    split; [reflexivity|]. split; [reflexivity|].
    exists (to_mcu s buf). cbn [r_events].
    split; [rewrite sent_app; destruct (Args.verbose _); reflexivity|].
    split.
    + rewrite frame_cmd_map. cbn [to_mcu data]. rewrite Hbuf. reflexivity.
    + rewrite Hidx in Hbuf. unfold chunk_at in Hbuf.
      destruct (Z.ltb_spec (Z.of_nat i) 0); [lia|]. rewrite Nat2Z.id in Hbuf.
      eapply data_payload_packed; [|exact Hbuf].
      rewrite length_take. lia.
  - rewrite (lookup_ge_None_2 block i) by lia. rewrite Hkeys, Hc, Hver.
    unfold closing_command, closing_state.
    destruct (Args.V a); cbn [negb]; (split; [reflexivity|]); eexists;
      cbn [r_events r_app]; rewrite !sent_app, sent_progressStop;
      (split; [reflexivity|]); (split; [apply frame_cmd_command|]);
      [exact Hst|reflexivity].
Qed.

(** An acknowledgement of [n] bytes at cursor [i] advances the cursors
    and runs the write step with the address after the chunk as remote
    address. *)
Lemma ack_handled (i n : nat) s :
  writing_at c A i s -> (n <= 4)%nat -> (i + n <= length block)%nat ->
  exists d4 d5 d6 d7 s1,
    remote_address d4 d5 d6 d7 = A + Z.of_nat (i + n)
    /\ writing_at c A (i + n) s1
    /\ handleCanMsg 0
         (flash_ready_msg a (Z.of_nat n) (A + Z.of_nat i + Z.of_nat n)) s
       = after (progressIncrement s (Z.of_nat n)) (onFlashReady d4 d5 d6 d7 s1).
Proof.
  intros (Hc & Hst & Hkeys & Hkey & Hidx & Hcur) Hn Hlen.
  destruct c_facts as (Hargs & _).
  destruct (flash_ready_msg_decoded a n (A + Z.of_nat i + Z.of_nat n) a_mcuid Hn)
    as (d0 & d1 & d2 & d3 & d4 & d5 & d6 & d7 & -> & Hid & Hcmd & Hcount & Hremote);
    [lia|].
  exists d4, d5, d6, d7,
    (set_memMapCurrentDataIdx (memMapCurrentDataIdx s + Z.of_nat n)
       (set_curAddr (curAddr s + Z.of_nat n) s)).
  split; [rewrite Hremote; lia|]. split.
  - repeat split; cbn; try assumption; lia.
  - assert (Ha : args (conf s) = a) by (rewrite Hc; exact Hargs).
    rewrite <- Ha in Hid |- *.
    rewrite handleCanMsg_dispatch by exact Hid. rewrite Hst.
    unfold handle_flashing. rewrite Hcmd.
    change (CMD_FLASH_READY =? CMD_FLASH_DATA_ERROR) with false.
    change (CMD_FLASH_READY =? CMD_FLASH_ADDRESS_ERROR) with false.
    change (CMD_FLASH_READY =? CMD_FLASH_READY) with true.
    cbn iota. rewrite byteCount_eq, Hcount. reflexivity.
Qed.

Lemma drop_past_chunk (j : nat) :
  drop (j + Nat.min 4 (length block - j)) block = drop (j + 4) block.
Proof.
  destruct (Nat.le_gt_cases 4 (length block - j)) as [Hle | Hgt].
  - rewrite Nat.min_l by exact Hle. reflexivity.
  - rewrite Nat.min_r by lia. rewrite !skipn_all2 by lia. reflexivity.
Qed.

Lemma chunk_then_rest (j : nat) :
  take 4 (drop j block) ++ drop (j + Nat.min 4 (length block - j)) block
  = drop j block.
Proof.
  rewrite drop_past_chunk, Nat.add_comm, <- skipn_skipn.
  apply firstn_skipn.
Qed.

(** From cursor [i] inside the block, against the acknowledging target:
    the data frames carry the rest of the block after the chunk at
    [i], and the closing frame follows. *)
Lemma acks_run fuel : forall (i : nat) s,
  writing_at c A i s -> (i < length block)%nat -> (length block - i <= fuel)%nat ->
  let r := run (target_acks fuel a (A + Z.of_nat i) (length block - i)) s in
  exists frames last,
    sent (r_events r) = frames ++ [last]
    /\ Forall (fun f => frame_cmd f = Some CMD_FLASH_DATA) frames
    /\ concat (map data_payload frames)
       = drop (i + Nat.min 4 (length block - i)) block
    /\ frame_cmd last = Some (closing_command a)
    /\ state (r_app r) = closing_state a
    /\ r_outcome r = Returned.
Proof.
  induction fuel as [|fuel IH]; intros i s Hw Hlt Hfuel; [lia|].
  cbn zeta. cbn [target_acks].
  destruct (length block - i)%nat as [|k] eqn:Hrem; [lia|].
  set (n := Nat.min 4 (S k)).
  assert (Hn : (n <= 4)%nat) by (subst n; lia).
  assert (Hin : (i + n <= length block)%nat) by (subst n; lia).
  destruct (ack_handled i n s Hw Hn Hin)
    as (d4 & d5 & d6 & d7 & s1 & Hremote & Hw1 & Hstep).
  destruct (write_step_at d4 d5 d6 d7 (i + n) s1 Hw1 Hremote) as [Hout Hnext].
  cbn zeta in Hout, Hnext.
  cbn [run step]. rewrite Hstep. cbn [after r_outcome r_events r_app].
  rewrite Hout.
  destruct (Nat.ltb_spec (i + n) (length block)) as [Hmore | Hend].
  - destruct Hnext as (Happ & f & Hsent & Hcmd & Hpay). rewrite Happ.
    replace (A + Z.of_nat i + Z.of_nat n) with (A + Z.of_nat (i + n)) by lia.
    replace (S k - n)%nat with (length block - (i + n))%nat by lia.
    destruct (IH (i + n)%nat s1 Hw1 Hmore ltac:(lia))
      as (frames & last & Hs & Hall & Hcat & Hlast & Hstate & Hret).
    cbn zeta in Hs, Hstate, Hret.
    exists (f :: frames), last. cbn [after r_events r_app r_outcome].
    rewrite !sent_app, sent_progressIncrement, Hsent, Hs.
    split; [reflexivity|]. split; [constructor; assumption|].
    split; [|auto].
    cbn [map concat]. rewrite Hpay, Hcat. apply chunk_then_rest.
  - destruct Hnext as (last & Hsent & Hcmd & Hstate).
    replace (S k - n)%nat with 0%nat by lia.
    assert (Hnil : target_acks fuel a (A + Z.of_nat i + Z.of_nat n) 0 = [])
      by (destruct fuel; reflexivity).
    rewrite Hnil. cbn [run after r_events r_app r_outcome].
    exists [], last. rewrite app_nil_r, sent_app, sent_progressIncrement, Hsent.
    split; [reflexivity|]. split; [constructor|].
    split; [|auto].
    cbn [map concat]. rewrite skipn_all2 by lia. reflexivity.
Qed.

(** The first [FLASH_READY], in Init: the session enters Flashing and
    the block, and sends the first chunk. *)
Lemma first_ready_handled :
  Args.e a = false ->
  let r := handleCanMsg 0 (flash_ready_msg a 0 A)
             (new_FlashApp a signature flashSize [(A, block)]) in
  r_outcome r = Returned
  /\ writing_at c A 0 (r_app r)
  /\ exists f,
       sent (r_events r) = [f]
       /\ frame_cmd f = Some CMD_FLASH_DATA
       /\ data_payload f = take 4 block.
Proof.
  intros He. cbn zeta.
  destruct c_facts as (Hargs & Hread & Hver & Hmap).
  destruct (flash_ready_msg_decoded a 0 A a_mcuid ltac:(lia) ltac:(lia))
    as (d0 & d1 & d2 & d3 & d4 & d5 & d6 & d7 & Hmsg & Hid & Hcmd & _ & Hremote).
  change (Z.of_nat 0) with 0 in Hmsg. rewrite Hmsg.
  set (s0 := new_FlashApp a signature flashSize [(A, block)]) in *.
  assert (Hs0 : state s0 = STATE_INIT /\ doErase s0 = false
                /\ memMapKeys s0 = [A] /\ memMapCurrentKey s0 = None).
  { subst s0. unfold new_FlashApp. rewrite a_flash, He. repeat split. }
  destruct Hs0 as (Hst & Her & Hkeys & Hkey).
  rewrite <- Hargs in Hid |- *. rewrite c_is in Hid |- *. fold s0 in Hid |- *.
  rewrite handleCanMsg_dispatch by exact Hid. rewrite Hst.
  unfold handle_init. rewrite Hcmd.
  change (CMD_FLASH_READY =? CMD_BOOTLOADER_START) with false.
  change (CMD_FLASH_READY =? CMD_FLASH_READY) with true.
  cbn iota. rewrite <- c_is, Hread, Her.
  set (s1 := enter_block A [] (set_state STATE_FLASHING s0)).
  assert (Hw1 : writing_at c A 0 s1).
  { subst s1. repeat split; cbn; [symmetry; exact c_is|lia]. }
  assert (Hon : onFlashReady d4 d5 d6 d7 (set_state STATE_FLASHING s0)
                = after (progressStart (set_state STATE_FLASHING s0)
                           (memMapTotalBytes (conf (set_state STATE_FLASHING s0))) 0)
                    (flash_next (remote_address d4 d5 d6 d7) s1)).
  { unfold onFlashReady, block_exhausted.
    cbn [memMapCurrentKey set_state memMapKeys conf]. rewrite Hkey, Hkeys.
    reflexivity. }
  rewrite Hon.
  destruct Hw1 as (Hc1 & Hst1 & Hkeys1 & Hkey1 & Hidx1 & Hcur1).
  assert (Hblock : memMap_get (memMap (conf s1)) (memMapCurrentKey s1) = Some block).
  { rewrite Hc1, Hmap, Hkey1. cbn. rewrite Z.eqb_refl. reflexivity. }
  assert (Heq : curAddr s1 = remote_address d4 d5 d6 d7) by (rewrite Hcur1; lia).
  destruct (flash_next_data _ s1 block Heq Hblock) as (buf & -> & Hbuf).
  cbn [after r_outcome r_app r_events].
  split; [reflexivity|]. split; [repeat split; assumption|].
  exists (to_mcu s1 buf).
  split; [rewrite !sent_app, sent_progressStart; destruct (Args.verbose _); reflexivity|].
  split.
  - rewrite frame_cmd_map. cbn [to_mcu data]. rewrite Hbuf. reflexivity.
  - rewrite Hidx1 in Hbuf. unfold chunk_at in Hbuf. cbn in Hbuf.
    eapply data_payload_packed; [|exact Hbuf].
    rewrite length_take. lia.
Qed.

End WritePass.

(** X13. Writing an image of one block (no [-r], no [-e]) against a
    target that acknowledges every frame: the first [FLASH_READY]
    reports the block's start, every later one the size of the chunk
    just sent and the address after it. The host then sends data frames
    only, whose payloads, decoded by their own byte counts and put end
    to end, are exactly the block, and closes with [FLASH_DONE] (with
    [-V], staying in Flashing) or [FLASH_DONE_VERIFY] (moving to
    Reading). *)
Theorem single_block_is_transmitted
    (a : Args.t) (signature : Z * Z * Z) (flashSize : Z) (A : Z) (block : list byte) :
  Args.r a = None ->
  Args.e a = false ->
  0 <= Args.mcuid a < 65536 ->
  block <> [] ->
  0 <= A ->
  A + Z.of_nat (length block) < 2 ^ 31 ->
  let inputs :=
    Recv 0 (flash_ready_msg a 0 A) :: target_acks (length block) a A (length block) in
  let r := run inputs (new_FlashApp a signature flashSize [(A, block)]) in
  exists frames last,
    sent (r_events r) = frames ++ [last]
    /\ Forall (fun f => frame_cmd f = Some CMD_FLASH_DATA) frames
    /\ concat (map data_payload frames) = block
    /\ frame_cmd last = Some (closing_command a)
    /\ state (r_app r) = closing_state a
    /\ r_outcome r = Returned.
Proof.
  intros Hr He Hm Hne HA Hhigh inputs r. subst r inputs.
  destruct (first_ready_handled a signature flashSize A block Hr Hm HA Hhigh _ eq_refl He)
    as (Hout & Hw & f & Hsent & Hcmd & Hpay).
  cbn zeta in Hout, Hw, Hsent.
  cbn [run step]. rewrite Hout.
  assert (Hlen : (0 < length block)%nat) by (destruct block; [contradiction|cbn; lia]).
  pose proof (acks_run a signature flashSize A block Hr Hm HA Hhigh _ eq_refl
                (length block) 0 _ Hw Hlen ltac:(lia)) as Hrun.
  cbn zeta in Hrun.
  replace (A + Z.of_nat 0) with A in Hrun by lia.
  rewrite Nat.sub_0_r in Hrun.
  destruct Hrun as (frames & last & Hs & Hall & Hcat & Hlast & Hstate & Hret).
  exists (f :: frames), last. cbn [after r_events r_app r_outcome].
  rewrite sent_app, Hsent, Hs.
  split; [reflexivity|]. split; [constructor; assumption|].
  split; [|auto].
  cbn [map concat]. rewrite Hpay, Hcat.
  pose proof (chunk_then_rest block 0) as Hc. cbn [drop] in Hc.
  rewrite Nat.sub_0_r in Hc. exact Hc.
Qed.

Lemma single_block_is_transmitted_witness :
  let block := Js.Buffer_from [0xAA; 0xBB; 0xCC; 0xDD; 0xEE] in
  let inputs :=
    Recv 0 (flash_ready_msg Sample.flash_args 0 0x100)
    :: target_acks 5 Sample.flash_args 0x100 5 in
  let r := run inputs (new_FlashApp Sample.flash_args Sample.m328p 32768
                         [(0x100, block)]) in
  exists frames last,
    sent (r_events r) = frames ++ [last]
    /\ Forall (fun f => frame_cmd f = Some CMD_FLASH_DATA) frames
    /\ concat (map data_payload frames) = block
    /\ frame_cmd last = Some (closing_command Sample.flash_args)
    /\ state (r_app r) = closing_state Sample.flash_args
    /\ r_outcome r = Returned.
Proof.
  apply (single_block_is_transmitted Sample.flash_args Sample.m328p 32768 0x100
           (Js.Buffer_from [0xAA; 0xBB; 0xCC; 0xDD; 0xEE]));
    try reflexivity; try discriminate;
    vm_compute; split; [discriminate|reflexivity].
Defined.

(** ** The device catalog *)

Section Catalog.

Lemma is_case_spec partno labels :
  is_case partno labels = true <-> In partno labels.
Proof.
  unfold is_case. rewrite existsb_exists. split.
  - intros (x & Hin & Heq). apply String.eqb_eq in Heq. subst. exact Hin.
  - intros Hin. exists partno. split; [exact Hin|apply String.eqb_refl].
Qed.

Lemma loadDeviceInfo_switch partno :
  loadDeviceInfo partno = device_switch (toLowerCase partno).
Proof. reflexivity. Qed.

(** The labels of the switch: lower-case names, three for each entry. *)
Lemma device_switch_labels p :
  fst (device_switch p) <> (0, 0, 0) ->
  exists suffix,
    In p [ String.append "m"%string suffix; String.append "mega"%string suffix;
           String.append "atmega"%string suffix ]
    /\ forall q,
         In q [ String.append "m"%string suffix; String.append "mega"%string suffix;
                String.append "atmega"%string suffix ] ->
         toLowerCase q = q /\ device_switch q = device_switch p.
Proof.
  unfold device_switch at 1.
  repeat match goal with
         | |- context [if is_case p ?l then _ else _] =>
             destruct (is_case p l) eqn:?
         end;
    try (intros H; exfalso; apply H; reflexivity).
  all: intros _.
  all: match goal with
       | H : is_case _ _ = true |- _ =>
           apply is_case_spec in H; cbn [In] in H;
           destruct H as [<- | [<- | [<- | []]]]
       end.
  all: match goal with
       | |- ex (fun suffix => In ?q _ /\ _) =>
           first
             [ exists (String.substring 6 (String.length q) q);
               split; [vm_compute; auto 4|];
               intros x [<- | [<- | [<- | []]]]; split; reflexivity
             | exists (String.substring 4 (String.length q) q);
               split; [vm_compute; auto 4|];
               intros x [<- | [<- | [<- | []]]]; split; reflexivity
             | exists (String.substring 1 (String.length q) q);
               split; [vm_compute; auto 4|];
               intros x [<- | [<- | [<- | []]]]; split; reflexivity ]
       end.
Qed.

End Catalog.

(** X14. Every entry of the device catalog is an Atmel signature
    [1E 9x ..] whose second byte gives the flash size, [1 KiB << x],
    from 32 KiB to 256 KiB; any other part name gives the signature
    [00 00 00] and flash size 0. *)
Theorem catalog_flash_size_follows_signature (partno : String.string) :
  let '((s0, s1, s2), size) := loadDeviceInfo partno in
  (s0 = 0x1E /\ 0x95 <= s1 <= 0x98 /\ size = 1024 * 2 ^ (s1 - 0x90))
  \/ ((s0, s1, s2) = (0, 0, 0) /\ size = 0).
Proof.
  unfold loadDeviceInfo. cbv zeta. generalize (toLowerCase partno). clear partno.
  intros partno. unfold device_switch.
  repeat match goal with
         | |- context [if is_case partno ?l then _ else _] =>
             destruct (is_case partno l); [left; repeat split; lia|]
         end.
  right. split; reflexivity.
Qed.

(** X15. Letter case apart, a part is known under exactly the three
    spellings [m..], [mega..] and [atmega..] of one suffix: the name in
    lower case is one of the three, the three give the same entry, and
    so does every name that differs from it in letter case only
    ([M328P], [ATmega328P]). *)
Theorem catalog_spellings_agree (partno : String.string) :
  fst (loadDeviceInfo partno) <> (0, 0, 0) ->
  exists suffix,
    In (toLowerCase partno)
       [ String.append "m"%string suffix; String.append "mega"%string suffix;
         String.append "atmega"%string suffix ]
    /\ loadDeviceInfo (String.append "m"%string suffix) = loadDeviceInfo partno
    /\ loadDeviceInfo (String.append "mega"%string suffix) = loadDeviceInfo partno
    /\ loadDeviceInfo (String.append "atmega"%string suffix) = loadDeviceInfo partno
    /\ forall other, toLowerCase other = toLowerCase partno ->
         loadDeviceInfo other = loadDeviceInfo partno.
Proof.
  intros H. rewrite loadDeviceInfo_switch in H.
  destruct (device_switch_labels _ H) as (suffix & Hin & Hall).
  exists suffix. split; [exact Hin|].
  assert (Hone : forall q,
            In q [ String.append "m"%string suffix; String.append "mega"%string suffix;
                   String.append "atmega"%string suffix ] ->
            loadDeviceInfo q = loadDeviceInfo partno).
  { intros q Hq. destruct (Hall q Hq) as [Hl Hd].
    now rewrite !loadDeviceInfo_switch, Hl. }
  repeat split.
  - apply Hone. cbn [In]. auto.
  - apply Hone. cbn [In]. auto.
  - apply Hone. cbn [In]. auto.
  - intros other E. now rewrite !loadDeviceInfo_switch, E.
Qed.

Lemma catalog_spellings_agree_witness :
  exists suffix,
    In (toLowerCase "ATmega328P"%string)
       [ String.append "m"%string suffix; String.append "mega"%string suffix;
         String.append "atmega"%string suffix ]
    /\ loadDeviceInfo (String.append "m"%string suffix) = loadDeviceInfo "ATmega328P"%string
    /\ loadDeviceInfo (String.append "mega"%string suffix) = loadDeviceInfo "ATmega328P"%string
    /\ loadDeviceInfo (String.append "atmega"%string suffix) = loadDeviceInfo "ATmega328P"%string
    /\ forall other, toLowerCase other = toLowerCase "ATmega328P"%string ->
         loadDeviceInfo other = loadDeviceInfo "ATmega328P"%string.
Proof.
  apply (catalog_spellings_agree "ATmega328P"%string). vm_compute. discriminate.
Defined.


(** ** The reset message and the numbers of the command line *)

Section Parsing.

Local Open Scope N_scope.

Lemma below_16 (v : N) :
  v < 16 -> In v [0; 1; 2; 3; 4; 5; 6; 7; 8; 9; 10; 11; 12; 13; 14; 15].
Proof.
  intros H. cbn [In].
  destruct v as [|p]; [tauto|].
  do 4 (destruct p as [p|p|]; try tauto); exfalso; lia.
Qed.

Ltac each_digit H :=
  apply below_16 in H; cbn [In] in H;
  repeat (destruct H as [H|H]; [subst|]); try contradiction.

Lemma radix_digit_hex_digit v :
  v < 16 -> radix_digit 16 (hex_digit v) = Some v.
Proof. intros H. each_digit H; reflexivity. Qed.

Lemma hex_digit_plain v :
  v < 16 ->
  is_white_space (hex_digit v) = false
  /\ is_line_terminator (hex_digit v) = false
  /\ hex_digit v <> 35 /\ hex_digit v <> 43 /\ hex_digit v <> 45
  /\ hex_digit v <> 88 /\ hex_digit v <> 120.
Proof. intros H. each_digit H; repeat split; discriminate. Qed.

Lemma mod_16_lt n : n mod 16 < 16.
Proof. apply N.mod_lt. discriminate. Qed.

Lemma parse_digits_hex_fixed w : forall n rest acc seen,
  parse_digits 16 (hex_fixed w n ++ rest) acc seen
  = parse_digits 16 rest (n mod 16 ^ N.of_nat w + 16 ^ N.of_nat w * acc)
      (seen || negb (Nat.eqb w 0)).
Proof.
  induction w as [|w IH]; intros n rest acc seen.
  - cbn [hex_fixed app Nat.eqb negb]. rewrite orb_false_r.
    change (16 ^ N.of_nat 0) with 1. rewrite N.mod_1_r. f_equal. lia.
  - cbn [hex_fixed Nat.eqb negb]. rewrite orb_true_r.
    rewrite <- app_assoc. cbn [app]. rewrite IH.
    cbn [parse_digits]. rewrite radix_digit_hex_digit by apply mod_16_lt.
    f_equal.
    rewrite Nnat.Nat2N.inj_succ, N.pow_succ_r'.
    rewrite (N.Div0.mod_mul_r n 16 (16 ^ N.of_nat w)). lia.
Qed.

(** A string of hexadecimal digits starts with none of the things
    [parseInt] removes. *)
Lemma hex_fixed_head w n :
  (0 < w)%nat ->
  exists d tl, hex_fixed w n = hex_digit d :: tl /\ d < 16
    /\ (tl = [] \/ exists d' tl', tl = hex_digit d' :: tl' /\ d' < 16).
Proof.
  revert n. induction w as [|w IH]; intros n Hw; [lia|].
  cbn [hex_fixed]. destruct w as [|w].
  - cbn [hex_fixed app]. exists (n mod 16), []. split; [reflexivity|].
    split; [apply mod_16_lt | now left].
  - destruct (IH (n / 16) ltac:(lia)) as (d & tl & E & Hd & Htl).
    rewrite E. cbn [app]. exists d, (tl ++ [hex_digit (n mod 16)]).
    split; [reflexivity|]. split; [exact Hd|]. right.
    destruct Htl as [->|(d' & tl' & -> & Hd')].
    + exists (n mod 16), []. split; [reflexivity | apply mod_16_lt].
    + exists d', (tl' ++ [hex_digit (n mod 16)]). split; [reflexivity | exact Hd'].
Qed.

Lemma hex_fixed_plain w n :
  (0 < w)%nat ->
  trim_start (hex_fixed w n) = hex_fixed w n
  /\ strip_sign (hex_fixed w n) = (1%Z, hex_fixed w n)
  /\ strip_prefix 16 (hex_fixed w n) = hex_fixed w n.
Proof.
  intros Hw.
  destruct (hex_fixed_head w n Hw) as (d & tl & -> & Hd & Htl).
  destruct (hex_digit_plain d Hd) as (Hws & _).
  cbn [trim_start]. rewrite Hws. split; [reflexivity|]. split.
  - each_digit Hd; reflexivity.
  - destruct Htl as [->|(d' & tl' & -> & Hd')].
    + each_digit Hd; reflexivity.
    + each_digit Hd; try reflexivity. each_digit Hd'; reflexivity.
Qed.

Lemma parseInt_hex_fixed w n :
  (0 < w)%nat -> n < 16 ^ N.of_nat w -> n <= 2 ^ 53 ->
  parseInt (hex_fixed w n) 16 = Int (Z.of_N n).
Proof.
  intros Hw Hn Hbig.
  assert (E : parse_digits 16 (hex_fixed w n) 0 false = Some n).
  { rewrite <- (app_nil_r (hex_fixed w n)), parse_digits_hex_fixed.
    cbn [orb]. destruct w; [lia|]. cbn [Nat.eqb negb parse_digits].
    rewrite N.mod_small by exact Hn. f_equal. lia. }
  destruct (hex_fixed_plain w n Hw) as (E1 & E2 & E3).
  unfold parseInt. rewrite E1, E2, E3, E.
  destruct (N.leb_spec n (2 ^ 53)); [|lia]. f_equal. lia.
Qed.

Lemma hex_fixed_length w : forall n, length (hex_fixed w n) = w.
Proof.
  induction w as [|w IH]; intros n; [reflexivity|].
  cbn [hex_fixed]. rewrite length_app, IH. cbn. lia.
Qed.

Lemma hex_fixed_digits w : forall n u,
  In u (hex_fixed w n) -> exists v, v < 16 /\ u = hex_digit v.
Proof.
  induction w as [|w IH]; intros n u H; [destruct H|].
  cbn [hex_fixed] in H. apply in_app_or in H. destruct H as [H|[<-|[]]].
  - exact (IH _ _ H).
  - exists (n mod 16). split; [apply mod_16_lt | reflexivity].
Qed.

(** The code units of a byte list written as pairs of digits. *)
Lemma hex_pairs_digits (bytes : list byte) u :
  In u (flat_map (fun b => hex_fixed 2 (Byte.to_N b)) bytes) ->
  exists v, v < 16 /\ u = hex_digit v.
Proof.
  intros H. apply in_flat_map in H. destruct H as (b & _ & H).
  exact (hex_fixed_digits _ _ _ H).
Qed.

Lemma split_hash_none l :
  (forall u, In u l -> u <> 35) -> split_hash l = (l, None).
Proof.
  induction l as [|u l IH]; intros H; [reflexivity|].
  cbn [split_hash]. destruct (N.eqb_spec u 35) as [E|_].
  - exfalso. exact (H u (or_introl eq_refl) E).
  - rewrite IH; [reflexivity|]. intros v Hv. apply H. now right.
Qed.

Lemma split_hash_some l r :
  (forall u, In u l -> u <> 35) -> split_hash (l ++ 35 :: r) = (l, Some r).
Proof.
  induction l as [|u l IH]; intros H; [reflexivity|].
  cbn [split_hash app]. destruct (N.eqb_spec u 35) as [E|_].
  - exfalso. exact (H u (or_introl eq_refl) E).
  - rewrite IH; [reflexivity|]. intros v Hv. apply H. now right.
Qed.

Lemma digit_not_hash u : (exists v, v < 16 /\ u = hex_digit v) -> u <> 35.
Proof. intros (v & Hv & ->). apply (hex_digit_plain v Hv). Qed.

Lemma hex_pair n :
  hex_fixed 2 n = [hex_digit ((n / 16) mod 16); hex_digit (n mod 16)].
Proof. reflexivity. Qed.

Lemma match_pairs_hex (bytes : list byte) tail :
  match_pairs (flat_map (fun b => hex_fixed 2 (Byte.to_N b)) bytes ++ tail)
  = map (fun b => hex_fixed 2 (Byte.to_N b)) bytes ++ match_pairs tail.
Proof.
  induction bytes as [|b bytes IH]; [reflexivity|].
  cbn [flat_map map]. rewrite hex_pair. cbn [app match_pairs].
  destruct (hex_digit_plain _ (mod_16_lt (Byte.to_N b / 16))) as (_ & -> & _).
  destruct (hex_digit_plain _ (mod_16_lt (Byte.to_N b))) as (_ & -> & _).
  cbn [negb andb]. now rewrite IH.
Qed.

Lemma reset_data_hex (bytes : list byte) :
  reset_data (map (fun b => hex_fixed 2 (Byte.to_N b)) bytes)
  = Some (map Js.u8 bytes).
Proof.
  induction bytes as [|b bytes IH]; [reflexivity|].
  cbn [map reset_data].
  pose proof (Byte.to_N_bounded b) as Hb.
  rewrite parseInt_hex_fixed;
    [| lia | change (16 ^ N.of_nat 2) with 256; lia
     | change (2 ^ 53) with 9007199254740992; lia ].
  now rewrite IH.
Qed.

Lemma Buffer_from_u8 (bytes : list byte) :
  Js.Buffer_from (map Js.u8 bytes) = bytes.
Proof.
  apply map_u8_inj. rewrite Buffer_from_bytes, map_map.
  apply map_ext. intros b. apply Z.mod_small, u8_range.
Qed.

(** What the reset step does with an id of [w] digits followed by a data
    part [d] that has no [#]. *)
Lemma send_reset_hex w id (d : list N) :
  (w = 3 \/ w = 8)%nat -> id < 16 ^ N.of_nat w ->
  (forall u, In u d -> u <> 35) ->
  send_reset (hex_fixed w id ++ 35 :: d)
  = match d with
    | [] => ResetSent (mkFrame (Z.of_N id) (Nat.eqb w 8) false [])
    | _ =>
        match match_pairs d with
        | [] => ResetTypeError
        | pairs =>
            match reset_data pairs with
            | None => ResetExit 1
            | Some data =>
                ResetSent (mkFrame (Z.of_N id) (Nat.eqb w 8) false (Js.Buffer_from data))
            end
        end
    end.
Proof.
  intros Hw Hid Hd. unfold send_reset.
  rewrite split_hash_some
    by (intros u Hu; apply digit_not_hash; exact (hex_fixed_digits _ _ _ Hu)).
  cbn [fmap option_fmap option_map]. rewrite (split_hash_none d Hd). cbn [fst].
  rewrite hex_fixed_length, parseInt_hex_fixed.
  - destruct Hw as [-> | ->]; reflexivity.
  - destruct Hw as [-> | ->]; lia.
  - exact Hid.
  - destruct Hw as [-> | ->].
    + change (16 ^ N.of_nat 3) with 4096 in Hid.
      change (2 ^ 53) with 9007199254740992. lia.
    + change (16 ^ N.of_nat 8) with 4294967296 in Hid.
      change (2 ^ 53) with 9007199254740992. lia.
Qed.

Lemma reset_message_nonempty l :
  l <> [] -> reset_message (Some l) = send_reset l.
Proof. destruct l; [congruence | reflexivity]. Qed.

Lemma hex_fixed_nonempty w id (d : list N) :
  (0 < w)%nat -> hex_fixed w id ++ d <> [].
Proof.
  intros Hw E. apply (f_equal (@length N)) in E.
  rewrite length_app, hex_fixed_length in E. cbn in E. lia.
Qed.

End Parsing.

Section ResetMessage.

Local Open Scope N_scope.

Lemma parse_digits_bound radix : forall l acc seen v,
  0 < radix ->
  parse_digits radix l acc seen = Some v ->
  v < (acc + 1) * radix ^ N.of_nat (length l).
Proof.
  induction l as [|u l IH]; intros acc seen v HR H.
  - cbn in H. destruct seen; [|discriminate]. injection H as ->.
    change (N.of_nat (length [])) with 0. rewrite N.pow_0_r. lia.
  - cbn [length]. rewrite Nnat.Nat2N.inj_succ, N.pow_succ_r'.
    assert (Hp : 0 < radix ^ N.of_nat (length l)) by (apply N.neq_0_lt_0, N.pow_nonzero; lia).
    cbn [parse_digits] in H. unfold radix_digit in H.
    destruct (digit_value u) as [d|].
    + destruct (N.ltb_spec d radix) as [Hd|_].
      * apply IH in H; [|exact HR]. nia.
      * destruct seen; [|discriminate]. injection H as ->. nia.
    + destruct seen; [|discriminate]. injection H as ->. nia.
Qed.

Lemma trim_start_length s : (length (trim_start s) <= length s)%nat.
Proof.
  induction s as [|u s IH]; [reflexivity|].
  cbn [trim_start]. destruct (is_white_space u); cbn [length]; lia.
Qed.

Lemma strip_prefix_length radix s : (length (strip_prefix radix s) <= length s)%nat.
Proof.
  unfold strip_prefix. destruct (radix =? 16); [|lia].
  destruct s as [|a [|b s]]; cbn [length]; try lia.
  - destruct a as [|p]; cbn [length]; try lia.
    do 6 (try destruct p as [p|p|]; cbn [length]; try lia).
  - destruct a as [|p]; cbn [length]; try lia.
    do 6 (try destruct p as [p|p|]; cbn [length]; try lia).
    destruct b as [|q]; cbn [length]; try lia.
    do 7 (try destruct q as [q|q|]; cbn [length]; try lia).
Qed.

Lemma strip_sign_length s sign str :
  strip_sign s = (sign, str) ->
  (sign = 1%Z /\ (length str <= length s)%nat)
  \/ (sign = (-1)%Z /\ (length str <= length s - 1)%nat).
Proof.
  unfold strip_sign. destruct s as [|u t]; [intros [= <- <-]; left; split; [reflexivity|lia]|].
  destruct (N.eq_dec u 45) as [->|H45];
    [intros [= <- <-]; right; split; [reflexivity|cbn [length]; lia]|].
  destruct (N.eq_dec u 43) as [->|H43];
    [intros [= <- <-]; left; split; [reflexivity|cbn [length]; lia]|].
  assert (E : match u with 45 => (-1, t)%Z | 43 => (1, t)%Z | _ => (1%Z, u :: t) end
          = (1%Z, u :: t)).
  { destruct u as [|p]; [reflexivity|].
    do 6 (destruct p as [p|p|]; try reflexivity); congruence. }
  rewrite E. intros [= <- <-]. left. split; [reflexivity | lia].
Qed.

(** An integer read from [k] code units: a sign takes one of them. *)
Lemma parseInt_bound s z :
  parseInt s 16 = Int z ->
  (- Z.of_N (16 ^ N.of_nat (length s - 1)) < z < Z.of_N (16 ^ N.of_nat (length s)))%Z.
Proof.
  unfold parseInt. pose proof (trim_start_length s) as Ht.
  destruct (strip_sign (trim_start s)) as [sign str] eqn:Es.
  apply strip_sign_length in Es. rename Es into Hs.
  destruct (parse_digits 16 (strip_prefix 16 str) 0 false) as [v|] eqn:E; [|discriminate].
  apply parse_digits_bound in E; [|lia].
  pose proof (strip_prefix_length 16 str) as Hl.
  destruct (v <=? 2 ^ 53); [|discriminate]. intros [= <-].
  assert (Hmono : forall a b : nat, (a <= b)%nat -> 16 ^ N.of_nat a <= 16 ^ N.of_nat b).
  { intros a b Hab. apply N.pow_le_mono_r; lia. }
  destruct Hs as [[-> Hlen] | [-> Hlen]].
  - pose proof (Hmono (length (strip_prefix 16 str)) (length s) ltac:(lia)). lia.
  - pose proof (Hmono (length (strip_prefix 16 str)) (length s - 1)%nat ltac:(lia)). lia.
Qed.

End ResetMessage.

(** X16. A reset option written as an id of three or eight hexadecimal
    digits, [#], and two digits for each data byte is sent as exactly
    that frame: the id, extended when the id has eight digits, never a
    remote request, the bytes in order (however many there are). *)
Theorem reset_message_reads_back (w : nat) (id : N) (bytes : list byte) :
  w = 3%nat \/ w = 8%nat -> (id < 16 ^ N.of_nat w)%N ->
  reset_message
    (Some (hex_fixed w id ++ 35%N :: flat_map (fun b => hex_fixed 2 (Byte.to_N b)) bytes))
  = ResetSent (mkFrame (Z.of_N id) (Nat.eqb w 8) false bytes).
Proof.
  intros Hw Hid.
  rewrite reset_message_nonempty by (apply hex_fixed_nonempty; lia).
  rewrite send_reset_hex;
    [| exact Hw | exact Hid
     | intros u Hu; apply digit_not_hash; exact (hex_pairs_digits _ _ Hu) ].
  destruct bytes as [|b bytes]; [reflexivity|].
  pose proof (match_pairs_hex (b :: bytes) []) as Em.
  rewrite !app_nil_r in Em. rewrite Em.
  cbn [flat_map]. rewrite hex_pair. cbn [app map].
  change (hex_fixed 2 (Byte.to_N b) :: map ?f bytes) with (map f (b :: bytes)).
  now rewrite reset_data_hex, Buffer_from_u8.
Qed.

Lemma reset_message_reads_back_witness :
  reset_message (Some (units "020040FF#4201FA"%string))
  = ResetSent (mkFrame 0x020040FF true false [x42; x01; xfa]).
Proof.
  apply (reset_message_reads_back 8 0x020040FF [x42; x01; xfa]).
  - right. reflexivity.
  - vm_compute. reflexivity.
Defined.

(** X17. A data part with an odd number of characters: the last
    character is dropped without a word when bytes come before it, and
    when it stands alone the constructor ends in a TypeError instead of
    the format error message. *)
Theorem reset_trailing_character (w : nat) (id : N) (bytes : list byte) (u : N) :
  w = 3%nat \/ w = 8%nat -> (id < 16 ^ N.of_nat w)%N -> u <> 35%N ->
  reset_message
    (Some (hex_fixed w id
           ++ 35%N :: flat_map (fun b => hex_fixed 2 (Byte.to_N b)) bytes ++ [u]))
  = match bytes with
    | [] => ResetTypeError
    | _ => ResetSent (mkFrame (Z.of_N id) (Nat.eqb w 8) false bytes)
    end.
Proof.
  intros Hw Hid Hu.
  rewrite reset_message_nonempty by (apply hex_fixed_nonempty; lia).
  rewrite send_reset_hex; [| exact Hw | exact Hid |].
  - destruct bytes as [|b bytes]; [reflexivity|].
    rewrite match_pairs_hex. cbn [match_pairs]. rewrite app_nil_r.
    cbn [flat_map]. rewrite hex_pair. cbn [app map].
    change (hex_fixed 2 (Byte.to_N b) :: map ?f bytes) with (map f (b :: bytes)).
    now rewrite reset_data_hex, Buffer_from_u8.
  - intros v Hv. apply in_app_or in Hv. destruct Hv as [Hv|[<-|[]]]; [|exact Hu].
    apply digit_not_hash. exact (hex_pairs_digits _ _ Hv).
Qed.

Lemma reset_trailing_character_witness :
  reset_message (Some (units "123#4"%string)) = ResetTypeError
  /\ reset_message (Some (units "123#42F"%string))
     = ResetSent (mkFrame 0x123 false false [x42]).
Proof.
  split.
  - apply (reset_trailing_character 3 0x123 [] 52%N);
      [left; reflexivity | vm_compute; reflexivity | discriminate].
  - apply (reset_trailing_character 3 0x123 [x42] 70%N);
      [left; reflexivity | vm_compute; reflexivity | discriminate].
Defined.

(** X18. Whatever the reset option holds, a frame is sent only when the
    part before the first [#] has three or eight characters and reads
    as a number in radix 16: the frame carries that number as its id, is
    never a remote request, is extended exactly when the id part has
    eight characters, and its id lies within what that many characters
    can write, a sign included. *)
Theorem reset_frame_bounds (reset : option (list N)) (f : frame) :
  reset_message reset = ResetSent f ->
  exists text,
    reset = Some text
    /\ let canIdStr := fst (split_hash text) in
       parseInt canIdStr 16 = Int (id f)
       /\ rtr f = false
       /\ ((length canIdStr = 3%nat /\ ext f = false /\ -256 < id f < 4096)
           \/ (length canIdStr = 8%nat /\ ext f = true /\ - 16 ^ 7 < id f < 16 ^ 8)).
Proof.
  intros H.
  assert (Hs : exists l, reset = Some l /\ send_reset l = ResetSent f).
  { destruct reset as [[|u l]|]; try discriminate. now exists (u :: l). }
  clear H. destruct Hs as (l & -> & H). exists l. split; [reflexivity|].
  unfold send_reset in H. cbv zeta.
  destruct (split_hash l) as [canIdStr rest]. cbn [fst].
  destruct (parseInt canIdStr 16) as [|z|] eqn:Ez.
  - rewrite orb_true_r in H. discriminate.
  - pose proof (parseInt_bound _ _ Ez) as Hb.
    assert (Hf : rtr f = false /\ id f = z /\ ext f = (3 <? length canIdStr)%nat).
    { destruct (_ || _); [discriminate|].
      destruct (fst <$> (split_hash <$> rest)) as [[|a d]|].
      - injection H as <-. auto.
      - destruct (match_pairs (a :: d)); [discriminate|].
        destruct (reset_data _); [|discriminate]. injection H as <-. auto.
      - injection H as <-. auto. }
    destruct Hf as (Hr & Hi & He). rewrite Hi.
    split; [reflexivity|]. split; [exact Hr|].
    rewrite orb_false_r in H.
    destruct (Nat.eqb_spec (length canIdStr) 3) as [E3|_].
    + left. rewrite E3 in Hb, He. split; [exact E3|]. split; [exact He|].
      change (Z.of_N (16 ^ N.of_nat (3 - 1))) with 256 in Hb.
      change (Z.of_N (16 ^ N.of_nat 3)) with 4096 in Hb. exact Hb.
    + destruct (Nat.eqb_spec (length canIdStr) 8) as [E8|_]; [|discriminate].
      right. rewrite E8 in Hb, He. split; [exact E8|]. split; [exact He|].
      change (Z.of_N (16 ^ N.of_nat (8 - 1))) with (16 ^ 7) in Hb.
      change (Z.of_N (16 ^ N.of_nat 8)) with (16 ^ 8) in Hb. exact Hb.
  - exfalso.
    destruct (negb (length canIdStr =? 3)%nat && negb (length canIdStr =? 8)%nat) eqn:El;
      [discriminate|].
    assert (Hlen : (length canIdStr <= 8)%nat).
    { destruct (Nat.eqb_spec (length canIdStr) 3); [lia|].
      destruct (Nat.eqb_spec (length canIdStr) 8); [lia|discriminate]. }
    clear H El. unfold parseInt in Ez.
    destruct (strip_sign (trim_start canIdStr)) as [sign str] eqn:Es.
    destruct (parse_digits 16 (strip_prefix 16 str) 0 false) as [v|] eqn:E; [|discriminate].
    apply parse_digits_bound in E; [|reflexivity].
    assert (Hl : (length (strip_prefix 16 str) <= 8)%nat).
    { pose proof (strip_prefix_length 16 str). pose proof (trim_start_length canIdStr).
      apply strip_sign_length in Es. lia. }
    assert (16 ^ N.of_nat (length (strip_prefix 16 str)) <= 16 ^ N.of_nat 8)%N
      by (apply N.pow_le_mono_r; lia).
    change (16 ^ N.of_nat 8)%N with 4294967296%N in *.
    destruct (N.leb_spec v (2 ^ 53)); [discriminate|].
    change (2 ^ 53)%N with 9007199254740992%N in *. lia.
Qed.

Lemma reset_frame_bounds_witness :
  exists text,
    Some (units "-FF#42"%string) = Some text
    /\ let canIdStr := fst (split_hash text) in
       parseInt canIdStr 16 = Int (id (mkFrame (-255) false false [x42]))
       /\ rtr (mkFrame (-255) false false [x42]) = false
       /\ ((length canIdStr = 3%nat /\ ext (mkFrame (-255) false false [x42]) = false
            /\ -256 < id (mkFrame (-255) false false [x42]) < 4096)
           \/ (length canIdStr = 8%nat /\ ext (mkFrame (-255) false false [x42]) = true
               /\ - 16 ^ 7 < id (mkFrame (-255) false false [x42]) < 16 ^ 8)).
Proof.
  apply (reset_frame_bounds (Some (units "-FF#42"%string))). vm_compute. reflexivity.
Defined.

(** ** [hexString] and [parseNumber] *)

Section HexString.

Lemma units_cons c s :
  units (String.String c s) = Ascii.N_of_ascii c :: units s.
Proof. reflexivity. Qed.

Lemma toUpperCase_length s : String.length (toUpperCase s) = String.length s.
Proof. induction s as [|c s IH]; [reflexivity|]. cbn. now rewrite IH. Qed.

Lemma toUpperCase_zeros k s :
  toUpperCase (Nat.iter k (String.String "0"%char) s)
  = Nat.iter k (String.String "0"%char) (toUpperCase s).
Proof.
  induction k as [|k IH]; [reflexivity|]. rewrite !Nat.iter_succ, <- IH. reflexivity.
Qed.

Lemma zeros_length k s :
  String.length (Nat.iter k (String.String "0"%char) s) = (k + String.length s)%nat.
Proof.
  induction k as [|k IH]; [reflexivity|]. rewrite Nat.iter_succ. cbn [String.length].
  rewrite IH. reflexivity.
Qed.

Lemma parse_zeros k s seen :
  parse_digits 16 (units (Nat.iter k (String.String "0"%char) s)) 0 seen
  = parse_digits 16 (units s) 0 (seen || negb (Nat.eqb k 0)).
Proof.
  revert seen. induction k as [|k IH]; intros seen.
  - cbn. now rewrite orb_false_r.
  - rewrite Nat.iter_succ, units_cons.
    change (parse_digits 16 (units (Nat.iter k (String.String "0"%char) s)) 0 true
            = parse_digits 16 (units s) 0 (seen || negb (Nat.eqb (S k) 0))).
    rewrite IH. cbn [Nat.eqb negb orb]. now rewrite orb_true_r.
Qed.

(** The digits that [toString(16)] writes for a positive number, read
    back after [acc]. *)
Lemma parse_of_pos n : forall p rest acc seen,
  (Pos.size_nat p <= n)%nat ->
  parse_digits 16 (units (toUpperCase (HexString.Raw.of_pos p rest))) acc seen
  = parse_digits 16 (units (toUpperCase rest))
      match acc with
      | N0 => Npos p
      | Npos v => Npos (HexString.pos_hex_app v p)
      end true.
Proof.
  induction n as [|n IH]; intros p rest acc seen Hn.
  - destruct p; cbn in Hn; lia.
  - do 4 (try destruct p as [p|p|]); destruct acc; try reflexivity;
      cbn [HexString.Raw.of_pos];
      (rewrite IH by (cbn [Pos.size_nat] in Hn; lia)); reflexivity.
Qed.

Lemma parse_toString16 n seen :
  0 <= n ->
  parse_digits 16 (units (toUpperCase (toString16 n))) 0 seen = Some (Z.to_N n).
Proof.
  intros Hn. destruct n as [|p|p]; [reflexivity| |lia].
  unfold toString16. now rewrite (parse_of_pos (Pos.size_nat p)).
Qed.

(** The characters [toString(16)] writes for a positive number, in upper
    case. *)
Lemma upper_of_pos n : forall p rest,
  (Pos.size_nat p <= n)%nat ->
  exists ds,
    String.list_ascii_of_string (toUpperCase (HexString.Raw.of_pos p rest))
    = ds ++ String.list_ascii_of_string (toUpperCase rest)
    /\ forall c, In c ds ->
         In c (String.list_ascii_of_string "0123456789ABCDEF"%string).
Proof.
  induction n as [|n IH]; intros p rest Hn.
  - destruct p; cbn in Hn; lia.
  - do 4 (try destruct p as [p|p|]);
      try (cbn [HexString.Raw.of_pos];
           match goal with
           | |- context [HexString.Raw.of_pos ?q (String.String ?c rest)] =>
               destruct (IH q (String.String c rest)
                           ltac:(cbn [Pos.size_nat] in Hn; lia)) as (ds & E & Hds);
               exists (ds ++ [upper c]); rewrite E, <- app_assoc;
               split; [reflexivity|];
               intros a Ha; apply in_app_or in Ha; destruct Ha as [Ha|[<-|[]]];
               [exact (Hds a Ha) | vm_compute; tauto]
           end);
      match goal with
      | |- context [toUpperCase (HexString.Raw.of_pos _ rest)] =>
          cbn [HexString.Raw.of_pos];
          match goal with
          | |- context [toUpperCase (String.String ?c rest)] =>
              exists [upper c]; split; [reflexivity|];
              intros a [<-|[]]; vm_compute; tauto
          end
      end.
Qed.

Lemma upper_toString16 n :
  0 <= n ->
  forall c, In c (String.list_ascii_of_string (toUpperCase (toString16 n))) ->
    In c (String.list_ascii_of_string "0123456789ABCDEF"%string).
Proof.
  intros Hn c Hc. destruct n as [|p|p]; [|  |lia].
  - destruct Hc as [<-|[]]. vm_compute. tauto.
  - unfold toString16 in Hc.
    destruct (upper_of_pos (Pos.size_nat p) p ""%string (Nat.le_refl _)) as (ds & E & Hds).
    rewrite E, app_nil_r in Hc. exact (Hds c Hc).
Qed.

(** [hexString] is [0x], some zeros, and the upper-case digits. *)
Lemma hexString_zeros num minLength :
  exists k,
    hexString num minLength
    = String.append "0x"%string
        (Nat.iter k (String.String "0"%char) (toUpperCase (toString16 num)))
    /\ (Nat.Even (k + String.length (toString16 num))
        \/ minLength = Some (Z.of_nat (k + String.length (toString16 num))))
    /\ (forall m, minLength = Some m ->
          m <= Z.of_nat (k + String.length (toString16 num))).
Proof.
  unfold hexString.
  set (hex := toString16 num).
  set (hex1 := if Nat.eqb (String.length hex mod 2) 0 then hex else String.String "0"%char hex).
  assert (H1 : exists k1, hex1 = Nat.iter k1 (String.String "0"%char) hex
                 /\ Nat.Even (k1 + String.length hex)).
  { unfold hex1. destruct (Nat.eqb_spec (String.length hex mod 2) 0) as [E|E].
    - exists 0%nat. split; [reflexivity|]. apply Nat.Div0.mod_divides in E.
      destruct E as (q & E). exists q. cbn. lia.
    - exists 1%nat. split; [reflexivity|].
      pose proof (Nat.mod_upper_bound (String.length hex) 2 ltac:(lia)).
      pose proof (Nat.div_mod_eq (String.length hex) 2).
      exists (S (String.length hex / 2)). lia. }
  destruct H1 as (k1 & E1 & Hev). rewrite E1.
  destruct minLength as [m|].
  - set (k2 := Z.to_nat (m - Z.of_nat (String.length (Nat.iter k1 (String.String "0"%char) hex)))).
    exists (k2 + k1)%nat.
    rewrite toUpperCase_zeros, toUpperCase_zeros, <- Nat.iter_add.
    split; [reflexivity|].
    assert (Hk2 : k2 = Z.to_nat (m - Z.of_nat (k1 + String.length hex)))
      by (unfold k2; now rewrite zeros_length).
    split.
    + destruct k2 as [|k2'] eqn:Ek; [left; exact Hev|]. right. f_equal. lia.
    + intros m' [= <-]. lia.
  - exists k1. rewrite toUpperCase_zeros. split; [reflexivity|].
    split; [left; exact Hev | discriminate].
Qed.

End HexString.

(** X19. A number written by [hexString] is read back by [parseNumber]:
    for every number from 0 to 2^53 and every minimal length the result
    is the number itself. *)
Theorem parseNumber_reads_hexString (num : Z) (minLength : option Z) :
  0 <= num <= 2 ^ 53 ->
  parseNumber (ArgString (units (hexString num minLength))) = Int num.
Proof.
  intros Hn. destruct (hexString_zeros num minLength) as (k & -> & _).
  change (parseNumber _) with
    (match parse_digits 16
             (units (Nat.iter k (String.String "0"%char) (toUpperCase (toString16 num))))
             0 false with
     | None => NotANumber
     | Some v => if (v <=? 2 ^ 53)%N then Int (1 * Z.of_N v) else Imprecise
     end).
  rewrite parse_zeros, parse_toString16 by lia.
  destruct (N.leb_spec (Z.to_N num) (2 ^ 53)) as [_|H].
  - f_equal. lia.
  - change (2 ^ 53)%N with (Z.to_N (2 ^ 53)) in H. lia.
Qed.

Lemma parseNumber_reads_hexString_witness :
  parseNumber (ArgString (units (hexString 0x42 (Some 4)))) = Int 0x42.
Proof.
  apply (parseNumber_reads_hexString 0x42 (Some 4)). vm_compute.
  split; discriminate.
Defined.

(** X20. The text [hexString] gives for a number that is not negative:
    [0x], then digits and upper-case letters A to F only, at least one
    and at least [minLength] of them, in even number unless the padding
    stopped at an odd [minLength]. *)
Theorem hexString_shape (num : Z) (minLength : option Z) :
  0 <= num ->
  exists body,
    hexString num minLength = String.append "0x"%string body
    /\ (forall c, In c (String.list_ascii_of_string body) ->
          In c (String.list_ascii_of_string "0123456789ABCDEF"%string))
    /\ (0 < String.length body)%nat
    /\ (Nat.Even (String.length body)
        \/ minLength = Some (Z.of_nat (String.length body)))
    /\ (forall m, minLength = Some m -> m <= Z.of_nat (String.length body)).
Proof.
  intros Hn. destruct (hexString_zeros num minLength) as (k & E & Hev & Hmin).
  exists (Nat.iter k (String.String "0"%char) (toUpperCase (toString16 num))).
  assert (Hl : String.length
            (Nat.iter k (String.String "0"%char) (toUpperCase (toString16 num)))
          = (k + String.length (toString16 num))%nat)
    by now rewrite zeros_length, toUpperCase_length.
  rewrite Hl. split; [exact E|]. split; [|split; [|split; [exact Hev | exact Hmin]]].
  - clear E Hev Hmin Hl. induction k as [|k IH]; intros c Hc.
    + exact (upper_toString16 num Hn c Hc).
    + destruct Hc as [<-|Hc]; [vm_compute; tauto | exact (IH c Hc)].
  - destruct num as [|p|p]; [cbn; lia| |lia].
    assert (0 < String.length (toString16 (Z.pos p)))%nat; [|lia].
    unfold toString16. clear. generalize ""%string.
    assert (G : forall n p s, (Pos.size_nat p <= n)%nat ->
              (0 < String.length (HexString.Raw.of_pos p s))%nat
              /\ (String.length s <= String.length (HexString.Raw.of_pos p s))%nat).
    { induction n as [|n IH]; intros q s Hq; [destruct q; cbn in Hq; lia|].
      do 4 (try destruct q as [q|q|]); cbn [HexString.Raw.of_pos];
        try (cbn [String.length]; lia);
        match goal with
        | |- context [HexString.Raw.of_pos ?r (String.String ?c s)] =>
            destruct (IH r (String.String c s) ltac:(cbn [Pos.size_nat] in Hq; lia)) as [G1 G2];
            cbn [String.length] in G2; lia
        end. }
    intros s. exact (proj1 (G _ p s (Nat.le_refl _))).
Qed.

Lemma hexString_shape_witness :
  exists body,
    hexString 0x1A2 (Some 3) = String.append "0x"%string body
    /\ (forall c, In c (String.list_ascii_of_string body) ->
          In c (String.list_ascii_of_string "0123456789ABCDEF"%string))
    /\ (0 < String.length body)%nat
    /\ (Nat.Even (String.length body)
        \/ Some 3 = Some (Z.of_nat (String.length body)))
    /\ (forall m, Some 3 = Some m -> m <= Z.of_nat (String.length body)).
Proof.
  apply (hexString_shape 0x1A2 (Some 3)). vm_compute. discriminate.
Defined.

(** X21. The radix is chosen by a lower-case [0x] at the very start of
    the text: when the text has [0x] after blanks, or is written with
    [0X], it is read in radix 10 and the value is 0. *)
Theorem parseNumber_prefix_must_lead (s : list N) (u : N) (t : list N) :
  startsWith_0x s = false ->
  trim_start s = 48%N :: u :: t ->
  u = 120%N \/ u = 88%N ->
  parseNumber (ArgString s) = Int 0.
Proof.
  intros Hs Ht Hu. unfold parseNumber. rewrite Hs.
  unfold parseInt. rewrite Ht.
  destruct Hu as [-> | ->]; reflexivity.
Qed.

Lemma parseNumber_prefix_must_lead_witness :
  parseNumber (ArgString (units "0X42"%string)) = Int 0.
Proof.
  apply (parseNumber_prefix_must_lead (units "0X42"%string) 88%N (units "42"%string));
    [reflexivity | reflexivity | right; reflexivity].
Defined.

(** ** The PCAN device that is opened *)

Lemma find_first {A} (f : A -> bool) (l : list A) (x : A) :
  List.find f l = Some x
  <-> exists pre post, l = pre ++ x :: post /\ f x = true
        /\ forall y, In y pre -> f y = false.
Proof.
  induction l as [|a l IH]; cbn [List.find].
  - split; [discriminate|]. intros (pre & post & E & _). destruct pre; discriminate.
  - destruct (f a) eqn:Fa.
    + split.
      * intros [= <-]. exists [], l. split; [reflexivity|]. split; [exact Fa|]. intros y [].
      * intros (pre & post & E & Fx & Hpre). destruct pre as [|b pre].
        -- now injection E as ->.
        -- injection E as <- _. rewrite (Hpre a (or_introl eq_refl)) in Fa. discriminate.
    + rewrite IH. split.
      * intros (pre & post & -> & Fx & Hpre). exists (a :: pre), post.
        split; [reflexivity|]. split; [exact Fx|].
        intros y [<-|Hy]; [exact Fa | exact (Hpre y Hy)].
      * intros (pre & post & E & Fx & Hpre). destruct pre as [|b pre].
        -- injection E as -> _. rewrite Fx in Fa. discriminate.
        -- injection E as <- ->. exists pre, post. split; [reflexivity|].
           split; [exact Fx|]. intros y Hy. apply Hpre. now right.
Qed.

(** X22. On Windows the device that is opened is always one of the
    listed devices: the first of the list when no interface name is
    given, otherwise the first one that carries the name; and a device
    is opened exactly when such a device exists. *)
Theorem windows_open_selects_listed_device (iface : option String.string)
    (devices : list device) (d : device) :
  CanInterfaceWindows_open iface devices = inr d
  <-> match iface with
      | None | Some String.EmptyString => exists rest, devices = d :: rest
      | Some name =>
          exists before rest, devices = before ++ d :: rest
            /\ device_name d = name
            /\ forall x, In x before -> device_name x <> name
      end.
Proof.
  assert (Hfind : forall name,
    match List.find (fun x => String.eqb (device_name x) name) devices with
    | Some x => inr x
    | None => inl (DeviceNotFound name)
    end = inr d
    <-> exists before rest, devices = before ++ d :: rest
          /\ device_name d = name
          /\ forall x, In x before -> device_name x <> name).
  { intros name.
    pose proof (find_first (fun x => String.eqb (device_name x) name) devices d) as F.
    cbv beta in F. split.
    - destruct (List.find _ devices) as [x|]; [|discriminate]. intros [= ->].
      destruct (proj1 F eq_refl) as (pre & post & E & Fx & Hpre).
      exists pre, post. split; [exact E|]. split; [now apply String.eqb_eq|].
      intros y Hy. apply String.eqb_neq. exact (Hpre y Hy).
    - intros (pre & post & E & Fx & Hpre).
      rewrite (proj2 F); [reflexivity|]. exists pre, post. split; [exact E|].
      split; [now apply String.eqb_eq|]. intros y Hy. apply String.eqb_neq. exact (Hpre y Hy). }
  unfold CanInterfaceWindows_open.
  destruct devices as [|first rest].
  - split; [discriminate|]. destruct iface as [[|c name]|].
    + intros (r & E). discriminate.
    + intros (pre & post & E & _). destruct pre; discriminate.
    + intros (r & E). discriminate.
  - destruct iface as [[|c name]|].
    + split; [intros [= ->]; now exists rest | intros (r & [= -> _]); reflexivity].
    + apply Hfind.
    + split; [intros [= ->]; now exists rest | intros (r & [= -> _]); reflexivity].
Qed.


(** ** Edges of the two parsers *)

(** X23. A negative number does not survive the round trip: the text
    [hexString] writes for it has the sign behind [0x], where
    [parseNumber] reads no number at all, or reads the padding as 0. *)
Theorem parseNumber_loses_negative (num : Z) (minLength : option Z) :
  num < 0 ->
  parseNumber (ArgString (units (hexString num minLength))) = NotANumber
  \/ parseNumber (ArgString (units (hexString num minLength))) = Int 0.
Proof.
  intros Hn. destruct (hexString_zeros num minLength) as (k & -> & _).
  change (parseNumber _) with
    (match parse_digits 16
             (units (Nat.iter k (String.String "0"%char) (toUpperCase (toString16 num))))
             0 false with
     | None => NotANumber
     | Some v => if (v <=? 2 ^ 53)%N then Int (1 * Z.of_N v) else Imprecise
     end).
  rewrite parse_zeros. destruct num as [|p|p]; try lia.
  change (toUpperCase (toString16 (Z.neg p)))
    with (String.String "-"%char (toUpperCase (HexString.Raw.of_pos p ""%string))).
  rewrite units_cons. cbn [orb].
  destruct (negb (Nat.eqb k 0)); [right | left]; reflexivity.
Qed.

Lemma parseNumber_loses_negative_witness :
  parseNumber (ArgString (units (hexString (-26) None))) = NotANumber
  \/ parseNumber (ArgString (units (hexString (-26) None))) = Int 0.
Proof.
  apply (parseNumber_loses_negative (-26) None). reflexivity.
Defined.

(** X24. The data bytes of the reset option are not checked to be two
    hexadecimal digits each: a digit followed by a character that is no
    digit is sent as the byte of the digit alone (all but [0x] and [0X],
    which read as no number). *)
Theorem reset_data_pair_is_lenient (w : nat) (id d u : N) :
  w = 3%nat \/ w = 8%nat -> (id < 16 ^ N.of_nat w)%N ->
  (d < 16)%N ->
  radix_digit 16 u = None -> is_line_terminator u = false -> u <> 35%N ->
  (d = 0%N -> u <> 120%N /\ u <> 88%N) ->
  reset_message (Some (hex_fixed w id ++ [35%N; hex_digit d; u]))
  = ResetSent (mkFrame (Z.of_N id) (Nat.eqb w 8) false [Js.byte_of_Z (Z.of_N d)]).
Proof.
  intros Hw Hid Hd Hu Hlt H35 Hx.
  rewrite reset_message_nonempty by (apply hex_fixed_nonempty; lia).
  destruct (hex_digit_plain d Hd) as (Hws & Hdl & Hd35 & Hplus & Hminus & _).
  rewrite send_reset_hex; [| exact Hw | exact Hid |].
  2:{ intros v [<-|[<-|[]]]; assumption. }
  cbn [match_pairs]. rewrite Hdl, Hlt. cbn [negb andb reset_data].
  assert (E : parseInt [hex_digit d; u] 16 = Int (Z.of_N d)).
  { unfold parseInt. cbn [trim_start]. rewrite Hws.
    assert (Es : strip_sign [hex_digit d; u] = (1, [hex_digit d; u])).
    { clear - Hd. apply below_16 in Hd. cbn [In] in Hd.
      repeat (destruct Hd as [Hd|Hd]; [subst; reflexivity|]). contradiction. }
    assert (Ep : strip_prefix 16 [hex_digit d; u] = [hex_digit d; u]).
    { destruct (N.eq_dec d 0%N) as [->|Hd0].
      - destruct (Hx eq_refl) as [Hx1 Hx2]. clear - Hx1 Hx2.
        unfold strip_prefix. cbn [N.eqb Pos.eqb hex_digit N.ltb N.compare N.add Pos.add].
        destruct u as [|q]; [reflexivity|].
        do 7 (try destruct q as [q|q|]; try reflexivity); congruence.
      - clear - Hd Hd0. apply below_16 in Hd. cbn [In] in Hd.
        repeat (destruct Hd as [Hd|Hd]; [subst; try reflexivity; congruence|]).
        contradiction. }
    rewrite Es, Ep. cbn [parse_digits].
    rewrite (radix_digit_hex_digit d Hd), Hu.
    replace (d + 16 * 0)%N with d by lia.
    destruct (N.leb_spec d (2 ^ 53)) as [_|H]; [f_equal; lia|].
    change (2 ^ 53)%N with 9007199254740992%N in H. lia. }
  rewrite E. reflexivity.
Qed.

Lemma reset_data_pair_is_lenient_witness :
  reset_message (Some (units "123#4Z"%string))
  = ResetSent (mkFrame 0x123 false false [x04]).
Proof.
  apply (reset_data_pair_is_lenient 3 0x123 4 90);
    [left; reflexivity | vm_compute; reflexivity | vm_compute; reflexivity
    | reflexivity | reflexivity | discriminate | discriminate].
Defined.
